(** * Rose voice assistant: dispatch engine, speech queue and listener gate

    A shallow embedding of the parts of the repository that coordinate
    command dispatch and speech output:

    - [voice_commands.py]  : [VoiceCommandManager] (registry, dispatch, metrics)
    - [media_services.py]  : [TTSService] (the [tts_playing] flag and its runner)
    - [fast_tts.py]        : [FastTTSService] (request queue and worker loop)
    - [rose_v30_refactored.py] : the background listener [callback]

    Python methods that mutate [self] and may raise are written in a small
    state-and-exception monad; library calls whose result the program cannot
    determine (the clock, [re.search], the speech engines) are parameters. *)

From Stdlib Require Import List String Ascii Bool Arith ZArith QArith Lia.
Import ListNotations.
Local Open Scope string_scope.

(** ** Python values, exceptions and control flow *)

Module Py.

(** The exception classes the modelled code raises or names in an [except]
    clause.  Every one of them derives from [Exception], so a clause
    [except Exception] catches all of them.  What is raised outside that
    class ([SystemExit], a cancelled task) is the subject of the module
    [Exits] further down. *)
Inductive exn : Type :=
| re_error                       (* re.error: malformed pattern *)
| UnknownValueError              (* speech_recognition.UnknownValueError *)
| queue_Empty                    (* queue.Empty *)
| ImportError
| Exception (msg : string).

Inductive result (A : Type) : Type :=
| Returned (a : A)
| Raised (e : exn).
Arguments Returned {A} a.
Arguments Raised {A} e.

(** A method body over a mutable object of type [S]. *)
Definition M (S A : Type) : Type := S -> result A * S.

Definition ret {S A} (a : A) : M S A := fun s => (Returned a, s).

Definition bind {S A B} (m : M S A) (k : A -> M S B) : M S B :=
  fun s =>
    match m s with
    | (Returned a, s') => k a s'
    | (Raised e, s') => (Raised e, s')
    end.

Definition raise {S A} (e : exn) : M S A := fun s => (Raised e, s).

Definition gets {S A} (f : S -> A) : M S A := fun s => (Returned (f s), s).

Definition modify {S} (f : S -> S) : M S unit := fun s => (Returned tt, f s).

(** The outcome of an external call, fed back into the method. *)
Definition lift {S A} (r : result A) : M S A := fun s => (r, s).

(** [try: body / except Exception as e: handler e] *)
Definition try_except {S A} (body : M S A) (handler : exn -> M S A) : M S A :=
  fun s =>
    match body s with
    | (Returned a, s') => (Returned a, s')
    | (Raised e, s') => handler e s'
    end.

(** [try: body / finally: fin].  The [finally] block runs on every exit of
    [body], a [return] as much as an exception; the outcome of [body]
    stands unless [fin] itself raises. *)
Definition try_finally {S A} (body : M S A) (fin : M S unit) : M S A :=
  fun s =>
    match body s with
    | (r, s') =>
        match fin s' with
        | (Returned _, s'') => (r, s'')
        | (Raised e, s'') => (Raised e, s'')
        end
    end.

(** Run a method of a component [S] held in a field of [W]. *)
Definition zoom {W S A} (proj : W -> S) (upd : S -> W -> W) (m : M S A) : M W A :=
  fun w =>
    match m (proj w) with
    | (r, s') => (r, upd s' w)
    end.

Declare Scope py_scope.
Delimit Scope py_scope with py.
Notation "x <- m ;; k" := (bind m (fun x => k))
  (at level 61, m at next level, right associativity) : py_scope.
Notation "m ;; k" := (bind m (fun _ => k))
  (at level 61, right associativity) : py_scope.

(** *** Strings (ASCII text) *)

(** [str.lower] on the ASCII range. *)
Definition lower_char (c : ascii) : ascii :=
  let n := nat_of_ascii c in
  if ((65 <=? n) && (n <=? 90))%nat then ascii_of_nat (n + 32)%nat else c.

Fixpoint lower (s : string) : string :=
  match s with
  | EmptyString => EmptyString
  | String c s' => String (lower_char c) (lower s')
  end.

(** [str.isspace] on the ASCII range: TAB, LF, VT, FF, CR, FS, GS, RS, US
    and the space. *)
Definition isspace (c : ascii) : bool :=
  let n := nat_of_ascii c in
  (((9 <=? n) && (n <=? 13)) || ((28 <=? n) && (n <=? 32)))%nat.

Fixpoint lstrip (s : string) : string :=
  match s with
  | EmptyString => EmptyString
  | String c s' => if isspace c then lstrip s' else s
  end.

Fixpoint rstrip (s : string) : string :=
  match s with
  | EmptyString => EmptyString
  | String c s' =>
      match rstrip s' with
      | EmptyString => if isspace c then EmptyString else String c EmptyString
      | r => String c r
      end
  end.

Definition strip (s : string) : string := rstrip (lstrip s).

(** [s.split(sep)] for a one-character separator: never the empty list. *)
Fixpoint split (sep : ascii) (s : string) : list string :=
  match s with
  | EmptyString => [EmptyString]
  | String c s' =>
      if Ascii.eqb c sep then EmptyString :: split sep s'
      else match split sep s' with
           | [] => [String c EmptyString]
           | w :: ws => String c w :: ws
           end
  end.

(** [s.split()]: the maximal runs of non-space characters. *)
Fixpoint words_from (cur : string) (s : string) : list string :=
  match s with
  | EmptyString => match cur with EmptyString => [] | _ => [cur] end
  | String c s' =>
      if isspace c
      then match cur with
           | EmptyString => words_from EmptyString s'
           | _ => cur :: words_from EmptyString s'
           end
      else words_from (cur ++ String c EmptyString) s'
  end.

Definition split_ws (s : string) : list string := words_from EmptyString s.

(** Truthiness of a [str]. *)
Definition truthy (s : string) : bool :=
  match s with EmptyString => false | _ => true end.

(** [lst[-n:]] *)
Definition slice_last {A} (n : nat) (l : list A) : list A :=
  skipn (List.length l - n)%nat l.

(** An insertion-ordered [dict] with [str] keys.  Assigning to a key that
    is present replaces the value and keeps the key's position. *)
Definition dict (V : Type) : Type := list (string * V).

Fixpoint dict_set {V} (k : string) (v : V) (d : dict V) : dict V :=
  match d with
  | [] => [(k, v)]
  | (k', v') :: d' =>
      if String.eqb k' k then (k', v) :: d' else (k', v') :: dict_set k v d'
  end.

(** Time stamps and durations are [float] seconds in the source; they are
    exact rationals here. *)
Definition Qltb (a b : Q) : bool := negb (Qle_bool b a).

Definition Qmax (a b : Q) : Q := if Qle_bool a b then b else a.

(** [d.get(k)] *)
Fixpoint dict_get {V} (k : string) (d : dict V) : option V :=
  match d with
  | [] => None
  | (k', v) :: d' => if String.eqb k' k then Some v else dict_get k d'
  end.

Definition dict_keys {V} (d : dict V) : list string := map fst d.

Definition dict_values {V} (d : dict V) : list V := map snd d.

(** [{**a, **b}]: the items of [a], then those of [b] assigned in order. *)
Definition dict_merge {V} (a b : dict V) : dict V :=
  fold_left (fun acc e => dict_set (fst e) (snd e) acc) b a.

(** [p in s] for two [str]. *)
Fixpoint startswith (s p : string) : bool :=
  match p, s with
  | EmptyString, _ => true
  | String _ _, EmptyString => false
  | String a p', String b s' => Ascii.eqb a b && startswith s' p'
  end.

Fixpoint contains (p s : string) : bool :=
  startswith s p ||
  match s with
  | EmptyString => false
  | String _ s' => contains p s'
  end.

End Py.

Import Py.
Local Open Scope py_scope.

(** ** voice_commands.py *)

Module VoiceCommands.

Inductive CommandPriority : Type := HIGH | NORMAL | LOW.

(** A callable is known by its name; what it does when a thread runs it is
    outside the manager. *)
Definition Callable : Type := string.

Record VoiceCommand : Type := {
  pattern : string;
  handler : Callable;
  description : string;
  priority : CommandPriority;
  requires_confirmation : bool;
  category : string
}.

(** [started] is a ghost field: the threads handed to
    [threading.Thread(target=..., args=(text,)).start()], oldest first. *)
Record VoiceCommandManager : Type := {
  commands : dict VoiceCommand;
  custom_commands : dict VoiceCommand;
  command_history : list string;
  is_processing : bool;
  response_times : list Q;
  started : list (Callable * string)
}.

Definition set_commands d (m : VoiceCommandManager) :=
  {| commands := d; custom_commands := custom_commands m;
     command_history := command_history m; is_processing := is_processing m;
     response_times := response_times m; started := started m |}.

Definition set_custom_commands d (m : VoiceCommandManager) :=
  {| commands := commands m; custom_commands := d;
     command_history := command_history m; is_processing := is_processing m;
     response_times := response_times m; started := started m |}.

Definition set_command_history h (m : VoiceCommandManager) :=
  {| commands := commands m; custom_commands := custom_commands m;
     command_history := h; is_processing := is_processing m;
     response_times := response_times m; started := started m |}.

Definition set_is_processing b (m : VoiceCommandManager) :=
  {| commands := commands m; custom_commands := custom_commands m;
     command_history := command_history m; is_processing := b;
     response_times := response_times m; started := started m |}.

Definition set_response_times r (m : VoiceCommandManager) :=
  {| commands := commands m; custom_commands := custom_commands m;
     command_history := command_history m; is_processing := is_processing m;
     response_times := r; started := started m |}.

Definition set_started t (m : VoiceCommandManager) :=
  {| commands := commands m; custom_commands := custom_commands m;
     command_history := command_history m; is_processing := is_processing m;
     response_times := response_times m; started := t |}.

Definition add_command (pattern : string) (handler : Callable)
    (description : string) (priority : CommandPriority)
    (requires_confirmation : bool) (category : string)
    (m : VoiceCommandManager) : VoiceCommandManager :=
  let command := {| pattern := pattern; handler := handler;
                    description := description; priority := priority;
                    requires_confirmation := requires_confirmation;
                    category := category |} in
  set_commands (dict_set pattern command (commands m)) m.

Definition add_custom_command (pattern : string) (handler : Callable)
    (description : string) (priority : CommandPriority)
    (requires_confirmation : bool) (category : string)
    (m : VoiceCommandManager) : VoiceCommandManager :=
  let command := {| pattern := pattern; handler := handler;
                    description := description; priority := priority;
                    requires_confirmation := requires_confirmation;
                    category := category |} in
  set_custom_commands (dict_set pattern command (custom_commands m)) m.

Definition _setup_default_commands (m : VoiceCommandManager) : VoiceCommandManager :=
  let m := add_command "close|exit|quit|shutdown" "_handle_system_command"
             "Close the application" HIGH false "system" m in
  let m := add_command "minimize|min|hide" "_handle_minimize"
             "Minimize the window" HIGH false "system" m in
  let m := add_command "maximize|max|fullscreen" "_handle_maximize"
             "Maximize the window" HIGH false "system" m in
  let m := add_command "play music|start music|music" "_handle_play_music"
             "Play music" NORMAL false "media" m in
  let m := add_command "stop music|pause music|stop" "_handle_stop_music"
             "Stop music" NORMAL false "media" m in
  let m := add_command "volume up|louder|increase volume" "_handle_volume_up"
             "Increase volume" NORMAL false "media" m in
  let m := add_command "volume down|quieter|decrease volume" "_handle_volume_down"
             "Decrease volume" NORMAL false "media" m in
  let m := add_command "hello|hi|hey|greetings" "_handle_greeting"
             "Greet the assistant" NORMAL false "ai" m in
  let m := add_command "what time|current time|time" "_handle_time"
             "Get current time" NORMAL false "ai" m in
  let m := add_command "what date|current date|date" "_handle_date"
             "Get current date" NORMAL false "ai" m in
  let m := add_command "help|commands|what can you do" "_handle_help"
             "Show available commands" LOW false "help" m in
  let m := add_command "list commands|show commands" "_handle_list_commands"
             "List all commands" LOW false "help" m in
  m.

Definition __init__ : VoiceCommandManager :=
  _setup_default_commands
    {| commands := []; custom_commands := []; command_history := [];
       is_processing := false; response_times := []; started := [] |}.

Section Dispatch.

(** [re_search p text] is [re.search(p, text, re.IGNORECASE)] seen as a
    truth value; it raises [re.error] on a malformed pattern. *)
Variable re_search : string -> string -> result bool.

Fixpoint any_search (patterns : list string) (text : string) : result bool :=
  match patterns with
  | [] => Returned false
  | p :: rest =>
      match re_search (strip p) text with
      | Returned true => Returned true
      | Returned false => any_search rest text
      | Raised e => Raised e
      end
  end.

Definition _match_pattern (pattern text : string) : result bool :=
  let patterns := split "|" pattern in
  any_search patterns text.

(** Starting a thread is taken to succeed, so the [except] clause has
    nothing to catch beyond what the body raises. *)
Definition _execute_command (command : VoiceCommand) (text : string)
  : M VoiceCommandManager unit :=
  try_except
    ((if requires_confirmation command then ret tt else ret tt) ;;
     modify (fun m => set_started (started m ++ [(handler command, text)]) m))
    (fun e => ret tt).

(** [now] is the reading of [time.time()] inside the method. *)
Definition _record_response_time (now start_time : Q)
  : M VoiceCommandManager unit :=
  let response_time := (now - start_time)%Q in
  modify (fun m => set_response_times (response_times m ++ [response_time]) m) ;;
  n <- gets (fun m => List.length (response_times m)) ;;
  if (100 <? n)%nat
  then modify (fun m => set_response_times (slice_last 100 (response_times m)) m)
  else ret tt.

(** One [for pattern, command in d.items()] loop of [process_voice_input];
    [Returned true] is the [return True] taken inside the loop,
    [Returned false] is the loop running to its end. *)
Fixpoint scan (items : dict VoiceCommand) (text : string) (start_time now : Q)
  : M VoiceCommandManager bool :=
  match items with
  | [] => ret false
  | (pattern, command) :: rest =>
      hit <- lift (_match_pattern pattern text) ;;
      if hit : bool
      then _execute_command command text ;;
           _record_response_time now start_time ;;
           ret true
      else scan rest text start_time now
  end.

(** [start_time] and [now] are the two clock readings of one call. *)
Definition process_voice_input (start_time now : Q) (text : string)
  : M VoiceCommandManager bool :=
  busy <- gets is_processing ;;
  if busy : bool then ret false
  else
    modify (set_is_processing true) ;;
    try_finally
      (let text := strip (lower text) in
       modify (fun m => set_command_history (command_history m ++ [text]) m) ;;
       custom <- gets custom_commands ;;
       hit <- scan custom text start_time now ;;
       if hit : bool then ret true
       else
         builtin <- gets commands ;;
         hit <- scan builtin text start_time now ;;
         if hit : bool then ret true else ret false)
      (modify (set_is_processing false)).

(** *** Vocabulary for the statements about dispatch *)

(** Some alternative of [pattern] matches [text]. *)
Definition matches (pattern text : string) : Prop :=
  Exists (fun p => re_search (strip p) text = Returned true)
         (split "|" pattern).

(** Every alternative of [pattern] is a pattern [re] accepts. *)
Definition well_formed (pattern text : string) : Prop :=
  Forall (fun p => exists b, re_search (strip p) text = Returned b)
         (split "|" pattern).

(** The two predicates as tests. *)
Definition matchesb (pattern text : string) : bool :=
  existsb (fun p => match re_search (strip p) text with
                    | Returned true => true
                    | _ => false
                    end)
          (split "|" pattern).

Definition well_formedb (pattern text : string) : bool :=
  forallb (fun p => match re_search (strip p) text with
                    | Returned _ => true
                    | Raised _ => false
                    end)
          (split "|" pattern).

(** The entry at which a loop over [items] stops: the control skeleton
    of [scan], without its effects. *)
Fixpoint select (items : dict VoiceCommand) (text : string)
  : result (option (string * VoiceCommand)) :=
  match items with
  | [] => Returned None
  | (pattern, command) :: rest =>
      match _match_pattern pattern text with
      | Returned true => Returned (Some (pattern, command))
      | Returned false => select rest text
      | Raised e => Raised e
      end
  end.

(** "Every accepted call leaves one more sample in the buffer." *)
Definition every_accepted_call_records : Prop :=
  forall (start_time now : Q) (text : string) (m : VoiceCommandManager),
    is_processing m = false ->
    List.length
      (response_times (snd (process_voice_input start_time now text m)))
    = S (List.length (response_times m)).

(** The manager after the body of a loop iteration whose pattern
    matched: the thread is started, then the sample is recorded. *)
Definition after_hit (command : VoiceCommand) (text : string)
    (start_time now : Q) (m : VoiceCommandManager) : VoiceCommandManager :=
  snd ((_execute_command command text ;;
        _record_response_time now start_time) m).

(** The text the loops see. *)
Definition normalize (text : string) : string := strip (lower text).

(** The manager as the loops find it: guard set, text logged. *)
Definition entered (text : string) (m : VoiceCommandManager) : VoiceCommandManager :=
  set_command_history (command_history m ++ [normalize text])
    (set_is_processing true m).

(** A call gets past the [is_processing] guard when it reaches the
    statement that appends to [command_history]. *)
Definition accepted (start_time now : Q) (text : string)
    (m : VoiceCommandManager) : Prop :=
  command_history (snd (process_voice_input start_time now text m))
  = (command_history m ++ [normalize text])%list.

End Dispatch.

Definition get_average_response_time (m : VoiceCommandManager) : Q :=
  match response_times m with
  | [] => 0
  | _ => fold_left Qplus (response_times m) 0
         / inject_Z (Z.of_nat (List.length (response_times m)))
  end.

(** The response-time buffer after one more sample. *)
Definition push_sample (x : Q) (buffer : list Q) : list Q :=
  let buffer' := (buffer ++ [x])%list in
  if (100 <? List.length buffer')%nat then slice_last 100 buffer' else buffer'.

(** The arithmetic mean, as the specification words it. *)
Definition mean (xs : list Q) : Q :=
  match xs with
  | [] => 0
  | _ => fold_right Qplus 0 xs / inject_Z (Z.of_nat (List.length xs))
  end.

(** A sequence of calls of [_record_response_time], each with its start
    time and the clock reading it takes. *)
Fixpoint record_all (calls : list (Q * Q)) : M VoiceCommandManager unit :=
  match calls with
  | [] => ret tt
  | (start_time, now) :: rest =>
      _record_response_time now start_time ;; record_all rest
  end.

Definition latency (call : Q * Q) : Q := snd call - fst call.

(** Two registries that differ at most in the [priority] of their entries. *)
Definition forget_priority (c : VoiceCommand) : VoiceCommand :=
  {| pattern := pattern c; handler := handler c; description := description c;
     priority := NORMAL; requires_confirmation := requires_confirmation c;
     category := category c |}.

Definition forget_priorities (d : dict VoiceCommand) : dict VoiceCommand :=
  map (fun e => (fst e, forget_priority (snd e))) d.

Definition same_but_priority (m1 m2 : VoiceCommandManager) : Prop :=
  forget_priorities (commands m1) = forget_priorities (commands m2) /\
  forget_priorities (custom_commands m1) = forget_priorities (custom_commands m2) /\
  command_history m1 = command_history m2 /\
  is_processing m1 = is_processing m2 /\
  response_times m1 = response_times m2 /\
  started m1 = started m2.

Definition same_entry (e1 e2 : option (string * VoiceCommand)) : Prop :=
  match e1, e2 with
  | None, None => True
  | Some (k1, c1), Some (k2, c2) => k1 = k2 /\ forget_priority c1 = forget_priority c2
  | _, _ => False
  end.

Definition same_selection (r1 r2 : result (option (string * VoiceCommand))) : Prop :=
  match r1, r2 with
  | Returned e1, Returned e2 => same_entry e1 e2
  | Raised x1, Raised x2 => x1 = x2
  | _, _ => False
  end.

(** A thread body: the handler called on its argument.  An exception that
    leaves the handler ends the thread and nothing else. *)
Definition thread_run (behaviour : Callable -> string -> result unit)
    (t : Callable * string) : M VoiceCommandManager unit :=
  try_except (lift (behaviour (fst t) (snd t))) (fun e => ret tt).

Fixpoint threads_run (behaviour : Callable -> string -> result unit)
    (ts : list (Callable * string)) : M VoiceCommandManager unit :=
  match ts with
  | [] => ret tt
  | t :: rest => thread_run behaviour t ;; threads_run behaviour rest
  end.

(** [{**self.commands, **self.custom_commands}] filtered on the category. *)
Definition get_commands_by_category (wanted : string) (m : VoiceCommandManager)
  : list VoiceCommand :=
  let all_commands := dict_merge (commands m) (custom_commands m) in
  filter (fun cmd => String.eqb (category cmd) wanted) (dict_values all_commands).

Definition get_all_commands (m : VoiceCommandManager) : list VoiceCommand :=
  dict_values (commands m) ++ dict_values (custom_commands m).

(** The public calls on a manager, for statements about sequences of them.
    A caller that catches what [process_voice_input] raises goes on with
    the manager as the call left it. *)
Inductive call : Type :=
| AddCommand (pattern : string) (handler : Callable) (description : string)
             (priority : CommandPriority) (requires_confirmation : bool)
             (category : string)
| AddCustomCommand (pattern : string) (handler : Callable) (description : string)
                   (priority : CommandPriority) (requires_confirmation : bool)
                   (category : string)
| ProcessVoiceInput (start_time now : Q) (text : string).

Definition step (re_search : string -> string -> result bool) (c : call)
    (m : VoiceCommandManager) : VoiceCommandManager :=
  match c with
  | AddCommand p h d pr rc cat => add_command p h d pr rc cat m
  | AddCustomCommand p h d pr rc cat => add_custom_command p h d pr rc cat m
  | ProcessVoiceInput start_time now text =>
      snd (process_voice_input re_search start_time now text m)
  end.

Definition run (re_search : string -> string -> result bool) (cs : list call)
    (m : VoiceCommandManager) : VoiceCommandManager :=
  fold_left (fun m c => step re_search c m) cs m.

Definition is_process (c : call) : bool :=
  match c with
  | ProcessVoiceInput _ _ _ => true
  | _ => false
  end.

(** What sequential use keeps true of a manager between calls. *)
Definition tidy (m : VoiceCommandManager) : Prop :=
  is_processing m = false /\
  (List.length (response_times m) <= 100)%nat /\
  NoDup (dict_keys (commands m)) /\
  NoDup (dict_keys (custom_commands m)).

End VoiceCommands.

(** ** media_services.py: TTSService *)

Module MediaServices.

Inductive event : Type :=
| EvPrint (line : string)
| EvGenerate (text filename voice : string)   (* edge_tts.Communicate(text, voice).save(filename) *)
| EvPopen (path : string)                     (* the platform's player on [path] *)
| EvHandleError (e : exn) (context : string)  (* error_handler_instance.handle_error *)
| EvSleep (seconds : Q).

(** [edge_tts] records whether the attribute is a module or [None].  The
    lock [tts_lock] only brackets the two assignments to [tts_playing];
    [log] is a ghost field. *)
Record TTSService : Type := {
  edge_tts : bool;
  tts_playing : bool;
  log : list event
}.

Definition set_tts_playing b (s : TTSService) :=
  {| edge_tts := edge_tts s; tts_playing := b; log := log s |}.

Definition emit (ev : event) : M TTSService unit :=
  modify (fun s => {| edge_tts := edge_tts s; tts_playing := tts_playing s;
                      log := log s ++ [ev] |}).

Definition is_available (s : TTSService) : bool := edge_tts s.

Definition is_playing (s : TTSService) : bool := tts_playing s.

Definition _estimate_tts_duration (text : string) : Q :=
  let words := List.length (split_ws text) in
  Qmax (6 # 10) (inject_Z (Z.of_nat words) / (28 # 10)).

(** What the two external steps of one utterance do: saving the synthesized
    file, and launching the player. *)
Record outcome : Type := {
  saved : result unit;
  launched : result unit
}.

Definition handle_error (e : exn) (context : string) : M TTSService unit :=
  emit (EvHandleError e context).

Definition _play_file_default (o : outcome) (path : string) : M TTSService unit :=
  try_except
    (emit (EvPopen path) ;; lift (launched o))
    (fun e => handle_error e "Audio playback").

Definition _generate_tts (o : outcome) (text filename voice : string)
  : M TTSService unit :=
  available <- gets edge_tts ;;
  if available : bool
  then emit (EvGenerate text filename voice) ;; lift (saved o)
  else raise (Exception "Edge TTS not available").

(** The thread body [_runner] that [speak] starts. *)
Definition _runner (o : outcome) (text voice : string) : M TTSService unit :=
  modify (set_tts_playing true) ;;
  try_finally
    (try_except
       (_generate_tts o text "speech.mp3" voice ;;
        _play_file_default o "speech.mp3")
       (fun e => handle_error e "TTS generation"))
    (emit (EvSleep (_estimate_tts_duration text + (35 # 100))) ;;
     modify (set_tts_playing false)).

(** [speak] returns [Some] thread body when it starts a thread; [voice] is
    [language_processor.get_voice_for_language(language)]. *)
Definition speak (text voice : string)
  : M TTSService (option (outcome -> M TTSService unit)) :=
  available <- gets is_available ;;
  if available : bool
  then ret (Some (fun o => _runner o text voice))
  else emit (EvPrint ("[TTS fallback] " ++ text)) ;; ret None.

Definition __init__ (edge_tts_imported : bool) : TTSService :=
  {| edge_tts := edge_tts_imported; tts_playing := false; log := [] |}.

(** *** MusicService *)

(** [music_taste] is the only attribute the method below touches. *)
Record MusicService : Type := {
  music_taste : list string
}.

(** [song not in self.music_taste] *)
Definition not_in (song : string) (taste : list string) : bool :=
  negb (existsb (String.eqb song) taste).

Definition add_to_taste (song : string) (m : MusicService) : MusicService :=
  if truthy song && not_in song (music_taste m)
  then
    let taste := (music_taste m ++ [song])%list in
    if (50 <? List.length taste)%nat
    then {| music_taste := tl taste |}
    else {| music_taste := taste |}
  else m.

(** *** VolumeService *)

(** [platform.system()]: "Windows", "Darwin", or anything else. *)
Inductive Platform : Type := Windows | Darwin | OtherSystem.

(** Ghost state: the argument lists given to [subprocess.run], and the
    errors given to [error_handler_instance.handle_error]. *)
Record VolumeService : Type := {
  spawned : list (list string);
  handled : list (exn * string)
}.

(** [subprocess.run(args)]; [ran] is what the call does. *)
Definition subprocess_run (ran : result unit) (args : list string)
  : M VolumeService unit :=
  modify (fun v => {| spawned := spawned v ++ [args]; handled := handled v |}) ;;
  lift ran.

Definition adjust_volume (system : Platform) (ran : result unit)
    (command : string) : M VolumeService unit :=
  try_except
    (match system with
     | Windows =>
         if contains "up" command
         then subprocess_run ran ["nircmd.exe"; "changesysvolume"; "5000"]
         else if contains "down" command
         then subprocess_run ran ["nircmd.exe"; "changesysvolume"; "-5000"]
         else if contains "mute" command
         then subprocess_run ran ["nircmd.exe"; "mutesysvolume"; "1"]
         else if contains "unmute" command
         then subprocess_run ran ["nircmd.exe"; "mutesysvolume"; "0"]
         else ret tt
     | Darwin =>
         if contains "up" command
         then subprocess_run ran
                ["osascript"; "-e";
                 "set volume output volume (output volume of (get volume settings) + 10)"]
         else if contains "down" command
         then subprocess_run ran
                ["osascript"; "-e";
                 "set volume output volume (output volume of (get volume settings) - 10)"]
         else ret tt
     | OtherSystem =>
         if contains "up" command
         then subprocess_run ran ["amixer"; "-D"; "pulse"; "sset"; "Master"; "5%+"]
         else if contains "down" command
         then subprocess_run ran ["amixer"; "-D"; "pulse"; "sset"; "Master"; "5%-"]
         else ret tt
     end)
    (fun e =>
       modify (fun v => {| spawned := spawned v;
                           handled := handled v ++ [(e, "Volume control")] |})).

(** The two Windows calls on the mute switch. *)
Definition unmute_call : list string := ["nircmd.exe"; "mutesysvolume"; "0"].

Definition mute_call : list string := ["nircmd.exe"; "mutesysvolume"; "1"].


End MediaServices.

(** ** fast_tts.py: FastTTSService *)

Module FastTTS.

Definition bytes : Type := list Byte.byte.

Inductive event : Type :=
| EvPrint (line : string)
| EvPrintError (context : string) (e : exn)
| EvGenerate (ssml : string)         (* edge_tts.Communicate(ssml).async_generate() *)
| EvPlay (audio_data : bytes)        (* _play_audio entered: pygame load, play, wait *)
| EvPlayFallback (audio_data : bytes) (* subprocess.run(['start', path]) *)
| EvStop                             (* pygame.mixer.music.stop() *)
| EvCallback.

(** What the external calls of one worker pass do: the clock, the synthesis
    engine, the pygame player and the fallback player. *)
Record io : Type := {
  now : Q;
  generated : result bytes;
  pygame_played : result unit;
  fallback_played : result unit
}.

Section WithEnv.

(** [Env] is the rest of the process, which a completion callback, being
    the caller's code, may read and write; the service itself is [self]. *)
Variable Env : Type.

Definition Callback : Type := M Env unit.

(** The request [dict] built by [speak]. *)
Record request : Type := {
  req_text : string;
  req_voice : string;
  req_rate : string;
  req_pitch : string;
  req_volume : string;
  req_callback : option Callback;
  req_timestamp : Q
}.

(** [voice_queue] is the FIFO, head first; [trace] is a ghost field. *)
Record FastTTSService : Type := {
  is_available : bool;
  voice_queue : list request;
  is_speaking : bool;
  current_voice : string;
  rate : string;
  pitch : string;
  volume : string;
  trace : list event
}.

Definition set_voice_queue q (s : FastTTSService) :=
  {| is_available := is_available s; voice_queue := q;
     is_speaking := is_speaking s; current_voice := current_voice s;
     rate := rate s; pitch := pitch s; volume := volume s; trace := trace s |}.

Definition set_is_speaking b (s : FastTTSService) :=
  {| is_available := is_available s; voice_queue := voice_queue s;
     is_speaking := b; current_voice := current_voice s;
     rate := rate s; pitch := pitch s; volume := volume s; trace := trace s |}.

Definition set_trace t (s : FastTTSService) :=
  {| is_available := is_available s; voice_queue := voice_queue s;
     is_speaking := is_speaking s; current_voice := current_voice s;
     rate := rate s; pitch := pitch s; volume := volume s; trace := t |}.

Definition __init__ (edge_tts_imported : bool) : FastTTSService :=
  {| is_available := edge_tts_imported; voice_queue := [];
     is_speaking := false; current_voice := "en-US-AriaNeural";
     rate := "+0%"; pitch := "+0Hz"; volume := "+0%"; trace := [] |}.

(** The state a method of the service runs in: the process around it and
    [self]. *)
Definition World : Type := (Env * FastTTSService)%type.

Definition self {A} (m : M FastTTSService A) : M World A :=
  zoom snd (fun s w => (fst w, s)) m.

Definition outside {A} (m : M Env A) : M World A :=
  zoom fst (fun e w => (e, snd w)) m.

Definition emit (ev : event) : M World unit :=
  self (modify (fun s => set_trace (trace s ++ [ev]) s)).

(** [if callback: callback()] *)
Definition call_callback (callback : option Callback) : M World unit :=
  match callback with
  | Some f => emit EvCallback ;; outside f
  | None => ret tt
  end.

(** [x or default] on an optional [str] argument. *)
Definition or_default (x : option string) (default : string) : string :=
  match x with
  | Some s => if truthy s then s else default
  | None => default
  end.

(** [stamp] is the reading of [time.time()] stored in the request. *)
Definition speak (stamp : Q) (text : string) (voice rate_arg pitch_arg volume_arg : option string)
    (callback : option Callback) : M World unit :=
  available <- self (gets is_available) ;;
  if available : bool
  then
    s <- self (gets (fun s => s)) ;;
    let voice := or_default voice (current_voice s) in
    let rate_arg := or_default rate_arg (rate s) in
    let pitch_arg := or_default pitch_arg (pitch s) in
    let volume_arg := or_default volume_arg (volume s) in
    let tts_request :=
      {| req_text := text; req_voice := voice; req_rate := rate_arg;
         req_pitch := pitch_arg; req_volume := volume_arg;
         req_callback := callback; req_timestamp := stamp |} in
    self (modify (fun s => set_voice_queue (voice_queue s ++ [tts_request]) s))
  else
    emit (EvPrint ("[TTS] " ++ text)) ;;
    call_callback callback.

Definition _clear_queue : M World unit :=
  self (modify (set_voice_queue [])).

(** The bare [except:] swallows whatever stopping the mixer raises. *)
Definition _stop_current_speech (stopped : result unit) : M World unit :=
  try_except (emit EvStop ;; lift stopped) (fun e => ret tt).

Definition speak_immediate (stamp : Q) (stopped : result unit)
    (text : string) (voice : option string) : M World unit :=
  available <- self (gets is_available) ;;
  if available : bool
  then
    _clear_queue ;;
    _stop_current_speech stopped ;;
    speak stamp text voice None None None None
  else
    emit (EvPrint ("[TTS] " ++ text)).

Definition dq : string := String (ascii_of_nat 34) EmptyString.
Definition nl : string := String (ascii_of_nat 10) EmptyString.
Definition sp12 : string := "            ".

(** The f-string of [_process_tts_request]. *)
Definition make_ssml (text voice rate_arg pitch_arg volume_arg : string) : string :=
  nl ++
  sp12 ++ "<speak version=" ++ dq ++ "1.0" ++ dq
       ++ " xmlns=" ++ dq ++ "http://www.w3.org/2001/10/synthesis" ++ dq
       ++ " xml:lang=" ++ dq ++ "en-US" ++ dq ++ ">" ++ nl ++
  sp12 ++ "    <voice name=" ++ dq ++ voice ++ dq ++ ">" ++ nl ++
  sp12 ++ "        <prosody rate=" ++ dq ++ rate_arg ++ dq
       ++ " pitch=" ++ dq ++ pitch_arg ++ dq
       ++ " volume=" ++ dq ++ volume_arg ++ dq ++ ">" ++ nl ++
  sp12 ++ "            " ++ text ++ nl ++
  sp12 ++ "        </prosody>" ++ nl ++
  sp12 ++ "    </voice>" ++ nl ++
  sp12 ++ "</speak>" ++ nl ++
  sp12.

Definition _generate_audio (o : io) (ssml : string) : M World (option bytes) :=
  try_except
    (emit (EvGenerate ssml) ;;
     audio_data <- lift (generated o) ;;
     ret (Some audio_data))
    (fun e => emit (EvPrintError "Audio generation error" e) ;; ret None).

Definition _play_audio (o : io) (audio_data : bytes) : M World unit :=
  try_except
    (emit (EvPlay audio_data) ;; lift (pygame_played o))
    (fun e =>
       match e with
       | ImportError =>
           try_except
             (emit (EvPlayFallback audio_data) ;; lift (fallback_played o))
             (fun e' => emit (EvPrintError "Audio playback error" e'))
       | _ => emit (EvPrintError "Audio playback error" e)
       end).

(** [if audio_data:] is false for [None] and for the empty [bytes]. *)
Definition has_audio (audio_data : option bytes) : option bytes :=
  match audio_data with
  | Some (b :: rest) => Some (b :: rest)
  | _ => None
  end.

Definition _process_tts_request (o : io) (r : request) : M World unit :=
  try_except
    (let ssml := make_ssml (req_text r) (req_voice r) (req_rate r)
                           (req_pitch r) (req_volume r) in
     audio_data <- _generate_audio o ssml ;;
     match has_audio audio_data with
     | Some data => _play_audio o data
     | None => ret tt
     end ;;
     call_callback (req_callback r))
    (fun e => emit (EvPrintError "TTS processing error" e)).

(** [self.voice_queue.get(timeout=1)] *)
Definition queue_get : M World request :=
  q <- self (gets voice_queue) ;;
  match q with
  | [] => raise queue_Empty
  | r :: rest => self (modify (set_voice_queue rest)) ;; ret r
  end.

(** One pass of the [while True] loop of [_tts_worker].  [Returned tt]
    means the loop goes round again; an exception that left the [try]
    would end the thread.  [task_done] only counts down the queue's
    unfinished tasks, which nothing in the program waits for.  The
    exceptions of this module are of class [Exception]; the pass over
    those that are not is [FastTTSExits.worker_pass]. *)
Definition worker_pass (o : io) : M World unit :=
  try_except
    (r <- queue_get ;;
     if Qltb 5 (now o - req_timestamp r)
     then ret tt
     else
       self (modify (set_is_speaking true)) ;;
       _process_tts_request o r ;;
       self (modify (set_is_speaking false)))
    (fun e =>
       match e with
       | queue_Empty => ret tt
       | _ => emit (EvPrintError "TTS Worker error" e) ;;
              self (modify (set_is_speaking false))
       end).

(** The worker loop over the external outcomes of its first passes. *)
Fixpoint _tts_worker (os : list io) : M World unit :=
  match os with
  | [] => ret tt
  | o :: rest => worker_pass o ;; _tts_worker rest
  end.

(** *** Vocabulary for the statements about the worker *)

(** The process after the completion callback of [r], if it has one. *)
Definition after_callback (r : request) (env : Env) : Env :=
  match req_callback r with
  | Some f => snd (f env)
  | None => env
  end.

(** The request was put on the queue more than five seconds ago. *)
Definition stale (o : io) (r : request) : Prop :=
  (5 < now o - req_timestamp r)%Q.

(** A callback that leaves the observation [obs] of the process as it
    found it. *)
Definition keeps {A : Type} (obs : Env -> A) (callback : option Callback) : Prop :=
  match callback with
  | Some f => forall env, obs (snd (f env)) = obs env
  | None => True
  end.

Definition is_busy (s : FastTTSService) : bool :=
  is_speaking s || negb (match voice_queue s with [] => true | _ => false end).

End WithEnv.

Arguments req_text {Env} _.
Arguments req_voice {Env} _.
Arguments req_rate {Env} _.
Arguments req_pitch {Env} _.
Arguments req_volume {Env} _.
Arguments req_callback {Env} _.
Arguments req_timestamp {Env} _.
Arguments is_available {Env} _.
Arguments voice_queue {Env} _.
Arguments is_speaking {Env} _.
Arguments current_voice {Env} _.
Arguments rate {Env} _.
Arguments pitch {Env} _.
Arguments volume {Env} _.
Arguments trace {Env} _.
Arguments set_voice_queue {Env} _ _.
Arguments set_is_speaking {Env} _ _.
Arguments set_trace {Env} _ _.
Arguments self {Env A} _.
Arguments outside {Env A} _.
Arguments emit {Env} _.
Arguments call_callback {Env} _.
Arguments speak {Env} _ _ _ _ _ _ _.
Arguments speak_immediate {Env} _ _ _ _.
Arguments _clear_queue {Env}.
Arguments _stop_current_speech {Env} _.
Arguments _generate_audio {Env} _ _.
Arguments _play_audio {Env} _ _.
Arguments _process_tts_request {Env} _ _.
Arguments queue_get {Env}.
Arguments worker_pass {Env} _.
Arguments _tts_worker {Env} _.
Arguments is_busy {Env} _.
Arguments after_callback {Env} _ _.
Arguments stale {Env} _ _.
Arguments keeps {Env A} _ _.

Definition set_voice {Env} (voice : string) (s : FastTTSService Env)
  : FastTTSService Env :=
  {| is_available := is_available s; voice_queue := voice_queue s;
     is_speaking := is_speaking s; current_voice := voice;
     rate := rate s; pitch := pitch s; volume := volume s; trace := trace s |}.

Definition set_rate {Env} (new_rate : string) (s : FastTTSService Env)
  : FastTTSService Env :=
  {| is_available := is_available s; voice_queue := voice_queue s;
     is_speaking := is_speaking s; current_voice := current_voice s;
     rate := new_rate; pitch := pitch s; volume := volume s; trace := trace s |}.

Definition set_pitch {Env} (new_pitch : string) (s : FastTTSService Env)
  : FastTTSService Env :=
  {| is_available := is_available s; voice_queue := voice_queue s;
     is_speaking := is_speaking s; current_voice := current_voice s;
     rate := rate s; pitch := new_pitch; volume := volume s; trace := trace s |}.

Definition set_volume {Env} (new_volume : string) (s : FastTTSService Env)
  : FastTTSService Env :=
  {| is_available := is_available s; voice_queue := voice_queue s;
     is_speaking := is_speaking s; current_voice := current_voice s;
     rate := rate s; pitch := pitch s; volume := new_volume; trace := trace s |}.

(** *** Reading the trace *)

Definition is_generate (ev : event) : bool :=
  match ev with EvGenerate _ => true | _ => false end.

Definition is_play (ev : event) : bool :=
  match ev with EvPlay _ => true | _ => false end.

Definition is_callback (ev : event) : bool :=
  match ev with EvCallback => true | _ => false end.

(** The document [_process_tts_request] builds for a request. *)
Definition ssml_of {Env} (r : request Env) : string :=
  make_ssml (req_text r) (req_voice r) (req_rate r) (req_pitch r) (req_volume r).

(** The requests of a queue that the passes [os] take while they are not
    yet stale, the i-th pass taking the i-th request. *)
Definition taken_fresh {Env} (os : list io) (queue : list (request Env))
  : list (request Env) :=
  map snd
    (filter (fun p => negb (Qltb 5 (now (fst p) - req_timestamp (snd p))))
            (combine os queue)).

(** The request [speak] builds from its arguments and the current settings. *)
Definition built_request {Env} (stamp : Q) (text : string)
    (voice rate_arg pitch_arg volume_arg : option string)
    (callback : option (Callback Env)) (s : FastTTSService Env) : request Env :=
  {| req_text := text;
     req_voice := or_default voice (current_voice s);
     req_rate := or_default rate_arg (rate s);
     req_pitch := or_default pitch_arg (pitch s);
     req_volume := or_default volume_arg (volume s);
     req_callback := callback;
     req_timestamp := stamp |}.

End FastTTS.

(** ** rose_v30_refactored.py: the module-level services and the listener *)

Module Rose.

Definition AudioData : Type := list Byte.byte.

(** The singletons [tts_service] and [fast_tts] the window imports, and
    three ghost fields: the audio handed to [recognize_google], the
    [handle_command] threads started, and the errors passed to
    [error_handler_instance.handle_error]. *)
Record App : Type := {
  tts_service : MediaServices.TTSService;
  fast_tts : FastTTS.FastTTSService MediaServices.TTSService;
  transcribed : list AudioData;
  dispatched : list string;
  errors : list (exn * string)
}.

Definition set_transcribed t (a : App) :=
  {| tts_service := tts_service a; fast_tts := fast_tts a; transcribed := t;
     dispatched := dispatched a; errors := errors a |}.

Definition set_dispatched d (a : App) :=
  {| tts_service := tts_service a; fast_tts := fast_tts a;
     transcribed := transcribed a; dispatched := d; errors := errors a |}.

Definition set_errors e (a : App) :=
  {| tts_service := tts_service a; fast_tts := fast_tts a;
     transcribed := transcribed a; dispatched := dispatched a; errors := e |}.

(** A method of [fast_tts] run inside the application: it sees
    [tts_service] as its surrounding process. *)
Definition on_fast_tts {A} (m : M (FastTTS.World MediaServices.TTSService) A)
  : M App A :=
  zoom (fun a => (tts_service a, fast_tts a))
       (fun w a => {| tts_service := fst w; fast_tts := snd w;
                      transcribed := transcribed a; dispatched := dispatched a;
                      errors := errors a |})
       m.

(** The flag the listener consults. *)
Definition playing (a : App) : bool :=
  MediaServices.is_playing (tts_service a).

Section Listener.

(** [recognizer.recognize_google(audio)]: the text, or
    [UnknownValueError], or a request error. *)
Variable recognize_google : AudioData -> result string.

(** The [callback] that [listen_in_background] calls on every captured
    phrase. *)
Definition callback (audio : AudioData) : M App unit :=
  playing <- gets (fun a => MediaServices.is_playing (tts_service a)) ;;
  if playing : bool then ret tt
  else
    try_except
      (modify (fun a => set_transcribed (transcribed a ++ [audio]) a) ;;
       text <- lift (recognize_google audio) ;;
       if truthy text && truthy (strip text)
       then modify (fun a => set_dispatched (dispatched a ++ [text]) a)
       else ret tt)
      (fun e =>
         match e with
         | UnknownValueError => ret tt
         | _ => modify (fun a => set_errors (errors a ++ [(e, "Voice recognition")]) a)
         end).

End Listener.

End Rose.

(** ** Exceptions of every class *)

(** The modules above take the outcome of an external call to be a value or
    an exception of class [Exception].  Python has exceptions outside that
    class, which a clause [except Exception] lets through; the modules below
    model the speech worker and the speech thread over those too. *)

Module Exits.

(** The subclasses of [BaseException] that are not subclasses of
    [Exception]. *)
Inductive exit_signal : Type :=
| SystemExit                     (* sys.exit() *)
| KeyboardInterrupt
| GeneratorExit
| CancelledError.                (* asyncio.CancelledError *)

Inductive outcome (A : Type) : Type :=
| Finished (a : A)
| Failed (e : exn)               (* an exception of class Exception *)
| Exited (b : exit_signal).
Arguments Finished {A} a.
Arguments Failed {A} e.
Arguments Exited {A} b.

Definition of_result {A} (r : result A) : outcome A :=
  match r with
  | Returned a => Finished a
  | Raised e => Failed e
  end.

(** A method body over a mutable object of type [S]. *)
Definition X (S A : Type) : Type := S -> outcome A * S.

Definition done {S A} (a : A) : X S A := fun s => (Finished a, s).

Definition next {S A B} (m : X S A) (k : A -> X S B) : X S B :=
  fun s =>
    match m s with
    | (Finished a, s') => k a s'
    | (Failed e, s') => (Failed e, s')
    | (Exited b, s') => (Exited b, s')
    end.

Definition fail {S A} (e : exn) : X S A := fun s => (Failed e, s).

Definition read {S A} (f : S -> A) : X S A := fun s => (Finished (f s), s).

Definition update {S} (f : S -> S) : X S unit := fun s => (Finished tt, f s).

(** The outcome of an external call, fed back into the method. *)
Definition external {S A} (r : outcome A) : X S A := fun s => (r, s).

(** [try: body / except Exception as e: handler e]: an exit signal is not
    caught. *)
Definition except_Exception {S A} (body : X S A) (handler : exn -> X S A)
  : X S A :=
  fun s =>
    match body s with
    | (Finished a, s') => (Finished a, s')
    | (Failed e, s') => handler e s'
    | (Exited b, s') => (Exited b, s')
    end.

(** [try: body / finally: fin]: [fin] runs on every exit of [body], and the
    outcome of [body] stands unless [fin] itself does not finish. *)
Definition finally {S A} (body : X S A) (fin : X S unit) : X S A :=
  fun s =>
    match body s with
    | (r, s') =>
        match fin s' with
        | (Finished _, s'') => (r, s'')
        | (Failed e, s'') => (Failed e, s'')
        | (Exited b, s'') => (Exited b, s'')
        end
    end.

Definition within {W S A} (proj : W -> S) (upd : S -> W -> W) (m : X S A)
  : X W A :=
  fun w =>
    match m (proj w) with
    | (r, s') => (r, upd s' w)
    end.

Declare Scope exits_scope.
Delimit Scope exits_scope with exits.
Notation "x <-- m ;;; k" := (next m (fun x => k))
  (at level 61, m at next level, right associativity) : exits_scope.
Notation "m ;;; k" := (next m (fun _ => k))
  (at level 61, right associativity) : exits_scope.

End Exits.

(** ** media_services.py: the speech thread over every exit *)

Module MediaServicesExits.

Import Exits.
Local Open Scope exits_scope.

(** What the two external steps of one utterance do. *)
Record attempt : Type := {
  saved : outcome unit;
  launched : outcome unit
}.

Definition emit (ev : MediaServices.event) : X MediaServices.TTSService unit :=
  update (fun s => {| MediaServices.edge_tts := MediaServices.edge_tts s;
                      MediaServices.tts_playing := MediaServices.tts_playing s;
                      MediaServices.log := MediaServices.log s ++ [ev] |}).

Definition handle_error (e : exn) (context : string)
  : X MediaServices.TTSService unit :=
  emit (MediaServices.EvHandleError e context).

Definition _play_file_default (o : attempt) (path : string)
  : X MediaServices.TTSService unit :=
  except_Exception
    (emit (MediaServices.EvPopen path) ;;; external (launched o))
    (fun e => handle_error e "Audio playback").

Definition _generate_tts (o : attempt) (text filename voice : string)
  : X MediaServices.TTSService unit :=
  available <-- read MediaServices.edge_tts ;;;
  if available : bool
  then emit (MediaServices.EvGenerate text filename voice) ;;; external (saved o)
  else fail (Exception "Edge TTS not available").

(** The thread body [_runner] that [speak] starts. *)
Definition _runner (o : attempt) (text voice : string)
  : X MediaServices.TTSService unit :=
  update (MediaServices.set_tts_playing true) ;;;
  finally
    (except_Exception
       (_generate_tts o text "speech.mp3" voice ;;;
        _play_file_default o "speech.mp3")
       (fun e => handle_error e "TTS generation"))
    (emit (MediaServices.EvSleep
             (MediaServices._estimate_tts_duration text + (35 # 100))) ;;;
     update (MediaServices.set_tts_playing false)).

(** How the thread ends: normally, every exception of class [Exception]
    being handled, or with the exit signal that synthesis or the player let
    through. *)
Definition thread_end (o : attempt) (available : bool) : outcome unit :=
  if available
  then match saved o with
       | Exited b => Exited b
       | Failed _ => Finished tt
       | Finished _ =>
           match launched o with
           | Exited b => Exited b
           | _ => Finished tt
           end
       end
  else Finished tt.

End MediaServicesExits.

(** ** fast_tts.py: the worker over every exit *)

Module FastTTSExits.

Import Exits.
Local Open Scope exits_scope.

(** What the external calls of one worker pass do. *)
Record io : Type := {
  now : Q;
  generated : outcome FastTTS.bytes;
  pygame_played : outcome unit;
  fallback_played : outcome unit
}.

Section WithCallbacks.

(** [Env] is the rest of the process and [Callable] the completion callbacks
    that callers pass to [speak]. *)
Variables Env Callable : Type.

Record request : Type := {
  req_text : string;
  req_voice : string;
  req_rate : string;
  req_pitch : string;
  req_volume : string;
  req_callback : option Callable;
  req_timestamp : Q
}.

Record FastTTSService : Type := {
  is_available : bool;
  voice_queue : list request;
  is_speaking : bool;
  current_voice : string;
  rate : string;
  pitch : string;
  volume : string;
  trace : list FastTTS.event
}.

Definition set_voice_queue q (s : FastTTSService) :=
  {| is_available := is_available s; voice_queue := q;
     is_speaking := is_speaking s; current_voice := current_voice s;
     rate := rate s; pitch := pitch s; volume := volume s; trace := trace s |}.

Definition set_is_speaking b (s : FastTTSService) :=
  {| is_available := is_available s; voice_queue := voice_queue s;
     is_speaking := b; current_voice := current_voice s;
     rate := rate s; pitch := pitch s; volume := volume s; trace := trace s |}.

Definition set_trace t (s : FastTTSService) :=
  {| is_available := is_available s; voice_queue := voice_queue s;
     is_speaking := is_speaking s; current_voice := current_voice s;
     rate := rate s; pitch := pitch s; volume := volume s; trace := t |}.

Definition World : Type := (Env * FastTTSService)%type.

(** [call c] is the call [callback()]: the caller's code, which may use the
    process and, through the module's global instance, the service itself,
    and which may end in any way. *)
Variable call : Callable -> X World unit.

Definition self {A} (m : X FastTTSService A) : X World A :=
  within snd (fun s w => (fst w, s)) m.

Definition emit (ev : FastTTS.event) : X World unit :=
  self (update (fun s => set_trace (trace s ++ [ev]) s)).

(** [if callback: callback()] *)
Definition call_callback (callback : option Callable) : X World unit :=
  match callback with
  | Some c => emit FastTTS.EvCallback ;;; call c
  | None => done tt
  end.

Definition _generate_audio (o : io) (ssml : string)
  : X World (option FastTTS.bytes) :=
  except_Exception
    (emit (FastTTS.EvGenerate ssml) ;;;
     audio_data <-- external (generated o) ;;;
     done (Some audio_data))
    (fun e => emit (FastTTS.EvPrintError "Audio generation error" e) ;;;
              done None).

Definition _play_audio (o : io) (audio_data : FastTTS.bytes) : X World unit :=
  except_Exception
    (emit (FastTTS.EvPlay audio_data) ;;; external (pygame_played o))
    (fun e =>
       match e with
       | ImportError =>
           except_Exception
             (emit (FastTTS.EvPlayFallback audio_data) ;;;
              external (fallback_played o))
             (fun e' => emit (FastTTS.EvPrintError "Audio playback error" e'))
       | _ => emit (FastTTS.EvPrintError "Audio playback error" e)
       end).

Definition ssml_of (r : request) : string :=
  FastTTS.make_ssml (req_text r) (req_voice r) (req_rate r) (req_pitch r)
                    (req_volume r).

Definition _process_tts_request (o : io) (r : request) : X World unit :=
  except_Exception
    (audio_data <-- _generate_audio o (ssml_of r) ;;;
     match FastTTS.has_audio audio_data with
     | Some data => _play_audio o data
     | None => done tt
     end ;;;
     call_callback (req_callback r))
    (fun e => emit (FastTTS.EvPrintError "TTS processing error" e)).

(** [self.voice_queue.get(timeout=1)] *)
Definition queue_get : X World request :=
  q <-- self (read voice_queue) ;;;
  match q with
  | [] => fail queue_Empty
  | r :: rest => self (update (set_voice_queue rest)) ;;; done r
  end.

(** One pass of the [while True] loop of [_tts_worker].  [Finished tt]
    means the loop goes round again; any other outcome has left the [try]
    and the loop with it, and ends the thread. *)
Definition worker_pass (o : io) : X World unit :=
  except_Exception
    (r <-- queue_get ;;;
     if Qltb 5 (now o - req_timestamp r)
     then done tt
     else
       self (update (set_is_speaking true)) ;;;
       _process_tts_request o r ;;;
       self (update (set_is_speaking false)))
    (fun e =>
       match e with
       | queue_Empty => done tt
       | _ => emit (FastTTS.EvPrintError "TTS Worker error" e) ;;;
              self (update (set_is_speaking false))
       end).

(** The worker loop over the external outcomes of its first passes. *)
Fixpoint _tts_worker (os : list io) : X World unit :=
  match os with
  | [] => done tt
  | o :: rest => worker_pass o ;;; _tts_worker rest
  end.

Definition is_busy (s : FastTTSService) : bool :=
  is_speaking s || negb (match voice_queue s with [] => true | _ => false end).

(** *** Vocabulary for the statements *)

(** The request was put on the queue more than five seconds ago. *)
Definition stale (o : io) (r : request) : Prop :=
  (5 < now o - req_timestamp r)%Q.

(** How synthesis and playback of one request end, before the callback:
    normally, since each catches the exceptions of class [Exception] it
    meets, or with the exit signal one of them let through. *)
Definition synthesis_and_playback (o : io) : outcome unit :=
  match generated o with
  | Exited b => Exited b
  | Failed _ => Finished tt
  | Finished [] => Finished tt
  | Finished (_ :: _) =>
      match pygame_played o with
      | Exited b => Exited b
      | Failed ImportError =>
          match fallback_played o with
          | Exited b => Exited b
          | _ => Finished tt
          end
      | _ => Finished tt
      end
  end.

(** A pass in which synthesis and playback let no exit signal through. *)
Definition quiet (o : io) : Prop :=
  forall b, synthesis_and_playback o <> Exited b.

(** Callbacks that end by returning or with an exception of class
    [Exception], and leave the queue of the service as they found it. *)
Definition tame : Prop :=
  forall (c : Callable) (w : World),
    (forall b, fst (call c w) <> Exited b) /\
    voice_queue (snd (snd (call c w))) = voice_queue (snd w).

End WithCallbacks.

Arguments req_text {Callable} _.
Arguments req_voice {Callable} _.
Arguments req_rate {Callable} _.
Arguments req_pitch {Callable} _.
Arguments req_volume {Callable} _.
Arguments req_callback {Callable} _.
Arguments req_timestamp {Callable} _.
Arguments is_available {Callable} _.
Arguments voice_queue {Callable} _.
Arguments is_speaking {Callable} _.
Arguments current_voice {Callable} _.
Arguments rate {Callable} _.
Arguments pitch {Callable} _.
Arguments volume {Callable} _.
Arguments trace {Callable} _.
Arguments set_voice_queue {Callable} _ _.
Arguments set_is_speaking {Callable} _ _.
Arguments set_trace {Callable} _ _.
Arguments self {Env Callable A} _.
Arguments emit {Env Callable} _.
Arguments call_callback {Env Callable} _ _.
Arguments _generate_audio {Env Callable} _ _.
Arguments _play_audio {Env Callable} _ _.
Arguments ssml_of {Callable} _.
Arguments _process_tts_request {Env Callable} _ _ _.
Arguments queue_get {Env Callable}.
Arguments worker_pass {Env Callable} _ _.
Arguments _tts_worker {Env Callable} _ _.
Arguments is_busy {Callable} _.
Arguments stale {Callable} _ _.
Arguments tame {Env Callable} _.

(** *** The worker of [FastTTS] inside this one *)

(** The requests, services and outcomes of the module [FastTTS], whose
    callbacks act on the process alone and whose exceptions are all of class
    [Exception], read as requests, services and outcomes of this module. *)
Definition of_request {Env} (r : FastTTS.request Env)
  : request (FastTTS.Callback Env) :=
  {| req_text := FastTTS.req_text r; req_voice := FastTTS.req_voice r;
     req_rate := FastTTS.req_rate r; req_pitch := FastTTS.req_pitch r;
     req_volume := FastTTS.req_volume r;
     req_callback := FastTTS.req_callback r;
     req_timestamp := FastTTS.req_timestamp r |}.

Definition of_service {Env} (s : FastTTS.FastTTSService Env)
  : FastTTSService (FastTTS.Callback Env) :=
  {| is_available := FastTTS.is_available s;
     voice_queue := map of_request (FastTTS.voice_queue s);
     is_speaking := FastTTS.is_speaking s;
     current_voice := FastTTS.current_voice s;
     rate := FastTTS.rate s; pitch := FastTTS.pitch s;
     volume := FastTTS.volume s; trace := FastTTS.trace s |}.

Definition of_io (o : FastTTS.io) : io :=
  {| now := FastTTS.now o;
     generated := of_result (FastTTS.generated o);
     pygame_played := of_result (FastTTS.pygame_played o);
     fallback_played := of_result (FastTTS.fallback_played o) |}.

Definition on_process {Env} (c : FastTTS.Callback Env)
  : X (World Env (FastTTS.Callback Env)) unit :=
  fun w =>
    match c (fst w) with
    | (r, env') => (of_result r, (env', snd w))
    end.

Definition of_run {Env} (run : result unit * FastTTS.World Env)
  : outcome unit * World Env (FastTTS.Callback Env) :=
  (of_result (fst run), (fst (snd run), of_service (snd (snd run)))).

End FastTTSExits.

(** ** A decidable fragment of [re.search] for concrete runs *)

Module Re.

(** [p] is a prefix of [t], ASCII letters compared without case. *)
Fixpoint prefix_ci (p t : string) : bool :=
  match p, t with
  | EmptyString, _ => true
  | String _ _, EmptyString => false
  | String a p', String b t' =>
      Ascii.eqb (lower_char a) (lower_char b) && prefix_ci p' t'
  end.

Fixpoint contains_ci (p t : string) : bool :=
  prefix_ci p t ||
  match t with
  | EmptyString => false
  | String _ t' => contains_ci p t'
  end.

(** The characters the [re] syntax gives a meaning to. *)
Definition is_meta (c : ascii) : bool :=
  existsb (Ascii.eqb c)
    (list_ascii_of_string ".^$*+?{}[]\|()").

(** [re.search(p, text, re.IGNORECASE)] on a fragment of the patterns: one
    without special characters is searched for as a substring.  Of the
    others, the runs below use only patterns that open with a quantifier,
    which [re] rejects (nothing to repeat); the rest of the syntax is not
    interpreted and is reported as an error too. *)
Definition search (p text : string) : result bool :=
  if forallb (fun c => negb (is_meta c)) (list_ascii_of_string p)
  then Returned (contains_ci p text)
  else Raised re_error.

End Re.

(** ** Managers, queues and outcomes for concrete runs *)

Module Scenario.

Import VoiceCommands.

(** The builtin "play music" entry, fourth in insertion order. *)
Definition play_music_entry : VoiceCommand :=
  {| pattern := "play music|start music|music"; handler := "_handle_play_music";
     description := "Play music"; priority := NORMAL;
     requires_confirmation := false; category := "media" |}.

(** A plugin-style entry on a text a builtin entry answers too. *)
Definition custom_player : VoiceCommand :=
  {| pattern := "play music"; handler := "custom_player";
     description := "Play from the local library"; priority := LOW;
     requires_confirmation := false; category := "custom" |}.

Definition with_custom_player : VoiceCommandManager :=
  add_custom_command "play music" "custom_player"
    "Play from the local library" LOW false "custom" __init__.

(** A custom entry whose pattern [re] rejects. *)
Definition with_bad_pattern : VoiceCommandManager :=
  add_custom_command "*" "never_reached" "Malformed pattern" NORMAL false
    "custom" __init__.

Definition busy : VoiceCommandManager := set_is_processing true __init__.

Definition set_priority (p : CommandPriority) (c : VoiceCommand) : VoiceCommand :=
  {| pattern := pattern c; handler := handler c; description := description c;
     priority := p; requires_confirmation := requires_confirmation c;
     category := category c |}.

(** The default manager with every priority turned to [LOW]. *)
Definition all_low : VoiceCommandManager :=
  set_commands (map (fun e => (fst e, set_priority LOW (snd e))) (commands __init__))
    __init__.

(** A manager whose buffer is full. *)
Definition full_buffer : VoiceCommandManager :=
  set_response_times (repeat 1 100) __init__.

(** Handlers that all fail. *)
Definition failing_handlers (h : Callable) (text : string) : result unit :=
  Raised (Exception "handler failed").

(** 150 calls of the recorder, the i-th with latency i seconds. *)
Definition calls_150 : list (Q * Q) :=
  map (fun i => (0, inject_Z (Z.of_nat i))) (seq 1 150).

(** A queued utterance without callback, stamped at time 0. *)
Definition plain_request (Env : Type) : FastTTS.request Env :=
  {| FastTTS.req_text := "Switched to dark theme";
     FastTTS.req_voice := "en-US-AriaNeural";
     FastTTS.req_rate := "+50%"; FastTTS.req_pitch := "+0Hz";
     FastTTS.req_volume := "+0%"; FastTTS.req_callback := None;
     FastTTS.req_timestamp := 0 |}.

Definition queue_of {Env : Type} (q : list (FastTTS.request Env))
  : FastTTS.FastTTSService Env :=
  FastTTS.set_voice_queue q (FastTTS.__init__ Env true).

(** A pass at time [t] in which synthesis yields two bytes and the player
    plays them. *)
Definition pass_ok (t : Q) : FastTTS.io :=
  {| FastTTS.now := t;
     FastTTS.generated := Returned [Byte.x49; Byte.x44];
     FastTTS.pygame_played := Returned tt;
     FastTTS.fallback_played := Returned tt |}.

(** A pass at time [t] in which synthesis fails. *)
Definition pass_synthesis_fails (t : Q) : FastTTS.io :=
  {| FastTTS.now := t;
     FastTTS.generated := Raised (Exception "no network");
     FastTTS.pygame_played := Returned tt;
     FastTTS.fallback_played := Returned tt |}.

(** The application with the given flag and speech queue. *)
Definition app (tts_playing : bool)
    (queue : list (FastTTS.request MediaServices.TTSService)) : Rose.App :=
  {| Rose.tts_service :=
       MediaServices.set_tts_playing tts_playing (MediaServices.__init__ true);
     Rose.fast_tts := queue_of queue;
     Rose.transcribed := []; Rose.dispatched := []; Rose.errors := [] |}.

Definition hears_hello (audio : Rose.AudioData) : result string :=
  Returned "hello".

(** A custom command registered under the pattern of the builtin greeting. *)
Definition with_custom_greeting : VoiceCommandManager :=
  add_custom_command "hello|hi|hey|greetings" "friendly_greeting"
    "Greet warmly" NORMAL false "ai" __init__.

Definition custom_greeting : VoiceCommand :=
  {| pattern := "hello|hi|hey|greetings"; handler := "friendly_greeting";
     description := "Greet warmly"; priority := NORMAL;
     requires_confirmation := false; category := "ai" |}.

(** A custom pattern that ends in a bar. *)
Definition catch_all : VoiceCommand :=
  {| pattern := "volume up|"; handler := "louder";
     description := "Louder"; priority := NORMAL;
     requires_confirmation := false; category := "custom" |}.

Definition with_catch_all : VoiceCommandManager :=
  add_custom_command "volume up|" "louder" "Louder" NORMAL false "custom" __init__.

(** A manager with three samples. *)
Definition three_samples : VoiceCommandManager :=
  set_response_times [1; 3; 2] __init__.

(** A callback that counts its calls in a process that is a counter. *)
Definition counting_callback : FastTTS.Callback nat :=
  fun n => (Raised (Exception "callback failed"), S n).

(** Completion callbacks for the worker over every exit: one returns, one
    raises an exception of class [Exception], one calls [sys.exit()]. *)
Inductive example_callback : Type := Returns | RaisesError | CallsSysExit.

Definition example_call (c : example_callback)
  : Exits.X (FastTTSExits.World unit example_callback) unit :=
  fun w =>
    match c with
    | Returns => (Exits.Finished tt, w)
    | RaisesError => (Exits.Failed (Exception "callback failed"), w)
    | CallsSysExit => (Exits.Exited Exits.SystemExit, w)
    end.

Definition utterance {Callable : Type} (text : string)
    (callback : option Callable) (stamp : Q) : FastTTSExits.request Callable :=
  {| FastTTSExits.req_text := text;
     FastTTSExits.req_voice := "en-US-AriaNeural";
     FastTTSExits.req_rate := "+0%"; FastTTSExits.req_pitch := "+0Hz";
     FastTTSExits.req_volume := "+0%";
     FastTTSExits.req_callback := callback;
     FastTTSExits.req_timestamp := stamp |}.

(** An idle service with the given requests waiting. *)
Definition waiting {Callable : Type} (queue : list (FastTTSExits.request Callable))
  : FastTTSExits.FastTTSService Callable :=
  {| FastTTSExits.is_available := true; FastTTSExits.voice_queue := queue;
     FastTTSExits.is_speaking := false;
     FastTTSExits.current_voice := "en-US-AriaNeural";
     FastTTSExits.rate := "+0%"; FastTTSExits.pitch := "+0Hz";
     FastTTSExits.volume := "+0%"; FastTTSExits.trace := [] |}.

(** Callbacks that return ([true]) or raise an exception of class
    [Exception] ([false]), and touch nothing. *)
Definition polite_call (c : bool)
  : Exits.X (FastTTSExits.World unit bool) unit :=
  fun w => if c then (Exits.Finished tt, w)
           else (Exits.Failed (Exception "callback failed"), w).

(** A pass at time [t] in which synthesis works and the player fails. *)
Definition playback_errors (t : Q) : FastTTSExits.io :=
  {| FastTTSExits.now := t;
     FastTTSExits.generated := Exits.Finished [Byte.x49; Byte.x44];
     FastTTSExits.pygame_played := Exits.Failed (Exception "no audio device");
     FastTTSExits.fallback_played := Exits.Finished tt |}.

(** A pass at time [t] in which synthesis and the player work. *)
Definition synthesis_works (t : Q) : FastTTSExits.io :=
  {| FastTTSExits.now := t;
     FastTTSExits.generated := Exits.Finished [Byte.x49; Byte.x44];
     FastTTSExits.pygame_played := Exits.Finished tt;
     FastTTSExits.fallback_played := Exits.Finished tt |}.

(** A pass at time [t] in which synthesis fails with an exception of class
    [Exception]. *)
Definition synthesis_errors (t : Q) : FastTTSExits.io :=
  {| FastTTSExits.now := t;
     FastTTSExits.generated := Exits.Failed (Exception "no network");
     FastTTSExits.pygame_played := Exits.Finished tt;
     FastTTSExits.fallback_played := Exits.Finished tt |}.

(** A pass at time [t] in which the synthesis task is cancelled. *)
Definition synthesis_cancelled (t : Q) : FastTTSExits.io :=
  {| FastTTSExits.now := t;
     FastTTSExits.generated := Exits.Exited Exits.CancelledError;
     FastTTSExits.pygame_played := Exits.Finished tt;
     FastTTSExits.fallback_played := Exits.Finished tt |}.

(** An utterance of [TTSService] whose synthesis task is cancelled. *)
Definition saving_cancelled : MediaServicesExits.attempt :=
  {| MediaServicesExits.saved := Exits.Exited Exits.CancelledError;
     MediaServicesExits.launched := Exits.Finished tt |}.

End Scenario.

(** * Properties *)

Local Open Scope list_scope.

(** ** The Python primitives on small inputs *)

Example split_keeps_empty_fields :
  split "|" "hello|hi|" = ["hello"; "hi"; ""].
Proof. reflexivity. Qed.

Example split_of_empty : split "|" "" = [""].
Proof. reflexivity. Qed.

Example strip_both_ends : strip "  Play  Music  " = "Play  Music".
Proof. reflexivity. Qed.

Example lower_ascii : lower "Hi There, 42!" = "hi there, 42!".
Proof. reflexivity. Qed.

Example split_ws_runs : split_ws "  switched  to dark theme " =
                        ["switched"; "to"; "dark"; "theme"].
Proof. reflexivity. Qed.

Example slice_last_short : slice_last 3 [1; 2]%nat = [1; 2]%nat.
Proof. reflexivity. Qed.

Example slice_last_long : slice_last 3 [1; 2; 3; 4; 5]%nat = [3; 4; 5]%nat.
Proof. reflexivity. Qed.

Example dict_set_keeps_position :
  dict_set "b" 9%nat [("a", 1%nat); ("b", 2%nat); ("c", 3%nat)]
  = [("a", 1%nat); ("b", 9%nat); ("c", 3%nat)].
Proof. reflexivity. Qed.

Example estimate_short_text :
  MediaServices._estimate_tts_duration "Hello" == 6 # 10.
Proof. vm_compute. reflexivity. Qed.

Example estimate_long_text :
  MediaServices._estimate_tts_duration "one two three four five six seven" == 5 # 2.
Proof. vm_compute. reflexivity. Qed.

Example default_registry_order :
  map fst (VoiceCommands.commands VoiceCommands.__init__)
  = ["close|exit|quit|shutdown"; "minimize|min|hide"; "maximize|max|fullscreen";
     "play music|start music|music"; "stop music|pause music|stop";
     "volume up|louder|increase volume"; "volume down|quieter|decrease volume";
     "hello|hi|hey|greetings"; "what time|current time|time";
     "what date|current date|date"; "help|commands|what can you do";
     "list commands|show commands"].
Proof. reflexivity. Qed.

(** ** Dispatch: [VoiceCommandManager.process_voice_input] *)

Section DispatchFacts.

Import VoiceCommands.

Variable re_search : string -> string -> result bool.


Lemma after_hit_fields :
  forall c text start now m,
    started (after_hit c text start now m)
      = (started m ++ [(handler c, text)])%list /\
    response_times (after_hit c text start now m)
      = push_sample (now - start) (response_times m) /\
    is_processing (after_hit c text start now m) = is_processing m /\
    command_history (after_hit c text start now m) = command_history m /\
    commands (after_hit c text start now m) = commands m /\
    custom_commands (after_hit c text start now m) = custom_commands m.
Proof.
  intros c text start now m.
  unfold after_hit, _execute_command, _record_response_time, push_sample,
    try_except, bind, modify, gets, ret.
  destruct (requires_confirmation c); cbn [snd fst];
    cbn [response_times set_response_times set_started started];
    destruct (100 <? List.length (response_times m ++ [(now - start)%Q]))%nat;
    cbn; repeat split.
Qed.

Lemma hit_runs :
  forall c text start now m,
    (_execute_command c text ;;
     _record_response_time now start ;;
     ret true) m
    = (Returned true, after_hit c text start now m).
Proof.
  intros c text start now m.
  unfold after_hit, _execute_command, _record_response_time,
    try_except, bind, modify, gets, ret.
  destruct (requires_confirmation c); cbn [snd fst];
    cbn [response_times set_response_times set_started started];
    destruct (100 <? List.length (response_times m ++ [(now - start)%Q]))%nat;
    reflexivity.
Qed.

(** The loop does what its control skeleton says. *)
Lemma scan_select :
  forall items text start now m,
    scan re_search items text start now m =
    match select re_search items text with
    | Returned (Some (_, c)) => (Returned true, after_hit c text start now m)
    | Returned None => (Returned false, m)
    | Raised e => (Raised e, m)
    end.
Proof.
  induction items as [| [k c] rest IH]; intros text start now m.
  - reflexivity.
  - cbn [scan select].
    unfold bind at 1, lift.
    destruct (_match_pattern re_search k text) as [[|]|e].
    + apply hit_runs.
    + apply IH.
    + reflexivity.
Qed.

Lemma select_app :
  forall a b text,
    select re_search (a ++ b) text =
    match select re_search a text with
    | Returned None => select re_search b text
    | r => r
    end.
Proof.
  induction a as [| [k c] rest IH]; intros b text.
  - reflexivity.
  - cbn [app select].
    destruct (_match_pattern re_search k text) as [[|]|e]; auto.
Qed.

Lemma rejected_while_processing :
  forall start now text m,
    is_processing m = true ->
    process_voice_input re_search start now text m = (Returned false, m).
Proof.
  intros start now text m H.
  unfold process_voice_input, bind, gets.
  rewrite H. reflexivity.
Qed.

(** An accepted call, in one equation. *)
Lemma accepted_call :
  forall start now text m,
    is_processing m = false ->
    process_voice_input re_search start now text m =
    match select re_search (custom_commands m ++ commands m) (normalize text) with
    | Returned (Some (_, c)) =>
        (Returned true,
         set_is_processing false
           (after_hit c (normalize text) start now (entered text m)))
    | Returned None => (Returned false, set_is_processing false (entered text m))
    | Raised e => (Raised e, set_is_processing false (entered text m))
    end.
Proof.
  intros start now text m H.
  unfold process_voice_input.
  unfold bind at 1, gets at 1. rewrite H.
  unfold bind at 1, modify at 1.
  unfold try_finally.
  unfold bind at 1, modify at 1.
  unfold bind at 1, gets at 1.
  cbn [custom_commands set_command_history set_is_processing].
  fold (normalize text).
  unfold bind at 1.
  rewrite scan_select, select_app.
  change (set_command_history (command_history (set_is_processing true m) ++ [normalize text])
            (set_is_processing true m)) with (entered text m).
  destruct (select re_search (custom_commands m) (normalize text)) as [[[k c]|]|e].
  - reflexivity.
  - unfold bind at 1, gets at 1.
    unfold bind at 1.
    rewrite scan_select.
    cbn [commands entered set_command_history set_is_processing].
    destruct (select re_search (commands m) (normalize text)) as [[[k c]|]|e];
      reflexivity.
  - reflexivity.
Qed.

(** *** Alternatives of one pattern *)

Lemma any_search_none :
  forall ps text,
    Forall (fun p => exists b, re_search (strip p) text = Returned b) ps ->
    ~ Exists (fun p => re_search (strip p) text = Returned true) ps ->
    any_search re_search ps text = Returned false.
Proof.
  induction ps as [| p ps IH]; intros text Hwf Hno.
  - reflexivity.
  - inversion Hwf as [| ? ? [b Hb] Hrest]; subst.
    cbn [any_search]. rewrite Hb.
    destruct b.
    + exfalso. apply Hno. left. exact Hb.
    + apply IH; [exact Hrest |].
      intro Hex. apply Hno. right. exact Hex.
Qed.

Lemma any_search_some :
  forall ps text,
    Forall (fun p => exists b, re_search (strip p) text = Returned b) ps ->
    Exists (fun p => re_search (strip p) text = Returned true) ps ->
    any_search re_search ps text = Returned true.
Proof.
  induction ps as [| p ps IH]; intros text Hwf Hex.
  - inversion Hex.
  - inversion Hwf as [| ? ? [b Hb] Hrest]; subst.
    cbn [any_search]. rewrite Hb.
    destruct b; [reflexivity |].
    apply IH; [exact Hrest |].
    inversion Hex as [? ? Hp | ? ? Hps]; subst; [congruence | exact Hps].
Qed.

Lemma match_pattern_miss :
  forall k text,
    well_formed re_search k text -> ~ matches re_search k text ->
    _match_pattern re_search k text = Returned false.
Proof. intros k text. apply any_search_none. Qed.

Lemma match_pattern_hit :
  forall k text,
    well_formed re_search k text -> matches re_search k text ->
    _match_pattern re_search k text = Returned true.
Proof. intros k text. apply any_search_some. Qed.

Lemma matchesb_true :
  forall k text, matchesb re_search k text = true -> matches re_search k text.
Proof.
  intros k text H. unfold matchesb in H. unfold matches.
  apply existsb_exists in H. destruct H as [p [Hin Hp]].
  apply Exists_exists. exists p. split; [exact Hin |].
  destruct (re_search (strip p) text) as [[|]|e]; congruence.
Qed.

Lemma matchesb_false :
  forall k text, matchesb re_search k text = false -> ~ matches re_search k text.
Proof.
  intros k text H Hm. unfold matches in Hm.
  apply Exists_exists in Hm. destruct Hm as [p [Hin Hp]].
  assert (matchesb re_search k text = true) as Ht.
  { unfold matchesb. apply existsb_exists. exists p. rewrite Hp. auto. }
  congruence.
Qed.

Lemma well_formedb_true :
  forall k text, well_formedb re_search k text = true -> well_formed re_search k text.
Proof.
  intros k text H. unfold well_formedb in H. unfold well_formed.
  rewrite forallb_forall in H. apply Forall_forall. intros p Hin.
  specialize (H p Hin).
  destruct (re_search (strip p) text) as [b|e]; [eauto | discriminate].
Qed.

(** *** The first entry that matches *)

Lemma select_first :
  forall pre k c post text,
    Forall (fun e => _match_pattern re_search (fst e) text = Returned false) pre ->
    _match_pattern re_search k text = Returned true ->
    select re_search (pre ++ (k, c) :: post) text = Returned (Some (k, c)).
Proof.
  induction pre as [| [k' c'] pre IH]; intros k c post text Hpre Hk.
  - cbn [app select]. rewrite Hk. reflexivity.
  - inversion Hpre as [| ? ? Hk' Hrest]; subst. cbn [fst] in Hk'.
    cbn [app select]. rewrite Hk'. apply IH; assumption.
Qed.

Lemma select_none :
  forall items text,
    Forall (fun e => _match_pattern re_search (fst e) text = Returned false) items ->
    select re_search items text = Returned None.
Proof.
  induction items as [| [k c] items IH]; intros text H.
  - reflexivity.
  - inversion H as [| ? ? Hk Hrest]; subst. cbn [fst] in Hk.
    cbn [select]. rewrite Hk. apply IH. exact Hrest.
Qed.

(** What [select] returns is an entry of the list, the first whose pattern
    the code finds matching. *)
Lemma select_some_inv :
  forall items text k c,
    select re_search items text = Returned (Some (k, c)) ->
    exists pre post,
      items = pre ++ (k, c) :: post /\
      Forall (fun e => _match_pattern re_search (fst e) text = Returned false) pre /\
      _match_pattern re_search k text = Returned true.
Proof.
  induction items as [| [k' c'] items IH]; intros text k c H.
  - discriminate.
  - cbn [select] in H.
    destruct (_match_pattern re_search k' text) as [[|]|e] eqn:E.
    + inversion H; subst. exists [], items. repeat split; auto.
    + destruct (IH _ _ _ H) as [pre [post [Hitems [Hpre Hk]]]].
      exists ((k', c') :: pre), post. subst items. repeat split; auto.
    + discriminate.
Qed.

Lemma select_none_inv :
  forall items text,
    select re_search items text = Returned None ->
    Forall (fun e => _match_pattern re_search (fst e) text = Returned false) items.
Proof.
  induction items as [| [k c] items IH]; intros text H.
  - constructor.
  - cbn [select] in H.
    destruct (_match_pattern re_search k text) as [[|]|e] eqn:E; try discriminate.
    constructor; [exact E | apply IH; exact H].
Qed.

Lemma match_pattern_total :
  forall k text,
    well_formed re_search k text ->
    exists b, _match_pattern re_search k text = Returned b.
Proof.
  intros k text. unfold well_formed, _match_pattern.
  induction (split "|" k) as [| p ps IH]; intro Hwf.
  - exists false. reflexivity.
  - inversion Hwf as [| ? ? [b Hb] Hrest]; subst.
    cbn [any_search]. rewrite Hb. destruct b; [exists true; reflexivity |].
    apply IH. exact Hrest.
Qed.

Lemma match_pattern_true_matches :
  forall k text,
    _match_pattern re_search k text = Returned true -> matches re_search k text.
Proof.
  intros k text. unfold matches, _match_pattern.
  induction (split "|" k) as [| p ps IH]; intro H.
  - discriminate.
  - cbn [any_search] in H.
    destruct (re_search (strip p) text) as [[|]|e] eqn:E; try discriminate.
    + left. exact E.
    + right. apply IH. exact H.
Qed.

Lemma match_pattern_false_no_match :
  forall k text,
    _match_pattern re_search k text = Returned false -> ~ matches re_search k text.
Proof.
  intros k text. unfold matches, _match_pattern.
  induction (split "|" k) as [| p ps IH]; intros H Hex.
  - inversion Hex.
  - cbn [any_search] in H.
    destruct (re_search (strip p) text) as [[|]|e] eqn:E; try discriminate.
    inversion Hex as [? ? Hp | ? ? Hps]; subst; [congruence |].
    exact (IH H Hps).
Qed.

Lemma select_total :
  forall items text,
    Forall (fun e => well_formed re_search (fst e) text) items ->
    exists r, select re_search items text = Returned r.
Proof.
  induction items as [| [k c] items IH]; intros text H.
  - exists None. reflexivity.
  - inversion H as [| ? ? Hk Hrest]; subst. cbn [fst] in Hk.
    destruct (match_pattern_total _ _ Hk) as [b Hb].
    cbn [select]. rewrite Hb. destruct b; [eauto | apply IH; exact Hrest].
Qed.

(** C2. First match wins.  On an accepted call the entries are tried in
    the order custom mapping, then builtin mapping, each in insertion
    order.  If [(k, c)] is the first entry one of whose alternatives
    matches the normalized text, the call returns [True] and starts exactly
    one thread, for [c]'s handler on that text.  Nothing is asked of the
    entries after it, nor of any [priority]: they are never looked at. *)
Theorem first_match_wins :
  forall start now text m pre k c post,
    is_processing m = false ->
    custom_commands m ++ commands m = pre ++ (k, c) :: post ->
    Forall (fun e => well_formed re_search (fst e) (normalize text) /\
                     ~ matches re_search (fst e) (normalize text)) pre ->
    well_formed re_search k (normalize text) ->
    matches re_search k (normalize text) ->
    exists m',
      process_voice_input re_search start now text m = (Returned true, m') /\
      started m' = started m ++ [(handler c, normalize text)].
Proof.
  intros start now text m pre k c post Hfree Hsplit Hpre Hwf Hk.
  rewrite (accepted_call start now text m Hfree), Hsplit.
  rewrite (select_first pre k c post (normalize text)).
  - eexists. split; [reflexivity |].
    cbn [started set_is_processing].
    destruct (after_hit_fields c (normalize text) start now (entered text m))
      as [Hs _].
    rewrite Hs. reflexivity.
  - eapply Forall_impl; [| exact Hpre].
    intros e [He1 He2]. apply match_pattern_miss; assumption.
  - apply match_pattern_hit; assumption.
Qed.

(** C3. Custom precedence.  When some custom entry and some builtin entry
    both match the text, and the custom patterns are all well formed, the
    call returns [True] and the one thread it starts runs the handler of a
    custom entry: the first custom entry that matches, which is the given
    one when no other custom entry matches.  The builtin mapping is not
    reached. *)
Theorem custom_before_builtin :
  forall start now text m kc cc kb cb,
    is_processing m = false ->
    In (kc, cc) (custom_commands m) ->
    matches re_search kc (normalize text) ->
    In (kb, cb) (commands m) ->
    matches re_search kb (normalize text) ->
    Forall (fun e => well_formed re_search (fst e) (normalize text))
           (custom_commands m) ->
    exists m' pre k c post,
      custom_commands m = pre ++ (k, c) :: post /\
      Forall (fun e => ~ matches re_search (fst e) (normalize text)) pre /\
      matches re_search k (normalize text) /\
      process_voice_input re_search start now text m = (Returned true, m') /\
      started m' = started m ++ [(handler c, normalize text)] /\
      ((forall e, In e (custom_commands m) ->
                  matches re_search (fst e) (normalize text) -> e = (kc, cc)) ->
       c = cc).
Proof.
  intros start now text m kc cc kb cb Hfree Hin Hm _ _ Hwf.
  destruct (select_total _ _ Hwf) as [r Hr].
  destruct r as [[k c] |].
  - destruct (select_some_inv _ _ _ _ Hr) as [pre [post [Hsplit [Hpre Hk]]]].
    exists (set_is_processing false
              (after_hit c (normalize text) start now (entered text m))),
           pre, k, c, post.
    split; [exact Hsplit |].
    split.
    { eapply Forall_impl; [| exact Hpre].
      intros e He. apply match_pattern_false_no_match. exact He. }
    split; [apply match_pattern_true_matches; exact Hk |].
    split.
    { rewrite (accepted_call start now text m Hfree), select_app, Hr.
      reflexivity. }
    split.
    { cbn [started set_is_processing].
      destruct (after_hit_fields c (normalize text) start now (entered text m))
        as [Hs _].
      rewrite Hs. reflexivity. }
    intro Huniq.
    assert ((k, c) = (kc, cc)) as E.
    { apply Huniq.
      - rewrite Hsplit. apply in_or_app. right. left. reflexivity.
      - apply match_pattern_true_matches. exact Hk. }
    congruence.
  - exfalso.
    pose proof (select_none_inv _ _ Hr) as Hnone.
    rewrite Forall_forall in Hnone.
    specialize (Hnone _ Hin). cbn [fst] in Hnone.
    exact (match_pattern_false_no_match _ _ Hnone Hm).
Qed.

(** *** The guard *)

Lemma accepted_when_free :
  forall start now text m,
    is_processing m = false -> accepted re_search start now text m.
Proof.
  intros start now text m Hfree. unfold accepted.
  rewrite (accepted_call start now text m Hfree).
  destruct (select re_search (custom_commands m ++ commands m) (normalize text))
    as [[[k c]|]|e]; cbn [snd command_history set_is_processing].
  - destruct (after_hit_fields c (normalize text) start now (entered text m))
      as [_ [_ [_ [Hh _]]]].
    rewrite Hh. reflexivity.
  - reflexivity.
  - reflexivity.
Qed.

Lemma guard_clear_on_return :
  forall start now text m,
    is_processing m = false ->
    is_processing (snd (process_voice_input re_search start now text m)) = false.
Proof.
  intros start now text m Hfree.
  rewrite (accepted_call start now text m Hfree).
  destruct (select re_search (custom_commands m ++ commands m) (normalize text))
    as [[[k c]|]|e]; reflexivity.
Qed.

(** A handler thread, whatever its handler does, leaves the manager as it
    is: the exception of a handler ends with its thread. *)
Lemma threads_leave_manager :
  forall behaviour ts m,
    threads_run behaviour ts m = (Returned tt, m).
Proof.
  induction ts as [| t ts IH]; intro m.
  - reflexivity.
  - cbn [threads_run]. unfold bind, thread_run, try_except, lift, ret.
    destruct (behaviour (fst t) (snd t)) as [[]|e]; apply IH.
Qed.

(** C6. The [is_processing] guard.  A call made while the guard is set
    returns [False] and changes nothing: no text is logged, no pattern is
    tried, no thread is started.  A call made while it is clear leaves it
    clear on every exit, whether it returns [True], returns [False] or
    lets the exception of a malformed pattern through; the threads it
    started cannot set it again, whatever their handlers do, and so the
    next call is accepted. *)
Theorem guard_released_on_every_exit :
  forall behaviour start now text m,
    (is_processing m = true ->
       process_voice_input re_search start now text m = (Returned false, m)) /\
    (is_processing m = false ->
       forall r m',
         process_voice_input re_search start now text m = (r, m') ->
         is_processing m' = false /\
         threads_run behaviour (started m') m' = (Returned tt, m') /\
         forall start2 now2 text2, accepted re_search start2 now2 text2 m').
Proof.
  intros behaviour start now text m. split.
  - apply rejected_while_processing.
  - intros Hfree r m' Hrun.
    assert (is_processing m' = false) as Hclear.
    { pose proof (guard_clear_on_return start now text m Hfree) as H.
      rewrite Hrun in H. exact H. }
    split; [exact Hclear |].
    split; [apply threads_leave_manager |].
    intros start2 now2 text2. apply accepted_when_free. exact Hclear.
Qed.

(** *** The response-time buffer *)

Lemma slice_last_length :
  forall (A : Type) (n : nat) (l : list A),
    List.length (slice_last n l) = Nat.min (List.length l) n.
Proof.
  intros A n l. unfold slice_last. rewrite length_skipn. lia.
Qed.

Lemma push_sample_length :
  forall x buffer,
    List.length (push_sample x buffer) = Nat.min (S (List.length buffer)) 100.
Proof.
  intros x buffer. unfold push_sample.
  destruct (100 <? List.length (buffer ++ [x]))%nat eqn:E.
  - rewrite slice_last_length, length_app. cbn [List.length].
    apply Nat.ltb_lt in E. rewrite length_app in E. cbn [List.length] in E. lia.
  - apply Nat.ltb_ge in E. rewrite length_app in *. cbn [List.length] in *. lia.
Qed.

(** C7, as the code has it.  An accepted call that finds a match (returns
    [True]) appends the sample [now - start] to [response_times] and keeps
    the last 100 elements, so the buffer's length becomes
    [min (old length + 1) 100].  An accepted call that finds no match, or
    that raises, leaves [response_times] as it was. *)
Theorem sample_recorded_on_match_only :
  forall start now text m r m',
    is_processing m = false ->
    process_voice_input re_search start now text m = (r, m') ->
    (r = Returned true ->
       response_times m' = push_sample (now - start) (response_times m) /\
       List.length (response_times m')
         = Nat.min (S (List.length (response_times m))) 100) /\
    (r <> Returned true -> response_times m' = response_times m).
Proof.
  intros start now text m r m' Hfree Hrun.
  rewrite (accepted_call start now text m Hfree) in Hrun.
  destruct (select re_search (custom_commands m ++ commands m) (normalize text))
    as [[[k c]|]|e]; inversion Hrun; subst; clear Hrun.
  - split; [intros _ | intro H; congruence].
    cbn [response_times set_is_processing].
    destruct (after_hit_fields c (normalize text) start now (entered text m))
      as [_ [Hr _]].
    rewrite Hr. cbn [response_times entered set_command_history set_is_processing].
    split; [reflexivity | apply push_sample_length].
  - split; [intro H; discriminate | intros _; reflexivity].
  - split; [intro H; discriminate | intros _; reflexivity].
Qed.

(** *** Priorities *)

Lemma forget_priority_handler :
  forall c1 c2,
    forget_priority c1 = forget_priority c2 -> handler c1 = handler c2.
Proof.
  intros c1 c2 H.
  change (handler (forget_priority c1) = handler (forget_priority c2)).
  rewrite H. reflexivity.
Qed.

Lemma forget_priorities_app :
  forall d1 d2,
    forget_priorities (d1 ++ d2) = forget_priorities d1 ++ forget_priorities d2.
Proof. intros d1 d2. apply map_app. Qed.

Lemma select_blind :
  forall d1 d2 text,
    forget_priorities d1 = forget_priorities d2 ->
    same_selection (select re_search d1 text) (select re_search d2 text).
Proof.
  induction d1 as [| [k1 c1] d1 IH]; intros [| [k2 c2] d2] text H;
    try discriminate.
  - exact I.
  - cbn [forget_priorities map fst snd] in H.
    remember (forget_priority c1) as f1 eqn:E1.
    remember (forget_priority c2) as f2 eqn:E2.
    injection H as Hk Hc Hrest. subst k2 f1 f2.
    cbn [select].
    destruct (_match_pattern re_search k1 text) as [[|]|e].
    + cbn. split; [reflexivity | exact Hc].
    + apply IH. exact Hrest.
    + reflexivity.
Qed.

(** C9. The [priority] field takes no part in dispatch.  For two managers
    that agree on everything but the priorities of their entries, a call
    with the same text and clock readings stops at the same entry (or at
    none, or at the same exception), returns the same result, starts the
    same thread and leaves two managers that again agree on everything but
    priorities. *)
Theorem priority_is_ignored :
  forall start now text m1 m2,
    same_but_priority m1 m2 ->
    same_selection
      (select re_search (custom_commands m1 ++ commands m1) (normalize text))
      (select re_search (custom_commands m2 ++ commands m2) (normalize text)) /\
    fst (process_voice_input re_search start now text m1)
      = fst (process_voice_input re_search start now text m2) /\
    same_but_priority
      (snd (process_voice_input re_search start now text m1))
      (snd (process_voice_input re_search start now text m2)).
Proof.
  intros start now text m1 m2 [Hc [Hcc [Hh [Hp [Hr Hs]]]]].
  assert (same_selection
            (select re_search (custom_commands m1 ++ commands m1) (normalize text))
            (select re_search (custom_commands m2 ++ commands m2) (normalize text)))
    as Hsel.
  { apply select_blind. rewrite !forget_priorities_app. congruence. }
  split; [exact Hsel |].
  destruct (is_processing m1) eqn:E1.
  - rewrite (rejected_while_processing start now text m1 E1).
    rewrite (rejected_while_processing start now text m2) by congruence.
    split; [reflexivity |].
    cbn [snd]. unfold same_but_priority. rewrite E1. repeat split; congruence.
  - rewrite (accepted_call start now text m1 E1).
    rewrite (accepted_call start now text m2) by congruence.
    destruct (select re_search (custom_commands m1 ++ commands m1) (normalize text))
      as [[[k1 c1]|]|e1];
      destruct (select re_search (custom_commands m2 ++ commands m2) (normalize text))
      as [[[k2 c2]|]|e2];
      cbn in Hsel; try contradiction.
    + destruct Hsel as [_ Hc12].
      apply forget_priority_handler in Hc12.
      split; [reflexivity |].
      cbn [snd]. unfold same_but_priority.
      cbn [commands custom_commands command_history is_processing
             response_times started set_is_processing].
      destruct (after_hit_fields c1 (normalize text) start now (entered text m1))
        as [A1 [A2 [A3 [A4 [A5 A6]]]]].
      destruct (after_hit_fields c2 (normalize text) start now (entered text m2))
        as [B1 [B2 [B3 [B4 [B5 B6]]]]].
      rewrite A1, A2, A4, A5, A6, B1, B2, B4, B5, B6.
      cbn [commands custom_commands command_history response_times started
             entered set_command_history set_is_processing].
      rewrite Hc12. repeat split; congruence.
    + split; [reflexivity |].
      cbn [snd]. unfold same_but_priority.
      cbn [commands custom_commands command_history is_processing
             response_times started entered set_command_history set_is_processing].
      repeat split; congruence.
    + subst e2. split; [reflexivity |].
      cbn [snd]. unfold same_but_priority.
      cbn [commands custom_commands command_history is_processing
             response_times started entered set_command_history set_is_processing].
      repeat split; congruence.
Qed.

End DispatchFacts.

(** ** Metrics: the response-time buffer and its average *)

Section MetricsFacts.

Import VoiceCommands.

Lemma record_response_time_run :
  forall now start m,
    _record_response_time now start m
    = (Returned tt,
       set_response_times (push_sample (now - start) (response_times m)) m).
Proof.
  intros now start m.
  unfold _record_response_time, push_sample, bind, modify, gets, ret.
  cbn [response_times set_response_times].
  destruct (100 <? List.length (response_times m ++ [(now - start)%Q]))%nat;
    destruct m; reflexivity.
Qed.

Lemma push_sample_slice :
  forall x buffer, push_sample x buffer = slice_last 100 (buffer ++ [x]).
Proof.
  intros x buffer. unfold push_sample.
  destruct (100 <? List.length (buffer ++ [x]))%nat eqn:E; [reflexivity |].
  apply Nat.ltb_ge in E. unfold slice_last.
  replace (List.length (buffer ++ [x]) - 100)%nat with 0%nat by lia.
  reflexivity.
Qed.

(** Cutting to the last [n] elements early changes nothing later. *)
Lemma slice_last_app :
  forall (A : Type) (n : nat) (l r : list A),
    slice_last n (slice_last n l ++ r) = slice_last n (l ++ r).
Proof.
  intros A n l r. unfold slice_last.
  destruct (Nat.le_gt_cases (List.length l) n) as [Hle | Hgt].
  - replace (List.length l - n)%nat with 0%nat by lia. reflexivity.
  - rewrite !length_app, length_skipn.
    rewrite !skipn_app, length_skipn, skipn_skipn.
    f_equal.
    + f_equal. lia.
    + f_equal. lia.
Qed.

Lemma record_all_run :
  forall calls m,
    record_all calls m
    = (Returned tt,
       set_response_times
         (fold_left (fun b c => push_sample (latency c) b) calls (response_times m))
         m).
Proof.
  induction calls as [| [start now] calls IH]; intro m.
  - destruct m; reflexivity.
  - cbn [record_all fold_left]. unfold bind at 1.
    rewrite record_response_time_run, IH.
    destruct m; reflexivity.
Qed.

Lemma push_all_slice :
  forall calls buffer,
    (List.length buffer <= 100)%nat ->
    fold_left (fun b c => push_sample (latency c) b) calls buffer
    = slice_last 100 (buffer ++ map latency calls).
Proof.
  induction calls as [| c calls IH]; intros buffer Hlen.
  - cbn [fold_left map]. rewrite app_nil_r. unfold slice_last.
    replace (List.length buffer - 100)%nat with 0%nat by lia. reflexivity.
  - cbn [fold_left map].
    rewrite IH.
    + rewrite push_sample_slice, slice_last_app, <- app_assoc. reflexivity.
    + rewrite push_sample_slice, slice_last_length. lia.
Qed.

Lemma sum_left_right :
  forall (l : list Q) (a : Q),
    fold_left Qplus l a == a + fold_right Qplus 0 l.
Proof.
  induction l as [| x l IH]; intro a.
  - cbn. ring.
  - cbn [fold_left fold_right]. rewrite IH. ring.
Qed.

Lemma average_is_mean :
  forall m, get_average_response_time m == mean (response_times m).
Proof.
  intro m. unfold get_average_response_time, mean.
  destruct (response_times m) as [| x l] eqn:E.
  - reflexivity.
  - rewrite sum_left_right. rewrite Qplus_0_l. reflexivity.
Qed.

(** C8. The metrics window.  Starting from a buffer of at most 100
    samples, after any sequence of recordings the buffer holds the last
    100 of the old samples followed by the new latencies, oldest first, so
    never more than 100; the average is the arithmetic mean of what the
    buffer holds, and 0 when nothing was ever recorded.  After 150
    recordings into an empty buffer the buffer is the last 100 latencies,
    and the average is their mean. *)
Theorem metrics_keep_last_hundred :
  forall calls m,
    (List.length (response_times m) <= 100)%nat ->
    let m' := snd (record_all calls m) in
    response_times m'
      = slice_last 100 (response_times m ++ map latency calls) /\
    (List.length (response_times m') <= 100)%nat /\
    get_average_response_time m' == mean (response_times m') /\
    (response_times m = [] -> calls = [] -> get_average_response_time m' = 0) /\
    (response_times m = [] -> List.length calls = 150%nat ->
       response_times m' = skipn 50 (map latency calls) /\
       List.length (response_times m') = 100%nat /\
       get_average_response_time m' == mean (skipn 50 (map latency calls))).
Proof.
  intros calls m Hlen m'.
  assert (response_times m'
          = slice_last 100 (response_times m ++ map latency calls)) as Hbuf.
  { subst m'. rewrite record_all_run. cbn [snd response_times set_response_times].
    apply push_all_slice. exact Hlen. }
  split; [exact Hbuf |].
  split; [rewrite Hbuf, slice_last_length; lia |].
  split; [apply average_is_mean |].
  split.
  - intros Hempty Hnone. unfold get_average_response_time.
    rewrite Hbuf, Hempty, Hnone. reflexivity.
  - intros Hempty H150.
    assert (response_times m' = skipn 50 (map latency calls)) as Hlast.
    { rewrite Hbuf, Hempty. cbn [app]. unfold slice_last.
      rewrite length_map, H150. reflexivity. }
    split; [exact Hlast |].
    split.
    + rewrite Hlast, length_skipn, length_map, H150. reflexivity.
    + rewrite average_is_mean, Hlast. reflexivity.
Qed.

End MetricsFacts.

(** ** The speech queue: [FastTTSService] *)

Section WorkerFacts.

Import FastTTS.

Variable Env : Type.

Lemma stale_test :
  forall (o : io) (r : request Env),
    Qltb 5 (now o - req_timestamp r) = true <-> stale o r.
Proof.
  intros o r. unfold Qltb, stale. rewrite negb_true_iff.
  split.
  - intro H. apply Qnot_le_lt. intro Hle.
    apply Qle_bool_iff in Hle. congruence.
  - intro H. destruct (Qle_bool (now o - req_timestamp r) 5) eqn:E; [| reflexivity].
    apply Qle_bool_iff in E. exfalso. exact (Qlt_not_le _ _ H E).
Qed.

(** Processing a request never raises, touches [self] only in its trace,
    and touches the process only through the request's callback. *)
Lemma process_request_run :
  forall (o : io) (r : request Env) (env : Env) (s : FastTTSService Env),
    exists tr,
      _process_tts_request o r (env, s)
      = (Returned tt, (after_callback r env, set_trace tr s)).
Proof.
  intros o r env s.
  unfold _process_tts_request, _generate_audio, _play_audio, call_callback,
    after_callback, has_audio, emit, self, outside, zoom, try_except, bind,
    modify, gets, ret, lift.
  cbn [fst snd].
  destruct (generated o) as [[| b bs] | eg];
    destruct (req_callback r) as [f |];
    try destruct (pygame_played o) as [[] | ep];
    try destruct ep;
    try destruct (fallback_played o) as [[] | ef];
    cbn [fst snd];
    try (destruct (f env) as [[[] | ec] env']);
    cbn [fst snd];
    eexists; unfold set_trace; cbn; reflexivity.
Qed.

Lemma pass_on_empty_queue :
  forall (o : io) (env : Env) (s : FastTTSService Env),
    voice_queue s = [] ->
    worker_pass o (env, s) = (Returned tt, (env, s)).
Proof.
  intros o env s Hq.
  unfold worker_pass, queue_get, self, zoom, try_except, bind, gets, raise, ret.
  cbn [fst snd]. rewrite Hq. reflexivity.
Qed.

Lemma pass_on_stale_request :
  forall (o : io) (env : Env) (s : FastTTSService Env) r rest,
    voice_queue s = r :: rest ->
    stale o r ->
    worker_pass o (env, s) = (Returned tt, (env, set_voice_queue rest s)).
Proof.
  intros o env s r rest Hq Hstale.
  apply stale_test in Hstale.
  unfold worker_pass, queue_get, self, zoom, try_except, bind, gets, modify,
    raise, ret.
  cbn [fst snd]. rewrite Hq. cbn [fst snd]. rewrite Hstale. reflexivity.
Qed.

Lemma pass_on_fresh_request :
  forall (o : io) (env : Env) (s : FastTTSService Env) r rest,
    voice_queue s = r :: rest ->
    ~ stale o r ->
    exists tr,
      worker_pass o (env, s)
      = (Returned tt,
         (after_callback r env,
          set_is_speaking false (set_trace tr (set_voice_queue rest s)))).
Proof.
  intros o env s r rest Hq Hfresh.
  assert (Qltb 5 (now o - req_timestamp r) = false) as Htest.
  { destruct (Qltb 5 (now o - req_timestamp r)) eqn:E; [| reflexivity].
    apply stale_test in E. contradiction. }
  destruct (process_request_run o r env
              (set_is_speaking true (set_voice_queue rest s))) as [tr Hrun].
  exists tr.
  unfold worker_pass, queue_get, try_except.
  unfold bind at 1. unfold bind at 1.
  unfold self at 1, zoom, gets. cbn [fst snd]. rewrite Hq.
  unfold bind at 1, self at 1, zoom, modify, ret. cbn [fst snd].
  rewrite Htest.
  unfold bind at 1, self at 1, zoom. cbn [fst snd].
  unfold bind at 1. rewrite Hrun.
  unfold self, zoom. cbn [fst snd]. reflexivity.
Qed.

(** A pass of the loop always hands control back to the loop. *)
Lemma pass_never_raises :
  forall (o : io) (w : World Env),
    exists w', worker_pass o w = (Returned tt, w').
Proof.
  intros o [env s].
  destruct (voice_queue s) as [| r rest] eqn:Hq.
  - eexists. apply pass_on_empty_queue. exact Hq.
  - destruct (Qltb 5 (now o - req_timestamp r)) eqn:E.
    + apply stale_test in E. eexists. eapply pass_on_stale_request; eassumption.
    + assert (~ stale o r) as Hfresh.
      { intro H. apply stale_test in H. congruence. }
      destruct (pass_on_fresh_request o env s r rest Hq Hfresh) as [tr Hrun].
      eexists. exact Hrun.
Qed.

(** C4. Staleness drop.  When the request at the head of the queue is more
    than five seconds old as the worker takes it, the pass removes it and
    does nothing else: the trace gains no synthesis, playback or callback
    event, [is_speaking] and the process are as before, and the loop goes
    on with the rest of the queue. *)
Theorem stale_request_is_dropped :
  forall (o : io) (env : Env) (s : FastTTSService Env) r rest,
    voice_queue s = r :: rest ->
    stale o r ->
    worker_pass o (env, s) = (Returned tt, (env, set_voice_queue rest s)) /\
    trace (set_voice_queue rest s) = trace s /\
    is_speaking (set_voice_queue rest s) = is_speaking s /\
    forall os,
      _tts_worker (o :: os) (env, s) = _tts_worker os (env, set_voice_queue rest s).
Proof.
  intros o env s r rest Hq Hstale.
  pose proof (pass_on_stale_request o env s r rest Hq Hstale) as Hrun.
  split; [exact Hrun |].
  split; [reflexivity |].
  split; [reflexivity |].
  intro os. cbn [_tts_worker]. unfold bind. rewrite Hrun. reflexivity.
Qed.


End WorkerFacts.


(** ** What the speech queue leaves alone *)

Section FrameFacts.

Import FastTTS.

Variables (Env A : Type) (obs : Env -> A).

Lemma speak_frame :
  forall stamp text voice rate_arg pitch_arg volume_arg callback
         (w : World Env),
    keeps obs callback ->
    obs (fst (snd (speak stamp text voice rate_arg pitch_arg volume_arg callback w)))
    = obs (fst w).
Proof.
  intros stamp text voice rate_arg pitch_arg volume_arg callback [env s] Hk.
  unfold speak, call_callback, emit, self, outside, zoom, bind, gets, modify, ret.
  cbn [fst snd].
  destruct (is_available s); cbn [fst snd]; [reflexivity |].
  destruct callback as [f |]; cbn [fst snd]; [| reflexivity].
  cbn in Hk. specialize (Hk env).
  destruct (f env) as [[[] | e] env']; cbn [fst snd] in *; exact Hk.
Qed.

Lemma speak_immediate_frame :
  forall stamp stopped text voice (w : World Env),
    obs (fst (snd (speak_immediate stamp stopped text voice w))) = obs (fst w).
Proof.
  intros stamp stopped text voice [env s].
  unfold speak_immediate.
  unfold bind at 1, self at 1, zoom, gets. cbn [fst snd].
  destruct (is_available s).
  - unfold bind at 1, _clear_queue, self at 1, zoom, modify. cbn [fst snd].
    unfold bind at 1, _stop_current_speech, try_except, bind at 1, emit,
      self at 1, zoom, modify, lift, ret.
    cbn [fst snd].
    destruct stopped as [[] | e]; rewrite speak_frame by exact I; reflexivity.
  - unfold emit, self, zoom, modify. reflexivity.
Qed.

Lemma worker_pass_frame :
  forall (o : io) (w : World Env),
    Forall (fun r => keeps obs (req_callback r)) (voice_queue (snd w)) ->
    obs (fst (snd (worker_pass o w))) = obs (fst w) /\
    Forall (fun r => keeps obs (req_callback r))
           (voice_queue (snd (snd (worker_pass o w)))).
Proof.
  intros o [env s] Hall. cbn [fst snd] in Hall.
  destruct (voice_queue s) as [| r rest] eqn:Hq.
  - rewrite (pass_on_empty_queue Env o env s Hq). cbn [fst snd].
    rewrite Hq. split; [reflexivity | constructor].
  - inversion Hall as [| ? ? Hr Hrest]; subst.
    destruct (Qltb 5 (now o - req_timestamp r)) eqn:E.
    + apply stale_test in E.
      rewrite (pass_on_stale_request Env o env s r rest Hq E). cbn [fst snd].
      split; [reflexivity | exact Hrest].
    + assert (~ stale o r) as Hfresh.
      { intro H. apply stale_test in H. congruence. }
      destruct (pass_on_fresh_request Env o env s r rest Hq Hfresh) as [tr Hrun].
      rewrite Hrun. cbn [fst snd].
      split; [| exact Hrest].
      unfold after_callback. unfold keeps in Hr.
      destruct (req_callback r) as [f |]; [apply Hr | reflexivity].
Qed.

Lemma worker_frame :
  forall (os : list io) (w : World Env),
    Forall (fun r => keeps obs (req_callback r)) (voice_queue (snd w)) ->
    obs (fst (snd (_tts_worker os w))) = obs (fst w).
Proof.
  induction os as [| o os IH]; intros w Hall.
  - reflexivity.
  - cbn [_tts_worker]. unfold bind.
    destruct (pass_never_raises Env o w) as [w' Hrun].
    destruct (worker_pass_frame o w Hall) as [Hobs Hall'].
    rewrite Hrun in *. cbn [fst snd] in *.
    rewrite IH; assumption.
Qed.

End FrameFacts.

(** ** The listener *)

Section ListenerFacts.

Import Rose.

Variable recognize_google : AudioData -> result string.

(** C1. Self-hearing suppression.  A capture delivered to the listener
    callback while [tts_service.is_playing()] is true is discarded: the
    callback returns at once and the application is unchanged, so the audio
    was not handed to the recognizer and no [handle_command] thread was
    started for it. *)
Theorem capture_discarded_while_playing :
  forall (audio : AudioData) (a : App),
    playing a = true ->
    callback recognize_google audio a = (Returned tt, a) /\
    transcribed (snd (callback recognize_google audio a)) = transcribed a /\
    dispatched (snd (callback recognize_google audio a)) = dispatched a.
Proof.
  intros audio a H.
  assert (callback recognize_google audio a = (Returned tt, a)) as Hrun.
  { unfold callback, bind, gets. unfold playing in H. rewrite H. reflexivity. }
  rewrite Hrun. repeat split.
Qed.

Lemma on_fast_tts_playing :
  forall (X : Type) (m : M (FastTTS.World MediaServices.TTSService) X) (a : App),
    playing (snd (on_fast_tts m a))
    = MediaServices.tts_playing (fst (snd (m (tts_service a, fast_tts a)))).
Proof.
  intros X m a. unfold on_fast_tts, zoom, playing.
  destruct (m (tts_service a, fast_tts a)) as [r [env s]]. reflexivity.
Qed.

Lemma on_fast_tts_frame :
  forall (X : Type) (m : M (FastTTS.World MediaServices.TTSService) X) (a : App),
    transcribed (snd (on_fast_tts m a)) = transcribed a /\
    dispatched (snd (on_fast_tts m a)) = dispatched a.
Proof.
  intros X m a. unfold on_fast_tts, zoom.
  destruct (m (tts_service a, fast_tts a)) as [r [env s]]. split; reflexivity.
Qed.

(** C10. No operation of [FastTTSService] writes [tts_playing].  Run
    inside the application, [speak], [speak_immediate] and any number of
    passes of the worker leave the flag that the listener callback reads as
    it was; the only code they run that is not the service's own is a
    completion callback supplied by the caller, and the statement asks of
    it that it leaves the flag alone too.  What the worker sets is the
    service's own [is_speaking], so speech from this queue does not make
    the listener discard a capture. *)
Theorem fast_tts_leaves_tts_playing :
  forall (a : App),
    (forall stamp text voice rate_arg pitch_arg volume_arg cb,
        FastTTS.keeps MediaServices.tts_playing cb ->
        playing (snd (on_fast_tts
                        (FastTTS.speak stamp text voice rate_arg pitch_arg
                                       volume_arg cb) a))
        = playing a) /\
    (forall stamp stopped text voice,
        playing (snd (on_fast_tts
                        (FastTTS.speak_immediate stamp stopped text voice) a))
        = playing a) /\
    (forall os,
        Forall (fun r => FastTTS.keeps MediaServices.tts_playing
                           (FastTTS.req_callback r))
               (FastTTS.voice_queue (fast_tts a)) ->
        playing (snd (on_fast_tts (FastTTS._tts_worker os) a)) = playing a /\
        (playing a = false ->
         forall audio,
           fst (callback recognize_google audio
                  (snd (on_fast_tts (FastTTS._tts_worker os) a)))
           = Returned tt /\
           transcribed (snd (callback recognize_google audio
                               (snd (on_fast_tts (FastTTS._tts_worker os) a))))
           = transcribed a ++ [audio])).
Proof.
  intro a. split; [| split].
  - intros stamp text voice rate_arg pitch_arg volume_arg cb Hk.
    rewrite on_fast_tts_playing.
    apply (speak_frame _ _ MediaServices.tts_playing); exact Hk.
  - intros stamp stopped text voice.
    rewrite on_fast_tts_playing.
    apply (speak_immediate_frame _ _ MediaServices.tts_playing).
  - intros os Hall.
    assert (playing (snd (on_fast_tts (FastTTS._tts_worker os) a)) = playing a)
      as Hsame.
    { rewrite on_fast_tts_playing.
      apply (worker_frame _ _ MediaServices.tts_playing). exact Hall. }
    split; [exact Hsame |].
    intros Hquiet audio.
    destruct (on_fast_tts_frame _ (FastTTS._tts_worker os) a) as [Ht _].
    remember (snd (on_fast_tts (FastTTS._tts_worker os) a)) as a' eqn:Ea.
    rewrite Hquiet in Hsame. unfold playing in Hsame.
    unfold callback, bind, gets, try_except, modify, lift, ret.
    rewrite Hsame.
    destruct (recognize_google audio) as [text | e]; cbn [fst snd].
    + destruct (truthy text && truthy (strip text));
        cbn [fst snd transcribed set_dispatched set_transcribed];
        rewrite Ht; split; reflexivity.
    + destruct e; cbn [fst snd transcribed set_errors set_transcribed];
        rewrite Ht; split; reflexivity.
Qed.

End ListenerFacts.

(** * Concrete runs *)

Section Runs.

Import VoiceCommands Scenario.

Ltac decide_pattern :=
  first [ apply well_formedb_true; vm_compute; reflexivity
        | apply matchesb_true; vm_compute; reflexivity
        | apply matchesb_false; vm_compute; reflexivity ].

(** "Hi there, play music" on the default manager: the greeting entry
    would match, but the music entry comes first. *)
Lemma first_match_wins_run :
  exists m',
    process_voice_input Re.search 0 1 "Hi there, play music" __init__
      = (Returned true, m') /\
    started m' = [("_handle_play_music", "hi there, play music")].
Proof.
  apply (first_match_wins Re.search 0 1 "Hi there, play music" __init__
           (firstn 3 (commands __init__))
           "play music|start music|music" play_music_entry
           (skipn 4 (commands __init__))).
  - reflexivity.
  - reflexivity.
  - cbn [firstn commands __init__ _setup_default_commands add_command
           set_commands dict_set String.eqb Ascii.eqb Bool.eqb].
    repeat (apply Forall_cons; [split; decide_pattern |]).
    apply Forall_nil.
  - decide_pattern.
  - decide_pattern.
Defined.

(** "play music" with a custom entry and a builtin entry that both match:
    the custom handler runs. *)
Lemma custom_before_builtin_run :
  exists m',
    process_voice_input Re.search 0 1 "play music" with_custom_player
      = (Returned true, m') /\
    started m' = [("custom_player", "play music")].
Proof.
  destruct (custom_before_builtin Re.search 0 1 "play music" with_custom_player
              "play music" custom_player
              "play music|start music|music" play_music_entry)
    as [m' [pre [k [c [post [_ [_ [_ [Hrun [Hstarted Hsame]]]]]]]]]].
  - reflexivity.
  - left. reflexivity.
  - decide_pattern.
  - right. right. right. left. reflexivity.
  - decide_pattern.
  - apply Forall_cons; [decide_pattern | apply Forall_nil].
  - exists m'. split; [exact Hrun |].
    rewrite Hstarted, Hsame; [reflexivity |].
    intros e [He | []] _. symmetry. exact He.
Defined.

(** A call on a busy manager is turned away; a call that runs into a
    malformed pattern raises, and still leaves the guard clear and the next
    call accepted, also after handlers that fail. *)
Lemma guard_released_run :
  process_voice_input Re.search 0 1 "hello" busy = (Returned false, busy) /\
  (fst (process_voice_input Re.search 0 1 "hello" with_bad_pattern)
     = Raised re_error /\
   is_processing (snd (process_voice_input Re.search 0 1 "hello" with_bad_pattern))
     = false /\
   accepted Re.search 2 3 "hello"
     (snd (process_voice_input Re.search 0 1 "hello" with_bad_pattern))).
Proof.
  split.
  - apply (guard_released_on_every_exit Re.search failing_handlers 0 1 "hello" busy).
    reflexivity.
  - split; [reflexivity |].
    destruct (proj2 (guard_released_on_every_exit Re.search failing_handlers
                       0 1 "hello" with_bad_pattern)
                eq_refl _ _ (surjective_pairing _))
      as [Hclear [_ Hnext]].
    split; [exact Hclear | apply Hnext].
Defined.

(** C7 as worded fails: a call that matches nothing is accepted and
    records nothing, and a match on a full buffer leaves 100 samples. *)
Lemma unmatched_call_records_nothing :
  (is_processing __init__ = false /\
   fst (process_voice_input Re.search 0 1 "open the pod bay doors" __init__)
     = Returned false /\
   response_times
     (snd (process_voice_input Re.search 0 1 "open the pod bay doors" __init__))
     = response_times __init__) /\
  (fst (process_voice_input Re.search 0 1 "hello" full_buffer) = Returned true /\
   List.length
     (response_times (snd (process_voice_input Re.search 0 1 "hello" full_buffer)))
     = List.length (response_times full_buffer)) /\
  ~ every_accepted_call_records Re.search.
Proof.
  split; [repeat split |].
  split; [split; vm_compute; reflexivity |].
  intro H.
  specialize (H 0 1 "open the pod bay doors" __init__ eq_refl).
  vm_compute in H. discriminate H.
Qed.

(** "hello" matches and is recorded; the buffer was empty. *)
Lemma sample_recorded_on_match_only_run :
  response_times (snd (process_voice_input Re.search 0 1 "hello" __init__))
    = push_sample (1 - 0) [] /\
  response_times
    (snd (process_voice_input Re.search 0 1 "open the pod bay doors" __init__))
    = [].
Proof.
  split.
  - apply (sample_recorded_on_match_only Re.search 0 1 "hello" __init__
             _ _ eq_refl (surjective_pairing _)).
    reflexivity.
  - apply (sample_recorded_on_match_only Re.search 0 1
             "open the pod bay doors" __init__ _ _ eq_refl (surjective_pairing _)).
    vm_compute. discriminate.
Defined.

(** 150 recordings of latencies 1, 2, ..., 150 seconds: the buffer holds
    51 ... 150, whose mean is 100.5 (that of all 150 would be 75.5). *)
Lemma metrics_keep_last_hundred_run :
  response_times (snd (record_all calls_150 __init__))
    = skipn 50 (map latency calls_150) /\
  List.length (response_times (snd (record_all calls_150 __init__))) = 100%nat /\
  get_average_response_time (snd (record_all calls_150 __init__)) == 201 # 2.
Proof.
  destruct (metrics_keep_last_hundred calls_150 __init__) as [_ [_ [_ [_ H]]]].
  - cbn. lia.
  - destruct (H eq_refl eq_refl) as [Hbuf [Hlen Havg]].
    split; [exact Hbuf |].
    split; [exact Hlen |].
    rewrite Havg. vm_compute. reflexivity.
Defined.

(** Turning every priority to [LOW] changes nothing in what "hello" does. *)
Lemma priority_is_ignored_run :
  fst (process_voice_input Re.search 0 1 "hello" __init__)
    = fst (process_voice_input Re.search 0 1 "hello" all_low) /\
  started (snd (process_voice_input Re.search 0 1 "hello" __init__))
    = started (snd (process_voice_input Re.search 0 1 "hello" all_low)).
Proof.
  destruct (priority_is_ignored Re.search 0 1 "hello" __init__ all_low)
    as [_ [Hres [_ [_ [_ [_ [_ Hstarted]]]]]]].
  - repeat split.
  - split; [exact Hres | exact Hstarted].
Defined.

(** A phrase captured while [tts_service] speaks never reaches the
    recognizer. *)
Lemma capture_discarded_while_playing_run :
  Rose.callback hears_hello [Byte.x52] (app true [])
    = (Returned tt, app true []) /\
  Rose.dispatched (snd (Rose.callback hears_hello [Byte.x52] (app true []))) = [].
Proof.
  destruct (capture_discarded_while_playing hears_hello [Byte.x52] (app true []))
    as [Hrun [_ Hnone]].
  - reflexivity.
  - split; [exact Hrun | exact Hnone].
Defined.

(** A request stamped at 0 and taken at 6 is dropped; the one behind it is
    next. *)
Lemma stale_request_is_dropped_run :
  FastTTS.worker_pass (pass_ok 6)
    (tt, queue_of [plain_request unit; plain_request unit])
    = (Returned tt, (tt, queue_of [plain_request unit])) /\
  FastTTS.trace (queue_of [plain_request unit]) = [].
Proof.
  destruct (stale_request_is_dropped unit (pass_ok 6) tt
              (queue_of [plain_request unit; plain_request unit])
              (plain_request unit) [plain_request unit])
    as [Hrun [Htrace _]].
  - reflexivity.
  - reflexivity.
  - split; [exact Hrun | reflexivity].
Defined.

(** The worker speaks a queued utterance: the trace ends with the audio
    played, and the flag the listener reads never rose, so the listener
    transcribes what it captures next. *)
Lemma fast_tts_leaves_tts_playing_run :
  Rose.playing
    (snd (Rose.on_fast_tts (FastTTS._tts_worker [pass_ok 1])
            (app false [plain_request MediaServices.TTSService])))
    = false /\
  Rose.transcribed
    (snd (Rose.callback hears_hello [Byte.x52]
            (snd (Rose.on_fast_tts (FastTTS._tts_worker [pass_ok 1])
                    (app false [plain_request MediaServices.TTSService])))))
    = [[Byte.x52]] /\
  last (FastTTS.trace
          (Rose.fast_tts
             (snd (Rose.on_fast_tts (FastTTS._tts_worker [pass_ok 1])
                     (app false [plain_request MediaServices.TTSService])))))
       FastTTS.EvStop
    = FastTTS.EvPlay [Byte.x49; Byte.x44].
Proof.
  destruct (fast_tts_leaves_tts_playing hears_hello
              (app false [plain_request MediaServices.TTSService]))
    as [_ [_ Hworker]].
  destruct (Hworker [pass_ok 1]) as [Hsame Hheard].
  - apply Forall_cons; [exact I | apply Forall_nil].
  - split; [exact Hsame |].
    split; [apply (Hheard eq_refl [Byte.x52]) |].
    vm_compute. reflexivity.
Defined.

End Runs.

(** * Further properties of the modelled code *)

(** ** The registry as a dictionary *)

Section DictFacts.

Variable V : Type.

Lemma dict_get_set_same :
  forall (k : string) (v : V) (d : dict V), dict_get k (dict_set k v d) = Some v.
Proof.
  intros k v. induction d as [| [k' v'] d IH].
  - cbn. rewrite String.eqb_refl. reflexivity.
  - cbn [dict_set]. destruct (String.eqb k' k) eqn:E.
    + cbn [dict_get]. rewrite E. reflexivity.
    + cbn [dict_get]. rewrite E. exact IH.
Qed.

Lemma dict_get_set_other :
  forall (k q : string) (v : V) (d : dict V),
    q <> k -> dict_get q (dict_set k v d) = dict_get q d.
Proof.
  intros k q v d Hneq. induction d as [| [k' v'] d IH].
  - cbn. destruct (String.eqb k q) eqn:E; [| reflexivity].
    apply String.eqb_eq in E. congruence.
  - cbn [dict_set]. destruct (String.eqb k' k) eqn:E.
    + apply String.eqb_eq in E. subst k'. cbn [dict_get].
      destruct (String.eqb k q) eqn:E'; [| reflexivity].
      apply String.eqb_eq in E'. congruence.
    + cbn [dict_get]. rewrite IH. reflexivity.
Qed.

Lemma dict_set_keys_present :
  forall (k : string) (v : V) (d : dict V),
    In k (dict_keys d) -> dict_keys (dict_set k v d) = dict_keys d.
Proof.
  intros k v. induction d as [| [k' v'] d IH]; intro Hin.
  - destruct Hin.
  - cbn [dict_set]. destruct (String.eqb k' k) eqn:E.
    + reflexivity.
    + cbn [dict_keys map fst]. f_equal. apply IH.
      destruct Hin as [Heq | Hin]; [| exact Hin].
      cbn in Heq. subst k'. rewrite String.eqb_refl in E. discriminate.
Qed.

Lemma dict_set_keys_absent :
  forall (k : string) (v : V) (d : dict V),
    ~ In k (dict_keys d) -> dict_keys (dict_set k v d) = dict_keys d ++ [k].
Proof.
  intros k v. induction d as [| [k' v'] d IH]; intro Hout.
  - reflexivity.
  - cbn [dict_set]. destruct (String.eqb k' k) eqn:E.
    + apply String.eqb_eq in E. subst k'. exfalso. apply Hout. left. reflexivity.
    + cbn [dict_keys map fst app]. f_equal. apply IH.
      intro Hin. apply Hout. right. exact Hin.
Qed.

Lemma dict_set_keys_nodup :
  forall (k : string) (v : V) (d : dict V),
    NoDup (dict_keys d) -> NoDup (dict_keys (dict_set k v d)).
Proof.
  intros k v d Hnd.
  destruct (in_dec string_dec k (dict_keys d)) as [Hin | Hout].
  - rewrite dict_set_keys_present by exact Hin. exact Hnd.
  - rewrite dict_set_keys_absent by exact Hout.
    apply NoDup_app; [exact Hnd | repeat constructor; intros [] |].
    intros x Hx [Hk | []]. subst x. exact (Hout Hx).
Qed.

(** Assigning to a key that is present replaces its value where it stands. *)
Lemma dict_set_in_place :
  forall (k : string) (v v' : V) (pre post : dict V),
    ~ In k (dict_keys pre) ->
    dict_set k v' (pre ++ (k, v) :: post) = pre ++ (k, v') :: post.
Proof.
  intros k v v'. induction pre as [| [k' w] pre IH]; intros post Hout.
  - cbn. rewrite String.eqb_refl. reflexivity.
  - cbn [app dict_set]. destruct (String.eqb k' k) eqn:E.
    + apply String.eqb_eq in E. subst k'. exfalso. apply Hout. left. reflexivity.
    + f_equal. apply IH. intro Hin. apply Hout. right. exact Hin.
Qed.

Lemma dict_get_none_iff :
  forall (k : string) (d : dict V), dict_get k d = None <-> ~ In k (dict_keys d).
Proof.
  intros k. induction d as [| [k' v] d IH].
  - cbn. tauto.
  - cbn [dict_get dict_keys map fst]. destruct (String.eqb k' k) eqn:E.
    + apply String.eqb_eq in E. subst k'. split; [discriminate |].
      intro H. exfalso. apply H. left. reflexivity.
    + rewrite IH. apply String.eqb_neq in E. cbn. tauto.
Qed.

Lemma dict_get_in_values :
  forall (k : string) (v : V) (d : dict V),
    dict_get k d = Some v -> In v (dict_values d).
Proof.
  intros k v. induction d as [| [k' w] d IH]; intro H.
  - discriminate.
  - cbn [dict_get] in H. destruct (String.eqb k' k).
    + inversion H. left. reflexivity.
    + right. apply IH. exact H.
Qed.

Lemma dict_values_in_get :
  forall (v : V) (d : dict V),
    NoDup (dict_keys d) -> In v (dict_values d) ->
    exists k, dict_get k d = Some v.
Proof.
  intros v. induction d as [| [k' w] d IH]; intros Hnd Hin.
  - destruct Hin.
  - inversion Hnd as [| ? ? Hout Hnd']; subst.
    destruct Hin as [Heq | Hin].
    + exists k'. cbn in *. rewrite String.eqb_refl. congruence.
    + destruct (IH Hnd' Hin) as [k Hk]. exists k.
      cbn [dict_get]. destruct (String.eqb k' k) eqn:E; [| exact Hk].
      apply String.eqb_eq in E. subst k'. exfalso.
      assert (dict_get k d = None) as Hnone
        by (apply dict_get_none_iff; exact Hout).
      congruence.
Qed.

End DictFacts.

Section RegistryFacts.

Import VoiceCommands.

(** X1. Registering and looking up.  After [add_command] the pattern maps
    to the command just built and every other pattern maps to what it did;
    a pattern that was present keeps its place in the iteration order, a new
    one goes last; the custom mapping is untouched.  [add_custom_command]
    does the same on the custom mapping and leaves the builtin one alone. *)
Theorem registration_then_lookup :
  forall p h d pr rc cat m,
    (let m' := add_command p h d pr rc cat m in
     dict_get p (commands m')
       = Some {| pattern := p; handler := h; description := d; priority := pr;
                 requires_confirmation := rc; category := cat |} /\
     (forall q, q <> p -> dict_get q (commands m') = dict_get q (commands m)) /\
     (In p (dict_keys (commands m)) ->
        dict_keys (commands m') = dict_keys (commands m)) /\
     (~ In p (dict_keys (commands m)) ->
        dict_keys (commands m') = dict_keys (commands m) ++ [p]) /\
     custom_commands m' = custom_commands m) /\
    (let m' := add_custom_command p h d pr rc cat m in
     dict_get p (custom_commands m')
       = Some {| pattern := p; handler := h; description := d; priority := pr;
                 requires_confirmation := rc; category := cat |} /\
     (forall q, q <> p ->
        dict_get q (custom_commands m') = dict_get q (custom_commands m)) /\
     (In p (dict_keys (custom_commands m)) ->
        dict_keys (custom_commands m') = dict_keys (custom_commands m)) /\
     (~ In p (dict_keys (custom_commands m)) ->
        dict_keys (custom_commands m') = dict_keys (custom_commands m) ++ [p]) /\
     commands m' = commands m).
Proof.
  intros p h d pr rc cat m. split; cbv zeta.
  - unfold add_command. cbn [commands custom_commands set_commands].
    split; [apply dict_get_set_same |].
    split; [intros q Hq; apply dict_get_set_other; exact Hq |].
    split; [apply dict_set_keys_present |].
    split; [apply dict_set_keys_absent | reflexivity].
  - unfold add_custom_command. cbn [commands custom_commands set_custom_commands].
    split; [apply dict_get_set_same |].
    split; [intros q Hq; apply dict_get_set_other; exact Hq |].
    split; [apply dict_set_keys_present |].
    split; [apply dict_set_keys_absent | reflexivity].
Qed.

Lemma dict_merge_cons :
  forall (V : Type) (a b : dict V) (k : string) (v : V),
    dict_merge a ((k, v) :: b) = dict_merge (dict_set k v a) b.
Proof. reflexivity. Qed.

Lemma dict_merge_keys_nodup :
  forall (V : Type) (b a : dict V),
    NoDup (dict_keys a) -> NoDup (dict_keys (dict_merge a b)).
Proof.
  intros V. induction b as [| [k v] b IH]; intros a Hnd.
  - exact Hnd.
  - rewrite dict_merge_cons. apply IH. apply dict_set_keys_nodup. exact Hnd.
Qed.

(** In [{**a, **b}] a key of [b] has [b]'s value. *)
Lemma dict_get_merge :
  forall (V : Type) (b a : dict V) (q : string),
    NoDup (dict_keys b) ->
    dict_get q (dict_merge a b)
    = match dict_get q b with
      | Some v => Some v
      | None => dict_get q a
      end.
Proof.
  intros V. induction b as [| [k v] b IH]; intros a q Hnd.
  - reflexivity.
  - inversion Hnd as [| ? ? Hout Hnd']; subst.
    rewrite dict_merge_cons, IH by exact Hnd'.
    cbn [dict_get]. destruct (String.eqb k q) eqn:E.
    + apply String.eqb_eq in E. subst q.
      assert (dict_get k b = None) as Hnone
        by (apply dict_get_none_iff; exact Hout).
      rewrite Hnone. apply dict_get_set_same.
    + apply String.eqb_neq in E.
      destruct (dict_get q b); [reflexivity |].
      apply dict_get_set_other. congruence.
Qed.

(** X2. Listing by category.  With each mapping free of repeated keys, the
    commands [get_commands_by_category] returns are those of the wanted
    category that are the value of some pattern after the custom mapping has
    been laid over the builtin one: a custom command, or a builtin command
    whose pattern no custom command took.  A builtin command whose pattern
    was registered again as a custom command is hidden by it. *)
Theorem category_listing_prefers_custom :
  forall wanted m cmd,
    NoDup (dict_keys (commands m)) ->
    NoDup (dict_keys (custom_commands m)) ->
    (In cmd (get_commands_by_category wanted m) <->
     category cmd = wanted /\
     exists k,
       dict_get k (custom_commands m) = Some cmd \/
       (dict_get k (custom_commands m) = None /\
        dict_get k (commands m) = Some cmd)).
Proof.
  intros wanted m cmd Hb Hc. unfold get_commands_by_category.
  rewrite filter_In, String.eqb_eq.
  assert (In cmd (dict_values (dict_merge (commands m) (custom_commands m))) <->
          exists k, dict_get k (dict_merge (commands m) (custom_commands m))
                    = Some cmd) as Hvals.
  { split.
    - apply dict_values_in_get. apply dict_merge_keys_nodup. exact Hb.
    - intros [k Hk]. eapply dict_get_in_values. exact Hk. }
  rewrite Hvals. split.
  - intros [[k Hk] Hcat]. split; [exact Hcat |]. exists k.
    rewrite dict_get_merge in Hk by exact Hc.
    destruct (dict_get k (custom_commands m)) as [c |].
    + left. exact Hk.
    + right. split; [reflexivity | exact Hk].
  - intros [Hcat [k Hk]]. split; [| exact Hcat]. exists k.
    rewrite dict_get_merge by exact Hc.
    destruct Hk as [Hk | [Hnone Hk]].
    + rewrite Hk. reflexivity.
    + rewrite Hnone. exact Hk.
Qed.

End RegistryFacts.

(** ** More on dispatch *)

Section DispatchMore.

Import VoiceCommands.

Variable re_search : string -> string -> result bool.

Lemma match_pattern_is_matchesb :
  forall k text,
    well_formed re_search k text ->
    _match_pattern re_search k text = Returned (matchesb re_search k text).
Proof.
  intros k text. unfold well_formed, _match_pattern, matchesb.
  induction (split "|" k) as [| p ps IH]; intro Hwf.
  - reflexivity.
  - inversion Hwf as [| ? ? [b Hb] Hrest]; subst.
    cbn [any_search existsb]. rewrite Hb. destruct b; [reflexivity |].
    cbn [orb]. apply IH. exact Hrest.
Qed.

Lemma select_is_find :
  forall items text,
    Forall (fun e => well_formed re_search (fst e) text) items ->
    select re_search items text
    = Returned (find (fun e => matchesb re_search (fst e) text) items).
Proof.
  induction items as [| [k c] items IH]; intros text Hwf.
  - reflexivity.
  - inversion Hwf as [| ? ? Hk Hrest]; subst. cbn [fst] in Hk.
    cbn [select find fst]. rewrite (match_pattern_is_matchesb _ _ Hk).
    destruct (matchesb re_search k text); [reflexivity | apply IH; exact Hrest].
Qed.

Lemma existsb_find :
  forall (A : Type) (f : A -> bool) (l : list A),
    existsb f l = match find f l with Some _ => true | None => false end.
Proof.
  intros A f. induction l as [| x l IH]; [reflexivity |].
  cbn. destruct (f x); [reflexivity | exact IH].
Qed.

(** X3. Handled or not.  On an accepted call over patterns that [re]
    accepts, the result is [True] exactly when some entry, custom or
    builtin, has an alternative that matches the normalized text.  When none
    does the call returns [False] having started no thread and recorded no
    sample; the text is in the history all the same. *)
Theorem result_tells_whether_any_entry_matches :
  forall start now text m,
    is_processing m = false ->
    Forall (fun e => well_formed re_search (fst e) (normalize text))
           (custom_commands m ++ commands m) ->
    fst (process_voice_input re_search start now text m)
      = Returned (existsb (fun e => matchesb re_search (fst e) (normalize text))
                          (custom_commands m ++ commands m)) /\
    (existsb (fun e => matchesb re_search (fst e) (normalize text))
             (custom_commands m ++ commands m) = false ->
     started (snd (process_voice_input re_search start now text m)) = started m /\
     response_times (snd (process_voice_input re_search start now text m))
       = response_times m /\
     command_history (snd (process_voice_input re_search start now text m))
       = command_history m ++ [normalize text]).
Proof.
  intros start now text m Hfree Hwf.
  rewrite (accepted_call re_search start now text m Hfree).
  rewrite (select_is_find _ _ Hwf), existsb_find.
  destruct (find (fun e => matchesb re_search (fst e) (normalize text))
              (custom_commands m ++ commands m)) as [[k c] |].
  - split; [reflexivity | discriminate].
  - split; [reflexivity |]. intros _. repeat split.
Qed.

Lemma select_raises :
  forall pre k c post text e,
    Forall (fun x => _match_pattern re_search (fst x) text = Returned false) pre ->
    _match_pattern re_search k text = Raised e ->
    select re_search (pre ++ (k, c) :: post) text = Raised e.
Proof.
  induction pre as [| [k' c'] pre IH]; intros k c post text e Hpre Hk.
  - cbn [app select]. rewrite Hk. reflexivity.
  - inversion Hpre as [| ? ? Hk' Hrest]; subst. cbn [fst] in Hk'.
    cbn [app select]. rewrite Hk'. apply IH; assumption.
Qed.

(** X4. A malformed pattern.  When the entries tried first do not match
    and the next pattern makes [re] raise, the exception leaves
    [process_voice_input]: no thread is started, even for a later entry that
    would match, and no sample is recorded; the text stays in the history and
    the guard is clear again. *)
Theorem malformed_pattern_aborts_dispatch :
  forall start now text m pre k c post e,
    is_processing m = false ->
    custom_commands m ++ commands m = pre ++ (k, c) :: post ->
    Forall (fun x => _match_pattern re_search (fst x) (normalize text)
                     = Returned false) pre ->
    _match_pattern re_search k (normalize text) = Raised e ->
    exists m',
      process_voice_input re_search start now text m = (Raised e, m') /\
      started m' = started m /\
      response_times m' = response_times m /\
      command_history m' = command_history m ++ [normalize text] /\
      is_processing m' = false.
Proof.
  intros start now text m pre k c post e Hfree Hsplit Hpre Hk.
  rewrite (accepted_call re_search start now text m Hfree), Hsplit.
  rewrite (select_raises pre k c post (normalize text) e Hpre Hk).
  eexists. split; [reflexivity |]. repeat split.
Qed.

(** X5. What dispatch leaves alone.  Whatever the state of the guard and
    whatever the outcome, [process_voice_input] changes neither mapping of
    the registry, adds at most one text to the history and starts at most
    one thread; what was in the history and in the list of started threads
    stays as a prefix. *)
Theorem dispatch_never_edits_registry :
  forall start now text m,
    commands (snd (process_voice_input re_search start now text m)) = commands m /\
    custom_commands (snd (process_voice_input re_search start now text m))
      = custom_commands m /\
    (exists new,
        started (snd (process_voice_input re_search start now text m))
          = started m ++ new /\ (List.length new <= 1)%nat) /\
    (exists new,
        command_history (snd (process_voice_input re_search start now text m))
          = command_history m ++ new /\ (List.length new <= 1)%nat).
Proof.
  intros start now text m.
  destruct (is_processing m) eqn:E.
  - rewrite (rejected_while_processing re_search start now text m E). cbn [snd].
    split; [reflexivity |]. split; [reflexivity |].
    split; exists []; rewrite app_nil_r; split; auto.
  - rewrite (accepted_call re_search start now text m E).
    destruct (select re_search (custom_commands m ++ commands m) (normalize text))
      as [[[k c] |] | e]; cbn [snd].
    + destruct (after_hit_fields c (normalize text) start now (entered text m))
        as [A1 [A2 [A3 [A4 [A5 A6]]]]].
      cbn [commands custom_commands started command_history set_is_processing].
      rewrite A1, A4, A5, A6.
      cbn [commands custom_commands started command_history entered
             set_command_history set_is_processing].
      split; [reflexivity |]. split; [reflexivity |].
      split; eexists; (split; [reflexivity | cbn; lia]).
    + cbn [commands custom_commands started command_history entered
             set_command_history set_is_processing].
      split; [reflexivity |]. split; [reflexivity |].
      split; [exists []; rewrite app_nil_r; split; auto |].
      eexists; split; [reflexivity | cbn; lia].
    + cbn [commands custom_commands started command_history entered
             set_command_history set_is_processing].
      split; [reflexivity |]. split; [reflexivity |].
      split; [exists []; rewrite app_nil_r; split; auto |].
      eexists; split; [reflexivity | cbn; lia].
Qed.

(** X6. Registering a custom pattern again.  When the custom pattern at
    which a text stops is registered once more with another handler, the new
    command takes the old one's place in the scan: the same text now starts
    one thread, for the new handler. *)
Theorem reregistration_replaces_handler_in_place :
  forall start now text m pre k c post h d pr rc cat,
    is_processing m = false ->
    custom_commands m = pre ++ (k, c) :: post ->
    ~ In k (dict_keys pre) ->
    Forall (fun x => _match_pattern re_search (fst x) (normalize text)
                     = Returned false) pre ->
    _match_pattern re_search k (normalize text) = Returned true ->
    custom_commands (add_custom_command k h d pr rc cat m)
      = pre ++ (k, {| pattern := k; handler := h; description := d;
                      priority := pr; requires_confirmation := rc;
                      category := cat |}) :: post /\
    exists m',
      process_voice_input re_search start now text
        (add_custom_command k h d pr rc cat m) = (Returned true, m') /\
      started m' = started m ++ [(h, normalize text)].
Proof.
  intros start now text m pre k c post h d pr rc cat Hfree Hsplit Hout Hpre Hk.
  assert (custom_commands (add_custom_command k h d pr rc cat m)
          = pre ++ (k, {| pattern := k; handler := h; description := d;
                          priority := pr; requires_confirmation := rc;
                          category := cat |}) :: post) as Hnew.
  { unfold add_custom_command. cbn [custom_commands set_custom_commands].
    rewrite Hsplit. apply dict_set_in_place. exact Hout. }
  split; [exact Hnew |].
  rewrite accepted_call by exact Hfree.
  rewrite Hnew, <- app_assoc. cbn [app].
  rewrite (select_first re_search pre k _ _ (normalize text) Hpre Hk).
  eexists. split; [reflexivity |].
  cbn [started set_is_processing].
  match goal with
  | |- started (after_hit ?c ?t ?s ?n ?e) = _ =>
      destruct (after_hit_fields c t s n e) as [Hs _]; rewrite Hs
  end.
  reflexivity.
Qed.

End DispatchMore.

(** ** Sequences of calls *)

Section SequentialUse.

Import VoiceCommands.

Variable re_search : string -> string -> result bool.

(** An accepted call, field by field. *)
Lemma accepted_call_fields :
  forall start now text m,
    is_processing m = false ->
    let m' := snd (process_voice_input re_search start now text m) in
    commands m' = commands m /\
    custom_commands m' = custom_commands m /\
    is_processing m' = false /\
    command_history m' = command_history m ++ [normalize text] /\
    (response_times m' = response_times m \/
     response_times m' = push_sample (now - start) (response_times m)) /\
    (started m' = started m \/
     exists h, started m' = started m ++ [(h, normalize text)]).
Proof.
  intros start now text m Hfree. cbv zeta.
  rewrite (accepted_call re_search start now text m Hfree).
  destruct (select re_search (custom_commands m ++ commands m) (normalize text))
    as [[[k c] |] | e]; cbn [snd].
  - destruct (after_hit_fields c (normalize text) start now (entered text m))
      as [A1 [A2 [A3 [A4 [A5 A6]]]]].
    cbn [commands custom_commands started command_history response_times
           is_processing set_is_processing].
    rewrite A1, A2, A4, A5, A6.
    cbn [commands custom_commands started command_history response_times entered
           set_command_history set_is_processing].
    repeat (split; [reflexivity |]).
    split; [right; reflexivity | right; exists (handler c); reflexivity].
  - cbn [commands custom_commands started command_history response_times
           is_processing entered set_command_history set_is_processing].
    repeat (split; [reflexivity |]). split; left; reflexivity.
  - cbn [commands custom_commands started command_history response_times
           is_processing entered set_command_history set_is_processing].
    repeat (split; [reflexivity |]). split; left; reflexivity.
Qed.

Lemma step_keeps_tidy :
  forall c m,
    tidy m ->
    tidy (step re_search c m) /\
    List.length (command_history (step re_search c m))
      = (List.length (command_history m) + (if is_process c then 1 else 0))%nat /\
    (List.length (started (step re_search c m))
       <= List.length (started m) + (if is_process c then 1 else 0))%nat.
Proof.
  intros c m [Hfree [Hlen [Hb Hc]]].
  destruct c as [p h d pr rc cat | p h d pr rc cat | start now text];
    cbn [step is_process].
  - unfold tidy, add_command.
    cbn [commands custom_commands is_processing response_times command_history
           started set_commands].
    repeat split; try assumption; try lia.
    apply dict_set_keys_nodup. exact Hb.
  - unfold tidy, add_custom_command.
    cbn [commands custom_commands is_processing response_times command_history
           started set_custom_commands].
    repeat split; try assumption; try lia.
    apply dict_set_keys_nodup. exact Hc.
  - destruct (accepted_call_fields start now text m Hfree)
      as [F1 [F2 [F3 [F4 [F5 F6]]]]].
    unfold tidy. rewrite F1, F2, F3, F4.
    split.
    + split; [reflexivity |]. split; [| split; assumption].
      destruct F5 as [F5 | F5]; rewrite F5; [exact Hlen |].
      rewrite push_sample_length. lia.
    + split; [rewrite length_app; reflexivity |].
      destruct F6 as [F6 | [h F6]]; rewrite F6; [lia |].
      rewrite length_app. cbn. lia.
Qed.

Lemma run_keeps_tidy :
  forall cs m,
    tidy m ->
    tidy (run re_search cs m) /\
    List.length (command_history (run re_search cs m))
      = (List.length (command_history m) + List.length (filter is_process cs))%nat /\
    (List.length (started (run re_search cs m))
       <= List.length (started m) + List.length (filter is_process cs))%nat.
Proof.
  induction cs as [| c cs IH]; intros m Hm.
  - cbn. split; [exact Hm | lia].
  - destruct (step_keeps_tidy c m Hm) as [Hm' [Hh Hs]].
    destruct (IH _ Hm') as [Hfinal [Hh' Hs']].
    change (run re_search (c :: cs) m) with (run re_search cs (step re_search c m)).
    split; [exact Hfinal |].
    cbn [filter]. destruct (is_process c); cbn [List.length] in *; lia.
Qed.

Lemma fresh_manager_is_tidy : tidy __init__.
Proof.
  unfold tidy. split; [reflexivity |]. split; [cbn; lia |].
  split; [| constructor].
  unfold __init__, _setup_default_commands, add_command.
  cbn [commands set_commands].
  repeat apply dict_set_keys_nodup. constructor.
Qed.

(** X7. Sequential use never locks the manager.  After any sequence of
    registrations and dispatch calls on a fresh manager, made one after the
    other by a caller that survives the exceptions, the guard is clear, so
    no call of the sequence was turned away: the history has one entry per
    dispatch call.  At most one thread was started per dispatch call, the
    buffer holds at most 100 samples and neither mapping has a pattern
    twice. *)
Theorem sequential_use_never_locks :
  forall cs,
    tidy (run re_search cs __init__) /\
    List.length (command_history (run re_search cs __init__))
      = List.length (filter is_process cs) /\
    (List.length (started (run re_search cs __init__))
       <= List.length (filter is_process cs))%nat.
Proof.
  intro cs.
  destruct (run_keeps_tidy cs __init__ fresh_manager_is_tidy) as [H1 [H2 H3]].
  split; [exact H1 |]. split; [exact H2 | exact H3].
Qed.

End SequentialUse.

(** ** Patterns with an empty alternative *)

Section EmptyAlternative.

Import VoiceCommands.

Variable re_search : string -> string -> result bool.

Lemma split_not_nil : forall sep s, split sep s <> [].
Proof.
  intros sep s. destruct s as [| c s]; cbn [split]; [discriminate |].
  destruct (Ascii.eqb c sep); [discriminate |].
  destruct (split sep s); discriminate.
Qed.

Lemma split_trailing_separator :
  forall sep s,
    split sep (s ++ String sep EmptyString)%string = split sep s ++ [EmptyString].
Proof.
  intros sep. induction s as [| c s IH].
  - cbn. rewrite Ascii.eqb_refl. reflexivity.
  - cbn [String.append split]. destruct (Ascii.eqb c sep).
    + rewrite IH. reflexivity.
    + rewrite IH. destruct (split sep s) as [| w ws] eqn:E.
      * exfalso. exact (split_not_nil sep s E).
      * reflexivity.
Qed.

Lemma any_search_reaches :
  forall ps p rest text,
    Forall (fun q => exists b, re_search (strip q) text = Returned b) ps ->
    re_search (strip p) text = Returned true ->
    any_search re_search (ps ++ p :: rest) text = Returned true.
Proof.
  induction ps as [| q ps IH]; intros p rest text Hwf Hp.
  - cbn [app any_search]. rewrite Hp. reflexivity.
  - inversion Hwf as [| ? ? [b Hb] Hrest]; subst.
    cbn [app any_search]. rewrite Hb. destruct b; [reflexivity |].
    apply IH; assumption.
Qed.

(** X8. A trailing bar.  [re.search] finds the empty pattern in every
    text, so a pattern that ends in a bar has an empty last alternative and
    matches whatever is said: registered first among the custom commands, it
    takes every accepted call. *)
Theorem trailing_bar_matches_every_text :
  forall start now text m pattern c rest,
    re_search "" (normalize text) = Returned true ->
    well_formed re_search pattern (normalize text) ->
    is_processing m = false ->
    custom_commands m = ((pattern ++ "|")%string, c) :: rest ->
    _match_pattern re_search (pattern ++ "|")%string (normalize text)
      = Returned true /\
    exists m',
      process_voice_input re_search start now text m = (Returned true, m') /\
      started m' = started m ++ [(handler c, normalize text)].
Proof.
  intros start now text m pattern c rest Hempty Hwf Hfree Hcustom.
  assert (_match_pattern re_search (pattern ++ "|")%string (normalize text)
          = Returned true) as Hhit.
  { unfold _match_pattern.
    change "|"%string with (String "|"%char EmptyString).
    rewrite split_trailing_separator.
    apply any_search_reaches; [exact Hwf | exact Hempty]. }
  split; [exact Hhit |].
  rewrite (accepted_call re_search start now text m Hfree), Hcustom.
  change ((((pattern ++ "|")%string, c) :: rest) ++ commands m)
    with ([] ++ ((pattern ++ "|")%string, c) :: (rest ++ commands m)).
  rewrite (select_first re_search [] _ c (rest ++ commands m) (normalize text)
             (Forall_nil _) Hhit).
  eexists. split; [reflexivity |].
  cbn [started set_is_processing].
  destruct (after_hit_fields c (normalize text) start now (entered text m))
    as [Hs _].
  rewrite Hs. reflexivity.
Qed.

End EmptyAlternative.

(** ** The average *)

Section AverageFacts.

Import VoiceCommands.

Lemma count_succ :
  forall n : nat, inject_Z (Z.of_nat (S n)) == inject_Z (Z.of_nat n) + 1.
Proof.
  intro n. rewrite Nat2Z.inj_succ. unfold Z.succ.
  rewrite inject_Z_plus. reflexivity.
Qed.

Lemma sum_between :
  forall (lo hi : Q) (l : list Q),
    Forall (fun x => lo <= x /\ x <= hi) l ->
    lo * inject_Z (Z.of_nat (List.length l)) <= fold_right Qplus 0 l /\
    fold_right Qplus 0 l <= hi * inject_Z (Z.of_nat (List.length l)).
Proof.
  intros lo hi. induction l as [| x l IH]; intro H.
  - cbn. split; rewrite Qmult_0_r; apply Qle_refl.
  - inversion H as [| ? ? [Hlo Hhi] Hrest]; subst.
    destruct (IH Hrest) as [IHlo IHhi].
    cbn [List.length fold_right]. rewrite count_succ.
    split.
    + setoid_replace (lo * (inject_Z (Z.of_nat (List.length l)) + 1))
        with (lo + lo * inject_Z (Z.of_nat (List.length l))) by ring.
      apply Qplus_le_compat; assumption.
    + setoid_replace (hi * (inject_Z (Z.of_nat (List.length l)) + 1))
        with (hi + hi * inject_Z (Z.of_nat (List.length l))) by ring.
      apply Qplus_le_compat; assumption.
Qed.

(** X9. The average lies between the samples.  On a buffer that is not
    empty, [get_average_response_time] is at least the smallest and at most
    the largest sample: bounds that hold of every sample hold of it. *)
Theorem average_between_extremes :
  forall (m : VoiceCommandManager) (lo hi : Q),
    response_times m <> [] ->
    Forall (fun x => lo <= x /\ x <= hi) (response_times m) ->
    lo <= get_average_response_time m /\ get_average_response_time m <= hi.
Proof.
  intros m lo hi Hne Hall.
  rewrite average_is_mean. unfold mean.
  destruct (response_times m) as [| x l] eqn:E; [congruence |].
  destruct (sum_between lo hi (x :: l) Hall) as [Hlo Hhi].
  assert (0 < inject_Z (Z.of_nat (List.length (x :: l)))) as Hpos.
  { rewrite <- (Zlt_Qlt 0). cbn [List.length]. lia. }
  split.
  - apply Qle_shift_div_l; assumption.
  - apply Qle_shift_div_r; assumption.
Qed.

End AverageFacts.

(** ** More on the speech queue *)

Section QueueFacts.

Import FastTTS.

Variable Env : Type.

(** What a request adds to the trace. *)
Lemma process_request_trace :
  forall (o : io) (r : request Env) (env : Env) (s : FastTTSService Env),
    exists new,
      _process_tts_request o r (env, s)
      = (Returned tt, (after_callback r env, set_trace (trace s ++ new) s)) /\
      filter is_generate new = [EvGenerate (ssml_of r)] /\
      filter is_play new
      = match generated o with
        | Returned (b :: bs) => [EvPlay (b :: bs)]
        | _ => []
        end /\
      filter is_callback new
      = match req_callback r with
        | Some _ => [EvCallback]
        | None => []
        end.
Proof.
  intros o r env s.
  unfold _process_tts_request, _generate_audio, _play_audio, call_callback,
    after_callback, has_audio, ssml_of, emit, self, outside, zoom, try_except,
    bind, modify, gets, ret, lift.
  cbn [fst snd].
  destruct (generated o) as [[| b bs] | eg];
    destruct (req_callback r) as [f |];
    try destruct (pygame_played o) as [[] | ep];
    try destruct ep;
    try destruct (fallback_played o) as [[] | ef];
    cbn [fst snd];
    try (destruct (f env) as [[[] | ec] env']);
    cbn [fst snd];
    unfold set_trace; cbn [trace is_available voice_queue is_speaking
                             current_voice rate pitch volume];
    rewrite <- ?app_assoc;
    eexists; (split; [reflexivity | cbn; repeat split]).
Qed.

Lemma fresh_pass_trace :
  forall (o : io) (env : Env) (s : FastTTSService Env) r rest,
    voice_queue s = r :: rest ->
    Qltb 5 (now o - req_timestamp r) = false ->
    exists new,
      worker_pass o (env, s)
      = (Returned tt,
         (after_callback r env,
          set_is_speaking false
            (set_trace (trace s ++ new) (set_voice_queue rest s)))) /\
      filter is_generate new = [EvGenerate (ssml_of r)] /\
      filter is_play new
      = match generated o with
        | Returned (b :: bs) => [EvPlay (b :: bs)]
        | _ => []
        end /\
      filter is_callback new
      = match req_callback r with
        | Some _ => [EvCallback]
        | None => []
        end.
Proof.
  intros o env s r rest Hq Htest.
  destruct (process_request_trace o r env
              (set_is_speaking true (set_voice_queue rest s)))
    as [new [Hrun Hnew]].
  exists new. split; [| exact Hnew].
  unfold worker_pass, queue_get, try_except.
  unfold bind at 1. unfold bind at 1.
  unfold self at 1, zoom, gets. cbn [fst snd]. rewrite Hq.
  unfold bind at 1, self at 1, zoom, modify, ret. cbn [fst snd].
  rewrite Htest.
  unfold bind at 1, self at 1, zoom. cbn [fst snd].
  unfold bind at 1. rewrite Hrun.
  unfold self, zoom. cbn [fst snd]. reflexivity.
Qed.

Lemma taken_fresh_nil :
  forall (os : list io), taken_fresh os (@nil (request Env)) = [].
Proof. intro os. unfold taken_fresh. rewrite combine_nil. reflexivity. Qed.

Lemma worker_step :
  forall (o : io) (os : list io) (w w' : World Env),
    worker_pass o w = (Returned tt, w') ->
    _tts_worker (o :: os) w = _tts_worker os w'.
Proof.
  intros o os w w' Hrun. cbn [_tts_worker]. unfold bind. rewrite Hrun. reflexivity.
Qed.

(** The trace and the queue after any number of passes. *)
Lemma worker_trace_and_queue :
  forall (os : list io) (env : Env) (s : FastTTSService Env),
    filter is_generate (trace (snd (snd (_tts_worker os (env, s)))))
    = filter is_generate (trace s)
      ++ map (fun r => EvGenerate (ssml_of r)) (taken_fresh os (voice_queue s)) /\
    voice_queue (snd (snd (_tts_worker os (env, s))))
    = skipn (List.length os) (voice_queue s).
Proof.
  induction os as [| o os IH]; intros env s.
  - cbn. rewrite app_nil_r. split; reflexivity.
  - destruct (voice_queue s) as [| r rest] eqn:Hq.
    + rewrite (worker_step o os _ _ (pass_on_empty_queue Env o env s Hq)).
      destruct (IH env s) as [Ht Hv]. rewrite Ht, Hv, Hq.
      rewrite !taken_fresh_nil, skipn_nil. split; reflexivity.
    + destruct (Qltb 5 (now o - req_timestamp r)) eqn:E.
      * assert (stale o r) as Hstale by (apply stale_test; exact E).
        rewrite (worker_step o os _ _
                   (pass_on_stale_request Env o env s r rest Hq Hstale)).
        destruct (IH env (set_voice_queue rest s)) as [Ht Hv].
        rewrite Ht, Hv. cbn [trace voice_queue set_voice_queue].
        unfold taken_fresh. cbn [combine filter fst snd]. rewrite E.
        cbn [negb skipn List.length]. split; reflexivity.
      * destruct (fresh_pass_trace o env s r rest Hq E) as [new [Hrun [Hg _]]].
        rewrite (worker_step o os _ _ Hrun).
        destruct (IH (after_callback r env)
                    (set_is_speaking false
                       (set_trace (trace s ++ new) (set_voice_queue rest s))))
          as [Ht Hv].
        rewrite Ht, Hv.
        cbn [trace voice_queue set_voice_queue set_trace set_is_speaking].
        rewrite filter_app, Hg.
        unfold taken_fresh. cbn [combine filter fst snd]. rewrite E.
        cbn [negb map snd skipn List.length]. rewrite <- app_assoc.
        split; reflexivity.
Qed.



(** X13. Playback needs audio.  A pass over a request that is not stale
    hands audio to the player exactly when synthesis returned a non-empty
    byte string, and then once, with those bytes; when synthesis raised or
    returned nothing, nothing is played. *)
Theorem playback_only_of_synthesized_audio :
  forall (o : io) (env : Env) (s : FastTTSService Env) r rest,
    voice_queue s = r :: rest ->
    ~ stale o r ->
    filter is_play (trace (snd (snd (worker_pass o (env, s)))))
    = filter is_play (trace s)
      ++ match generated o with
         | Returned (b :: bs) => [EvPlay (b :: bs)]
         | _ => []
         end.
Proof.
  intros o env s r rest Hq Hfresh.
  assert (Qltb 5 (now o - req_timestamp r) = false) as Htest.
  { destruct (Qltb 5 (now o - req_timestamp r)) eqn:E; [| reflexivity].
    apply stale_test in E. contradiction. }
  destruct (fresh_pass_trace o env s r rest Hq Htest) as [new [Hrun [_ [Hp _]]]].
  rewrite Hrun. cbn [fst snd trace set_is_speaking set_trace].
  rewrite filter_app, Hp. reflexivity.
Qed.


Lemma speak_enqueues :
  forall stamp text voice rate_arg pitch_arg volume_arg callback env
         (s : FastTTSService Env),
    is_available s = true ->
    speak stamp text voice rate_arg pitch_arg volume_arg callback (env, s)
    = (Returned tt,
       (env,
        set_voice_queue
          (voice_queue s
           ++ [built_request stamp text voice rate_arg pitch_arg volume_arg
                 callback s])
          s)).
Proof.
  intros stamp text voice rate_arg pitch_arg volume_arg callback env s Ha.
  unfold speak, built_request, self, zoom, bind, gets, modify. cbn [fst snd].
  rewrite Ha. reflexivity.
Qed.


(** X15. Speaking at once.  On an available service [speak_immediate]
    leaves exactly its own request on the queue, whether or not stopping the
    mixer worked: what was pending is discarded with its callbacks uncalled,
    the process and [is_speaking] are untouched, and the only document the
    worker can send to the engine afterwards is the new request's. *)
Theorem speak_immediate_discards_pending :
  forall stamp stopped text voice (env : Env) (s : FastTTSService Env),
    is_available s = true ->
    exists w',
      speak_immediate stamp stopped text voice (env, s) = (Returned tt, w') /\
      fst w' = env /\
      voice_queue (snd w')
        = [built_request stamp text voice None None None None s] /\
      is_speaking (snd w') = is_speaking s /\
      filter is_callback (trace (snd w')) = filter is_callback (trace s) /\
      filter is_generate (trace (snd w')) = filter is_generate (trace s) /\
      forall os,
        filter is_generate (trace (snd (snd (_tts_worker os w'))))
        = filter is_generate (trace s)
          ++ map (fun r => EvGenerate (ssml_of r))
                 (taken_fresh os
                    [built_request stamp text voice None None None None s]).
Proof.
  intros stamp stopped text voice env s Ha.
  assert (exists tr,
             speak_immediate stamp stopped text voice (env, s)
             = (Returned tt,
                (env,
                 set_voice_queue
                   [built_request stamp text voice None None None None s]
                   (set_trace (trace s ++ tr) s))) /\
             tr = [EvStop]) as [tr [Hrun Htr]].
  { exists [EvStop]. split; [| reflexivity].
    unfold speak_immediate.
    unfold bind at 1, self at 1, zoom, gets. cbn [fst snd]. rewrite Ha.
    unfold bind at 1, _clear_queue, self at 1, zoom, modify. cbn [fst snd].
    unfold bind at 1, _stop_current_speech, try_except, bind at 1, emit,
      self at 1, zoom, modify, lift, ret.
    cbn [fst snd].
    destruct stopped as [[] | e]; rewrite speak_enqueues by exact Ha;
      reflexivity. }
  subst tr. eexists. split; [exact Hrun |]. cbn [fst snd].
  split; [reflexivity |]. split; [reflexivity |]. split; [reflexivity |].
  cbn [trace set_voice_queue set_trace].
  split; [rewrite filter_app, app_nil_r; reflexivity |].
  split; [rewrite filter_app, app_nil_r; reflexivity |].
  intro os.
  match goal with
  | |- context [_tts_worker os (?e, ?st)] =>
      destruct (worker_trace_and_queue os e st) as [Ht _]
  end.
  rewrite Ht. cbn [trace voice_queue set_voice_queue set_trace].
  rewrite filter_app, app_nil_r. reflexivity.
Qed.

(** X16. Speaking without an engine.  When the engine is not available
    [speak] queues nothing: it prints the text and calls the callback, if
    any, at once and unprotected, so the caller gets what the callback
    returns or raises and the process is as the callback left it. *)
Theorem speak_without_engine_calls_back_at_once :
  forall stamp text voice rate_arg pitch_arg volume_arg callback (env : Env)
         (s : FastTTSService Env),
    is_available s = false ->
    voice_queue
      (snd (snd (speak stamp text voice rate_arg pitch_arg volume_arg callback
                   (env, s))))
    = voice_queue s /\
    filter is_generate
      (trace (snd (snd (speak stamp text voice rate_arg pitch_arg volume_arg
                          callback (env, s)))))
    = filter is_generate (trace s) /\
    match callback with
    | Some f =>
        fst (speak stamp text voice rate_arg pitch_arg volume_arg callback (env, s))
          = fst (f env) /\
        fst (snd (speak stamp text voice rate_arg pitch_arg volume_arg callback
                    (env, s)))
          = snd (f env)
    | None =>
        speak stamp text voice rate_arg pitch_arg volume_arg callback (env, s)
        = (Returned tt,
           (env, set_trace (trace s ++ [EvPrint ("[TTS] " ++ text)%string]) s))
    end.
Proof.
  intros stamp text voice rate_arg pitch_arg volume_arg callback env s Ha.
  unfold speak, call_callback, emit, self, outside, zoom, bind, gets, modify, ret.
  cbn [fst snd]. rewrite Ha. cbn [fst snd].
  destruct callback as [f |]; cbn [fst snd].
  - destruct (f env) as [[[] | e] env']; cbn [fst snd voice_queue trace set_trace];
      rewrite ?filter_app, ?app_nil_r; repeat split.
  - cbn [voice_queue trace set_trace]. rewrite filter_app, app_nil_r.
    repeat split.
Qed.

(** X22. Settings and the queue.  A request queued without a rate of its
    own carries the rate set before it was queued, and likewise the voice,
    the pitch and the volume.  Setting any of the four later changes nothing
    for what is already queued: over the same passes the worker sends the
    engine the same documents. *)
Theorem settings_reach_later_requests_only :
  forall (value : string) (stamp : Q) (text : string) (os : list io) (env : Env)
         (s : FastTTSService Env),
    is_available s = true ->
    (voice_queue (snd (snd (speak stamp text None None None None None
                              (env, set_rate value s))))
       = voice_queue s
         ++ [built_request stamp text None None None None None
               (set_rate value s)] /\
     req_rate (built_request stamp text None None None None None
                 (set_rate value s)) = value /\
     req_voice (built_request stamp text None None None None None
                  (set_voice value s)) = value /\
     req_pitch (built_request stamp text None None None None None
                  (set_pitch value s)) = value /\
     req_volume (built_request stamp text None None None None None
                   (set_volume value s)) = value) /\
    (forall changed,
        changed = set_voice value s \/ changed = set_rate value s \/
        changed = set_pitch value s \/ changed = set_volume value s ->
        filter is_generate (trace (snd (snd (_tts_worker os (env, changed)))))
        = filter is_generate (trace (snd (snd (_tts_worker os (env, s)))))).
Proof.
  intros value stamp text os env s Ha. split.
  - split.
    + rewrite speak_enqueues by exact Ha. reflexivity.
    + repeat split.
  - intros changed Hc.
    destruct (worker_trace_and_queue os env changed) as [Ht _].
    destruct (worker_trace_and_queue os env s) as [Ht' _].
    rewrite Ht, Ht'.
    destruct Hc as [Hc | [Hc | [Hc | Hc]]]; subst changed; reflexivity.
Qed.

End QueueFacts.

(** ** More on [media_services.py] *)

Section MediaFacts.

Import MediaServices.

Lemma estimate_by_words :
  forall text,
    _estimate_tts_duration text
    = Qmax (6 # 10)
           (inject_Z (Z.of_nat (List.length (split_ws text))) / (28 # 10)).
Proof. reflexivity. Qed.

Lemma Qmax_lower : forall a b, a <= Qmax a b.
Proof.
  intros a b. unfold Qmax. destruct (Qle_bool a b) eqn:E.
  - apply Qle_bool_iff. exact E.
  - apply Qle_refl.
Qed.

Lemma words_over_rate :
  forall n : nat,
    inject_Z (Z.of_nat n) / (28 # 10) == inject_Z (Z.of_nat n) * (10 # 28).
Proof. intro n. unfold Qdiv. reflexivity. Qed.

(** X17. The estimated duration.  The estimate is never under 0.6 s; for
    a text of two words or more it is the word count over 2.8 words a
    second; for a text of at most one word, the empty text included, it is
    0.6 s. *)
Theorem estimate_bounds :
  forall text,
    6 # 10 <= _estimate_tts_duration text /\
    ((2 <= List.length (split_ws text))%nat ->
     _estimate_tts_duration text
       == inject_Z (Z.of_nat (List.length (split_ws text))) / (28 # 10)) /\
    ((List.length (split_ws text) <= 1)%nat ->
     _estimate_tts_duration text == 6 # 10).
Proof.
  intro text. rewrite estimate_by_words.
  set (n := List.length (split_ws text)).
  split; [apply Qmax_lower |].
  split.
  - intro Hn. unfold Qmax.
    destruct (Qle_bool (6 # 10) (inject_Z (Z.of_nat n) / (28 # 10))) eqn:E;
      [reflexivity |].
    exfalso.
    assert (6 # 10 <= inject_Z (Z.of_nat n) / (28 # 10)) as Hle.
    { rewrite words_over_rate. unfold Qle, Qmult, inject_Z. cbn [Qnum Qden].
      nia. }
    apply Qle_bool_iff in Hle. congruence.
  - intro Hn. unfold Qmax.
    destruct (Qle_bool (6 # 10) (inject_Z (Z.of_nat n) / (28 # 10))) eqn:E;
      [| reflexivity].
    apply Qle_bool_iff in E. rewrite words_over_rate in E.
    unfold Qle, Qmult, inject_Z in E. cbn [Qnum Qden] in E.
    exfalso. nia.
Qed.


(** *** The music taste *)

Lemma not_in_spec :
  forall song taste, not_in song taste = true <-> ~ In song taste.
Proof.
  intros song taste. unfold not_in. rewrite negb_true_iff. split.
  - intros H Hin. assert (existsb (String.eqb song) taste = true) as Ht.
    { apply existsb_exists. exists song. split; [exact Hin | apply String.eqb_refl]. }
    congruence.
  - intro Hout. destruct (existsb (String.eqb song) taste) eqn:E; [| reflexivity].
    apply existsb_exists in E. destruct E as [x [Hx Heq]].
    apply String.eqb_eq in Heq. subst x. contradiction.
Qed.

(** X19. The taste list.  [add_to_taste] keeps the list free of repeats
    and at most 50 long.  A song that is new and not the empty string goes
    to the end, the oldest entry leaving when that makes 51; a song already
    listed, or the empty string, changes nothing; and no other song ever
    enters. *)
Theorem taste_stays_bounded_and_distinct :
  forall (song : string) (m : MusicService),
    NoDup (music_taste m) ->
    (List.length (music_taste m) <= 50)%nat ->
    NoDup (music_taste (add_to_taste song m)) /\
    (List.length (music_taste (add_to_taste song m)) <= 50)%nat /\
    (song <> "" -> In song (music_taste (add_to_taste song m))) /\
    (forall x, In x (music_taste (add_to_taste song m)) ->
               x = song \/ In x (music_taste m)) /\
    (In song (music_taste m) \/ song = "" -> add_to_taste song m = m) /\
    (~ In song (music_taste m) -> song <> "" ->
     (List.length (music_taste m) < 50)%nat ->
     music_taste (add_to_taste song m) = music_taste m ++ [song]) /\
    (~ In song (music_taste m) -> song <> "" ->
     List.length (music_taste m) = 50%nat ->
     music_taste (add_to_taste song m) = tl (music_taste m) ++ [song]).
Proof.
  intros song [taste] Hnd Hlen. cbn [music_taste] in *.
  unfold add_to_taste. cbn [music_taste].
  destruct (truthy song) eqn:Et; cbn [andb].
  2:{ assert (song = "") as Hs by (destruct song; [reflexivity | discriminate]).
      cbn [music_taste].
      repeat split; try assumption; try tauto; try congruence. }
  assert (song <> "") as Hne by (intro H; subst song; discriminate).
  destruct (not_in song taste) eqn:En.
  2:{ assert (In song taste) as Hin.
      { destruct (in_dec string_dec song taste) as [H | H]; [exact H |].
        apply not_in_spec in H. congruence. }
      cbn [music_taste].
      repeat split; try assumption; try tauto. }
  apply not_in_spec in En.
  assert (NoDup (taste ++ [song])) as Hnd'.
  { apply NoDup_app; [exact Hnd | repeat constructor; intros [] |].
    intros x Hx [Hs | []]. subst x. exact (En Hx). }
  destruct (50 <? List.length (taste ++ [song]))%nat eqn:E; cbn [music_taste].
  - apply Nat.ltb_lt in E. rewrite length_app in E. cbn [List.length] in E.
    destruct taste as [| x rest]; [cbn in E; lia |].
    cbn [app tl] in *. inversion Hnd' as [| ? ? Hx Hrest]; subst.
    cbn [List.length] in *.
    split; [exact Hrest |].
    split; [rewrite length_app; cbn; lia |].
    split; [intros _; apply in_or_app; right; left; reflexivity |].
    split.
    { intros y Hy. apply in_app_or in Hy. destruct Hy as [Hy | [Hy | []]].
      - right. right. exact Hy.
      - left. symmetry. exact Hy. }
    split; [intros [H | H]; [contradiction | congruence] |].
    split; [intros _ _ H; lia | intros _ _ _; reflexivity].
  - apply Nat.ltb_ge in E. rewrite length_app in E. cbn [List.length] in E.
    split; [exact Hnd' |].
    split; [rewrite length_app; cbn; lia |].
    split; [intros _; apply in_or_app; right; left; reflexivity |].
    split.
    { intros y Hy. apply in_app_or in Hy. destruct Hy as [Hy | [Hy | []]].
      - right. exact Hy.
      - left. symmetry. exact Hy. }
    split; [intros [H | H]; [contradiction | congruence] |].
    split; [intros _ _ _; reflexivity | intros _ _ H; lia].
Qed.

End MediaFacts.

(** *** The volume commands *)

Section VolumeFacts.

Import MediaServices.

Lemma contains_cons :
  forall p c s, contains p s = true -> contains p (String c s) = true.
Proof.
  intros p c s H. cbn [contains]. rewrite H. apply orb_true_r.
Qed.

Lemma contains_of_startswith :
  forall p s, startswith s p = true -> contains p s = true.
Proof.
  intros p s H. destruct s; cbn [contains]; rewrite H; reflexivity.
Qed.

(** Whatever mentions "unmute" mentions "mute". *)
Lemma unmute_mentions_mute :
  forall command, contains "unmute" command = true -> contains "mute" command = true.
Proof.
  induction command as [| a s IH]; intro H.
  - discriminate.
  - cbn [contains] in H. apply orb_true_iff in H. destruct H as [H | H].
    + destruct s as [| b s2]; [cbn in H; rewrite andb_false_r in H; discriminate |].
      cbn [startswith] in H.
      apply andb_true_iff in H. destruct H as [_ H].
      apply andb_true_iff in H. destruct H as [_ H].
      apply contains_cons, contains_cons, contains_of_startswith. exact H.
    + apply contains_cons. apply IH. exact H.
Qed.

(** X20. The volume commands.  [adjust_volume] never raises: what the
    subprocess raises is handled once as "Volume control".  It starts at
    most one subprocess per call, and on no system and for no command is
    that the unmute call: a command that mentions "unmute" mentions "mute",
    whose branch comes first, so on Windows, with neither "up" nor "down" in
    it, it mutes. *)
Theorem unmute_is_never_issued :
  forall (system : Platform) (ran : result unit) (command : string)
         (v : VolumeService),
    fst (adjust_volume system ran command v) = Returned tt /\
    (exists new,
        spawned (snd (adjust_volume system ran command v)) = spawned v ++ new /\
        (List.length new <= 1)%nat /\
        ~ In unmute_call new) /\
    (system = Windows ->
     contains "unmute" command = true ->
     contains "up" command = false ->
     contains "down" command = false ->
     spawned (snd (adjust_volume system ran command v)) = spawned v ++ [mute_call]).
Proof.
  intros system ran command v.
  assert (contains "mute" command = false -> contains "unmute" command = false)
    as Hmute.
  { intro H. destruct (contains "unmute" command) eqn:E; [| reflexivity].
    apply unmute_mentions_mute in E. congruence. }
  unfold adjust_volume, subprocess_run, try_except, bind, modify, lift, ret,
    unmute_call, mute_call.
  destruct system;
    destruct (contains "up" command) eqn:Eup;
    try destruct (contains "down" command) eqn:Edown;
    try destruct (contains "mute" command) eqn:Em;
    try rewrite (Hmute eq_refl);
    destruct ran as [[] | e]; cbn [fst snd spawned handled];
    (split; [reflexivity |]);
    (split;
     [ first [ exists []; rewrite app_nil_r; split; [reflexivity |];
               split; [cbn; lia | intros []]
             | eexists; split; [reflexivity |];
               split; [cbn; lia | intros [H | []]; discriminate H] ]
     | intros Hs Hun Hu Hd; try discriminate; try congruence; try reflexivity ]).
Qed.

End VolumeFacts.

(** ** More on the listener *)

Section ListenerMore.

Import Rose.

Variable recognize_google : AudioData -> result string.

Lemma blank_text :
  forall text, truthy text && truthy (strip text) = truthy (strip text).
Proof.
  intro text. destruct text; [reflexivity |]. reflexivity.
Qed.

(** X21. What the callback does with a capture.  With the flag down the
    callback hands the audio to the recognizer once and never raises.  A
    text that is not blank starts one [handle_command] thread, on the text
    as recognized; a blank text starts none.  [UnknownValueError] passes in
    silence; any other exception is handled once as "Voice recognition".
    The two speech services are not touched. *)
Theorem callback_outcomes :
  forall (audio : AudioData) (a : App),
    playing a = false ->
    fst (callback recognize_google audio a) = Returned tt /\
    transcribed (snd (callback recognize_google audio a))
      = transcribed a ++ [audio] /\
    tts_service (snd (callback recognize_google audio a)) = tts_service a /\
    fast_tts (snd (callback recognize_google audio a)) = fast_tts a /\
    match recognize_google audio with
    | Returned text =>
        dispatched (snd (callback recognize_google audio a))
          = dispatched a ++ (if truthy (strip text) then [text] else []) /\
        errors (snd (callback recognize_google audio a)) = errors a
    | Raised UnknownValueError =>
        dispatched (snd (callback recognize_google audio a)) = dispatched a /\
        errors (snd (callback recognize_google audio a)) = errors a
    | Raised e =>
        dispatched (snd (callback recognize_google audio a)) = dispatched a /\
        errors (snd (callback recognize_google audio a))
          = errors a ++ [(e, "Voice recognition")]
    end.
Proof.
  intros audio a Hquiet. unfold playing in Hquiet.
  unfold callback, bind, gets, try_except, modify, lift, ret.
  rewrite Hquiet.
  destruct (recognize_google audio) as [text | e]; cbn [fst snd].
  - rewrite blank_text.
    destruct (truthy (strip text));
      cbn [fst snd transcribed dispatched errors tts_service fast_tts
             set_dispatched set_transcribed];
      rewrite ?app_nil_r; repeat split.
  - destruct e;
      cbn [fst snd transcribed dispatched errors tts_service fast_tts
             set_errors set_transcribed];
      repeat split.
Qed.

End ListenerMore.

(** * Concrete runs of the further properties *)

Section MoreRuns.

Import VoiceCommands Scenario.

Ltac settle_pattern :=
  first [ apply well_formedb_true; vm_compute; reflexivity
        | apply matchesb_true; vm_compute; reflexivity
        | apply matchesb_false; vm_compute; reflexivity ].

Ltac settle_nodup :=
  repeat (apply NoDup_cons; [cbn; intuition discriminate |]); apply NoDup_nil.

(** The custom greeting is listed under "ai" in the place of the builtin
    one, which is gone from the listing. *)
Lemma category_listing_prefers_custom_run :
  In custom_greeting (get_commands_by_category "ai" with_custom_greeting) /\
  map handler (get_commands_by_category "ai" with_custom_greeting)
    = ["friendly_greeting"; "_handle_time"; "_handle_date"].
Proof.
  split; [| reflexivity].
  apply (category_listing_prefers_custom "ai" with_custom_greeting custom_greeting).
  - cbn. settle_nodup.
  - cbn. settle_nodup.
  - split; [reflexivity |].
    exists "hello|hi|hey|greetings". left. reflexivity.
Defined.

(** Nothing in the default registry answers "open the pod bay doors". *)
Lemma result_tells_whether_any_entry_matches_run :
  fst (process_voice_input Re.search 0 1 "open the pod bay doors" __init__)
    = Returned false /\
  started (snd (process_voice_input Re.search 0 1 "open the pod bay doors" __init__))
    = [].
Proof.
  destruct (result_tells_whether_any_entry_matches Re.search 0 1
              "open the pod bay doors" __init__) as [Hres Hquiet].
  - reflexivity.
  - cbn [custom_commands commands __init__ _setup_default_commands add_command
           set_commands dict_set String.eqb Ascii.eqb Bool.eqb app].
    repeat (apply Forall_cons; [settle_pattern |]). apply Forall_nil.
  - split; [exact Hres |].
    destruct (Hquiet eq_refl) as [Hs _]. exact Hs.
Defined.

(** The malformed custom pattern stops "hello" before the builtin greeting
    is reached. *)
Lemma malformed_pattern_aborts_dispatch_run :
  exists m',
    process_voice_input Re.search 0 1 "hello" with_bad_pattern
      = (Raised re_error, m') /\
    started m' = [] /\
    response_times m' = [] /\
    command_history m' = ["hello"] /\
    is_processing m' = false.
Proof.
  apply (malformed_pattern_aborts_dispatch Re.search 0 1 "hello" with_bad_pattern
           [] "*"
           {| pattern := "*"; handler := "never_reached";
              description := "Malformed pattern"; priority := NORMAL;
              requires_confirmation := false; category := "custom" |}
           (commands __init__) re_error).
  - reflexivity.
  - reflexivity.
  - apply Forall_nil.
  - reflexivity.
Defined.

(** Registering "play music" again hands the text to the new handler. *)
Lemma reregistration_replaces_handler_in_place_run :
  exists m',
    process_voice_input Re.search 0 1 "play music"
      (add_custom_command "play music" "other_player" "Play elsewhere" HIGH
         false "custom" with_custom_player) = (Returned true, m') /\
    started m' = [("other_player", "play music")].
Proof.
  destruct (reregistration_replaces_handler_in_place Re.search 0 1 "play music"
              with_custom_player [] "play music" custom_player []
              "other_player" "Play elsewhere" HIGH false "custom")
    as [_ Hrun].
  - reflexivity.
  - reflexivity.
  - intros [].
  - apply Forall_nil.
  - reflexivity.
  - exact Hrun.
Defined.

(** "volume up|" takes a text that has nothing to do with the volume. *)
Lemma trailing_bar_matches_every_text_run :
  _match_pattern Re.search "volume up|" "tell me a joke" = Returned true /\
  exists m',
    process_voice_input Re.search 0 1 "Tell me a joke" with_catch_all
      = (Returned true, m') /\
    started m' = [("louder", "tell me a joke")].
Proof.
  apply (trailing_bar_matches_every_text Re.search 0 1 "Tell me a joke"
           with_catch_all "volume up" catch_all []).
  - reflexivity.
  - settle_pattern.
  - reflexivity.
  - reflexivity.
Defined.

(** Samples of 1, 3 and 2 seconds: the average is 2, between 1 and 3. *)
Lemma average_between_extremes_run :
  1 <= get_average_response_time three_samples /\
  get_average_response_time three_samples <= 3.
Proof.
  apply (average_between_extremes three_samples 1 3).
  - discriminate.
  - repeat (apply Forall_cons; [split; vm_compute; discriminate |]).
    apply Forall_nil.
Defined.

(** Synthesis fails: nothing reaches the player.  Synthesis succeeds: the
    two bytes do. *)
Lemma playback_only_of_synthesized_audio_run :
  filter FastTTS.is_play
    (FastTTS.trace
       (snd (snd (FastTTS.worker_pass (pass_synthesis_fails 1)
                    (tt, queue_of [plain_request unit])))))
  = [] /\
  filter FastTTS.is_play
    (FastTTS.trace
       (snd (snd (FastTTS.worker_pass (pass_ok 1)
                    (tt, queue_of [plain_request unit])))))
  = [FastTTS.EvPlay [Byte.x49; Byte.x44]].
Proof.
  split.
  - apply (playback_only_of_synthesized_audio unit (pass_synthesis_fails 1) tt
             (queue_of [plain_request unit]) (plain_request unit) []).
    + reflexivity.
    + vm_compute. intro H. discriminate H.
  - apply (playback_only_of_synthesized_audio unit (pass_ok 1) tt
             (queue_of [plain_request unit]) (plain_request unit) []).
    + reflexivity.
    + vm_compute. intro H. discriminate H.
Defined.


(** Two requests are pending when "stop" is spoken at once: it is alone on
    the queue afterwards, although stopping the mixer failed. *)
Lemma speak_immediate_discards_pending_run :
  exists w',
    FastTTS.speak_immediate 5 (Raised (Exception "mixer not initialized")) "stop"
      None (tt, queue_of [plain_request unit; plain_request unit])
      = (Returned tt, w') /\
    map FastTTS.req_text (FastTTS.voice_queue (snd w')) = ["stop"].
Proof.
  destruct (speak_immediate_discards_pending unit 5
              (Raised (Exception "mixer not initialized")) "stop" None tt
              (queue_of [plain_request unit; plain_request unit]))
    as [w' [Hrun [_ [Hqueue _]]]].
  - reflexivity.
  - exists w'. split; [exact Hrun |]. rewrite Hqueue. reflexivity.
Defined.

(** Without an engine the failing callback fails in the caller's hands. *)
Lemma speak_without_engine_calls_back_at_once_run :
  fst (FastTTS.speak 0 "hello" None None None None (Some counting_callback)
         (0%nat, FastTTS.__init__ nat false))
    = Raised (Exception "callback failed") /\
  fst (snd (FastTTS.speak 0 "hello" None None None None (Some counting_callback)
              (0%nat, FastTTS.__init__ nat false)))
    = 1%nat.
Proof.
  destruct (speak_without_engine_calls_back_at_once nat 0 "hello" None None None
              None (Some counting_callback) 0%nat (FastTTS.__init__ nat false))
    as [_ [_ Hcb]].
  - reflexivity.
  - exact Hcb.
Defined.

(** A third song joins two; one of the two, offered again, changes nothing. *)
Lemma taste_stays_bounded_and_distinct_run :
  MediaServices.music_taste
    (MediaServices.add_to_taste "Blue in Green"
       {| MediaServices.music_taste := ["So What"; "Naima"] |})
    = ["So What"; "Naima"; "Blue in Green"] /\
  MediaServices.add_to_taste "Naima"
    {| MediaServices.music_taste := ["So What"; "Naima"] |}
    = {| MediaServices.music_taste := ["So What"; "Naima"] |}.
Proof.
  split.
  - apply (taste_stays_bounded_and_distinct "Blue in Green"
             {| MediaServices.music_taste := ["So What"; "Naima"] |}).
    + settle_nodup.
    + cbn. lia.
    + cbn. intuition discriminate.
    + discriminate.
    + cbn. lia.
  - apply (taste_stays_bounded_and_distinct "Naima"
             {| MediaServices.music_taste := ["So What"; "Naima"] |}).
    + settle_nodup.
    + cbn. lia.
    + left. right. left. reflexivity.
Defined.

(** A capture of blank text while nothing plays: transcribed, not dispatched. *)
Lemma callback_outcomes_run :
  fst (Rose.callback (fun _ => Returned "   ") [Byte.x52] (app false []))
    = Returned tt /\
  Rose.transcribed
    (snd (Rose.callback (fun _ => Returned "   ") [Byte.x52] (app false [])))
    = [[Byte.x52]] /\
  Rose.dispatched
    (snd (Rose.callback (fun _ => Returned "   ") [Byte.x52] (app false [])))
    = [].
Proof.
  destruct (callback_outcomes (fun _ => Returned "   ") [Byte.x52] (app false []))
    as [Hret [Htr [_ [_ [Hd _]]]]].
  - reflexivity.
  - split; [exact Hret |]. split; [exact Htr | exact Hd].
Defined.

(** After "speed up" sets the rate to +50%, the next utterance is queued
    with it. *)
Lemma settings_reach_later_requests_only_run :
  map FastTTS.req_rate
    (FastTTS.voice_queue
       (snd (snd (FastTTS.speak 0 "Fast response mode enabled" None None None
                    None None
                    (tt, FastTTS.set_rate "+50%" (FastTTS.__init__ unit true))))))
  = ["+50%"].
Proof.
  destruct (settings_reach_later_requests_only unit "+50%" 0
              "Fast response mode enabled" [] tt (FastTTS.__init__ unit true))
    as [[Hqueue _] _].
  - reflexivity.
  - rewrite Hqueue. reflexivity.
Defined.

End MoreRuns.

(** * The worker and the speech thread over every exit *)

Section ExitFacts.

Import Exits FastTTSExits.

Variables Env Callable : Type.
Variable call : Callable -> X (World Env Callable) unit.

Lemma fresh_test :
  forall (o : io) (r : request Callable),
    ~ stale o r -> Qltb 5 (now o - req_timestamp r) = false.
Proof.
  intros o r H. unfold Qltb, stale in *. apply negb_false_iff.
  apply Qle_bool_iff. apply Qnot_lt_le. exact H.
Qed.

Lemma stale_test_exits :
  forall (o : io) (r : request Callable),
    stale o r -> Qltb 5 (now o - req_timestamp r) = true.
Proof.
  intros o r H. unfold Qltb, stale in *. apply negb_true_iff.
  destruct (Qle_bool (now o - req_timestamp r) 5) eqn:E; [| reflexivity].
  apply Qle_bool_iff in E. exfalso. exact (Qlt_not_le _ _ H E).
Qed.

(** Synthesis and playback, followed by whatever comes next: they add to
    the trace, never call the callback, and hand over unless one of them let
    an exit signal through. *)
Lemma synthesis_then :
  forall (B : Type) (o : io) (ssml : string)
         (K : unit -> X (World Env Callable) B) (env : Env)
         (s : FastTTSService Callable),
    exists tr,
      filter FastTTS.is_callback tr = [] /\
      next (_generate_audio o ssml)
           (fun audio_data =>
              next (match FastTTS.has_audio audio_data with
                    | Some data => _play_audio o data
                    | None => done tt
                    end) K) (env, s)
      = match synthesis_and_playback o with
        | Exited b => (Exited b, (env, set_trace (trace s ++ tr) s))
        | _ => K tt (env, set_trace (trace s ++ tr) s)
        end.
Proof.
  intros B o ssml K env s.
  unfold _generate_audio, _play_audio, synthesis_and_playback, FastTTS.has_audio,
    emit, self, within, except_Exception, next, update, read, done, external.
  cbn [fst snd].
  destruct (generated o) as [[| b bs] | eg | xg];
    try destruct (pygame_played o) as [[] | ep | xp];
    try destruct ep;
    try destruct (fallback_played o) as [[] | ef | xf];
    cbn [fst snd];
    unfold set_trace; cbn [trace is_available voice_queue is_speaking
                             current_voice rate pitch volume];
    rewrite <- ?app_assoc;
    eexists; (split; [| reflexivity]); reflexivity.
Qed.

(** A request whose synthesis or playback let an exit signal through. *)
Lemma process_exits :
  forall (o : io) (r : request Callable) (env : Env)
         (s : FastTTSService Callable) (b : exit_signal),
    synthesis_and_playback o = Exited b ->
    exists tr,
      filter FastTTS.is_callback tr = [] /\
      _process_tts_request call o r (env, s)
      = (Exited b, (env, set_trace (trace s ++ tr) s)).
Proof.
  intros o r env s b Hexit.
  destruct (synthesis_then unit o (ssml_of r)
              (fun _ => call_callback call (req_callback r)) env s)
    as [tr [Hcb Hrun]].
  exists tr. split; [exact Hcb |].
  unfold _process_tts_request, except_Exception.
  rewrite Hrun, Hexit. reflexivity.
Qed.

(** A request whose synthesis and playback handed over to the callback. *)
Lemma process_reaches_callback :
  forall (o : io) (r : request Callable) (env : Env)
         (s : FastTTSService Callable),
    (forall b, synthesis_and_playback o <> Exited b) ->
    exists tr,
      filter FastTTS.is_callback tr = [] /\
      _process_tts_request call o r (env, s)
      = match req_callback r with
        | None => (Finished tt, (env, set_trace (trace s ++ tr) s))
        | Some c =>
            match call c (env, set_trace (trace s ++ tr ++ [FastTTS.EvCallback]) s) with
            | (Finished _, w) => (Finished tt, w)
            | (Failed e, w) =>
                (Finished tt,
                 (fst w,
                  set_trace
                    (trace (snd w)
                     ++ [FastTTS.EvPrintError "TTS processing error" e])
                    (snd w)))
            | (Exited b, w) => (Exited b, w)
            end
        end.
Proof.
  intros o r env s Hquiet.
  destruct (synthesis_then unit o (ssml_of r)
              (fun _ => call_callback call (req_callback r)) env s)
    as [tr [Hcb Hrun]].
  exists tr. split; [exact Hcb |].
  unfold _process_tts_request, except_Exception.
  rewrite Hrun.
  destruct (synthesis_and_playback o) as [[] | e | b] eqn:E.
  - unfold call_callback. destruct (req_callback r) as [c |].
    + unfold next at 1, emit, self, within, update. cbn [fst snd].
      assert (set_trace
                (trace (set_trace (trace s ++ tr) s) ++ [FastTTS.EvCallback])
                (set_trace (trace s ++ tr) s)
              = set_trace (trace s ++ tr ++ [FastTTS.EvCallback]) s) as Hst.
      { unfold set_trace. cbn [trace is_available voice_queue is_speaking
                                 current_voice rate pitch volume].
        rewrite <- app_assoc. reflexivity. }
      rewrite Hst.
      destruct (call c (env, set_trace (trace s ++ tr ++ [FastTTS.EvCallback]) s))
        as [[[] | e | b] w]; reflexivity.
    + reflexivity.
  - exfalso. unfold synthesis_and_playback in E.
    destruct (generated o) as [[| ? ?] | ? | ?]; try discriminate.
    destruct (pygame_played o) as [[] | ep | ?]; try discriminate.
    destruct ep; try discriminate.
    destruct (fallback_played o); discriminate.
  - exfalso. exact (Hquiet b eq_refl).
Qed.

Lemma exits_pass_on_empty_queue :
  forall (o : io) (env : Env) (s : FastTTSService Callable),
    voice_queue s = [] ->
    worker_pass call o (env, s) = (Finished tt, (env, s)).
Proof.
  intros o env s Hq.
  unfold worker_pass, queue_get, self, within, except_Exception, next, read,
    fail, done.
  cbn [fst snd]. rewrite Hq. reflexivity.
Qed.

Lemma exits_pass_on_stale_request :
  forall (o : io) (env : Env) (s : FastTTSService Callable) r rest,
    voice_queue s = r :: rest ->
    stale o r ->
    worker_pass call o (env, s) = (Finished tt, (env, set_voice_queue rest s)).
Proof.
  intros o env s r rest Hq Hstale.
  apply stale_test_exits in Hstale.
  unfold worker_pass, queue_get, self, within, except_Exception, next, read,
    update, fail, done.
  cbn [fst snd]. rewrite Hq. cbn [fst snd]. rewrite Hstale. reflexivity.
Qed.

(** A pass over a request that is not stale, in terms of what processing
    the request does once the gate is set. *)
Lemma exits_pass_on_fresh_request :
  forall (o : io) (env : Env) (s : FastTTSService Callable) r rest,
    voice_queue s = r :: rest ->
    ~ stale o r ->
    worker_pass call o (env, s)
    = match _process_tts_request call o r
              (env, set_is_speaking true (set_voice_queue rest s)) with
      | (Finished _, w) => (Finished tt, (fst w, set_is_speaking false (snd w)))
      | (Failed queue_Empty, w) => (Finished tt, w)
      | (Failed e, w) =>
          (Finished tt,
           (fst w,
            set_is_speaking false
              (set_trace (trace (snd w)
                          ++ [FastTTS.EvPrintError "TTS Worker error" e])
                 (snd w))))
      | (Exited b, w) => (Exited b, w)
      end.
Proof.
  intros o env s r rest Hq Hfresh.
  apply fresh_test in Hfresh.
  unfold worker_pass, queue_get, except_Exception.
  unfold next at 1. unfold next at 1.
  unfold self at 1, within, read. cbn [fst snd]. rewrite Hq.
  unfold next at 1, self at 1, within, update, done. cbn [fst snd].
  rewrite Hfresh.
  unfold next at 1, self at 1, within. cbn [fst snd].
  unfold next at 1.
  destruct (_process_tts_request call o r
              (env, set_is_speaking true (set_voice_queue rest s)))
    as [[[] | e | b] w].
  - unfold self, within. cbn [fst snd]. reflexivity.
  - destruct e; unfold next, emit, self, within, update, done; reflexivity.
  - reflexivity.
Qed.

Lemma exits_worker_step :
  forall (o : io) (os : list io) (w w' : World Env Callable),
    worker_pass call o w = (Finished tt, w') ->
    _tts_worker call (o :: os) w = _tts_worker call os w'.
Proof.
  intros o os w w' Hrun. cbn [_tts_worker]. unfold next. rewrite Hrun.
  reflexivity.
Qed.

Lemma exits_worker_stops :
  forall (o : io) (os : list io) (w w' : World Env Callable) (b : exit_signal),
    worker_pass call o w = (Exited b, w') ->
    _tts_worker call (o :: os) w = (Exited b, w').
Proof.
  intros o os w w' b Hrun. cbn [_tts_worker]. unfold next. rewrite Hrun.
  reflexivity.
Qed.

(** X23. An exit signal in synthesis or playback.  When synthesis or the
    player of a request that is not stale lets an exit signal through
    (a cancelled synthesis task, say), neither handler of the worker catches
    it: the pass and the loop end with that signal, whatever passes would
    have followed; the request is off the queue, its callback was not
    called, and [is_speaking] is still set, so [is_busy] is true. *)
Theorem exit_signal_ends_worker_with_gate_held :
  forall (o : io) (os : list io) (env : Env) (s : FastTTSService Callable)
         r rest (b : exit_signal),
    voice_queue s = r :: rest ->
    ~ stale o r ->
    synthesis_and_playback o = Exited b ->
    exists s',
      worker_pass call o (env, s) = (Exited b, (env, s')) /\
      _tts_worker call (o :: os) (env, s) = (Exited b, (env, s')) /\
      is_speaking s' = true /\
      voice_queue s' = rest /\
      is_busy s' = true /\
      filter FastTTS.is_callback (trace s') = filter FastTTS.is_callback (trace s).
Proof.
  intros o os env s r rest b Hq Hfresh Hexit.
  destruct (process_exits o r env (set_is_speaking true (set_voice_queue rest s))
              b Hexit) as [tr [Hcb Hrun]].
  pose proof (exits_pass_on_fresh_request o env s r rest Hq Hfresh) as Hpass.
  rewrite Hrun in Hpass.
  eexists. split; [exact Hpass |].
  split; [apply exits_worker_stops; exact Hpass |].
  cbn [is_speaking voice_queue trace set_trace set_is_speaking set_voice_queue].
  split; [reflexivity |]. split; [reflexivity |].
  split; [reflexivity |].
  rewrite filter_app, Hcb, app_nil_r. reflexivity.
Qed.

(** X12. The completion callback.  On a pass over a request that is not
    stale and has a callback: if synthesis or playback let an exit signal
    through, the callback is not called.  Otherwise, whatever synthesis and
    playback did, an exception of class [Exception] included, the callback
    is called once, with the gate set and the request off the queue; when it
    returns, or raises an exception of class [Exception], the pass ends
    normally with the gate reset; when it ends in an exit signal, so does
    the pass, the service staying as the callback left it. *)
Theorem callback_runs_unless_exit_came_first :
  forall (o : io) (env : Env) (s : FastTTSService Callable) r rest c,
    voice_queue s = r :: rest ->
    ~ stale o r ->
    req_callback r = Some c ->
    (forall b,
        synthesis_and_playback o = Exited b ->
        exists s',
          worker_pass call o (env, s) = (Exited b, (env, s')) /\
          filter FastTTS.is_callback (trace s')
          = filter FastTTS.is_callback (trace s)) /\
    ((forall b, synthesis_and_playback o <> Exited b) ->
     exists tr,
       filter FastTTS.is_callback tr = [] /\
       worker_pass call o (env, s)
       = match call c (env,
                       set_trace (trace s ++ tr ++ [FastTTS.EvCallback])
                         (set_is_speaking true (set_voice_queue rest s))) with
         | (Finished _, w) =>
             (Finished tt, (fst w, set_is_speaking false (snd w)))
         | (Failed e, w) =>
             (Finished tt,
              (fst w,
               set_is_speaking false
                 (set_trace
                    (trace (snd w)
                     ++ [FastTTS.EvPrintError "TTS processing error" e])
                    (snd w))))
         | (Exited b, w) => (Exited b, w)
         end).
Proof.
  intros o env s r rest c Hq Hfresh Hcb.
  pose proof (exits_pass_on_fresh_request o env s r rest Hq Hfresh) as Hpass.
  split.
  - intros b Hexit.
    destruct (process_exits o r env
                (set_is_speaking true (set_voice_queue rest s)) b Hexit)
      as [tr [Hnone Hrun]].
    rewrite Hrun in Hpass. eexists. split; [exact Hpass |].
    cbn [trace set_trace set_is_speaking set_voice_queue].
    rewrite filter_app, Hnone, app_nil_r. reflexivity.
  - intro Hquiet.
    destruct (process_reaches_callback o r env
                (set_is_speaking true (set_voice_queue rest s)) Hquiet)
      as [tr [Hnone Hrun]].
    exists tr. split; [exact Hnone |].
    rewrite Hrun, Hcb in Hpass.
    cbn [trace set_is_speaking set_voice_queue] in Hpass.
    rewrite Hpass.
    destruct (call c (env,
                      set_trace (trace s ++ tr ++ [FastTTS.EvCallback])
                        (set_is_speaking true (set_voice_queue rest s))))
      as [[[] | e | b] w]; reflexivity.
Qed.

(** A pass without exit signal, over tame callbacks. *)
Lemma quiet_pass :
  forall (o : io) (env : Env) (s : FastTTSService Callable),
    tame call ->
    quiet o ->
    exists w',
      worker_pass call o (env, s) = (Finished tt, w') /\
      voice_queue (snd w') = tl (voice_queue s) /\
      (is_speaking s = false -> is_speaking (snd w') = false).
Proof.
  intros o env s Htame Hquiet.
  destruct (voice_queue s) as [| r rest] eqn:Hq.
  - rewrite (exits_pass_on_empty_queue o env s Hq). eexists.
    split; [reflexivity |]. cbn [snd]. rewrite Hq. split; [reflexivity | auto].
  - destruct (Qltb 5 (now o - req_timestamp r)) eqn:E.
    + assert (stale o r) as Hstale.
      { unfold stale. unfold Qltb in E. apply negb_true_iff in E.
        apply Qnot_le_lt. intro Hle. apply Qle_bool_iff in Hle. congruence. }
      rewrite (exits_pass_on_stale_request o env s r rest Hq Hstale).
      eexists. split; [reflexivity |]. cbn [snd tl]. split; [reflexivity | auto].
    + assert (~ stale o r) as Hfresh.
      { intro H. apply stale_test_exits in H. congruence. }
      rewrite (exits_pass_on_fresh_request o env s r rest Hq Hfresh).
      destruct (process_reaches_callback o r env
                  (set_is_speaking true (set_voice_queue rest s)) Hquiet)
        as [tr [_ Hrun]].
      rewrite Hrun. cbn [tl].
      destruct (req_callback r) as [c |].
      * match goal with
        | |- context [call c ?w0] =>
            destruct (Htame c w0) as [Hno Hqueue];
            destruct (call c w0) as [[[] | e | b] w] eqn:Ecall
        end; cbn [fst snd] in *.
        -- eexists. split; [reflexivity |]. cbn [snd voice_queue is_speaking
                                                   set_is_speaking].
           split; [exact Hqueue | reflexivity].
        -- eexists. split; [reflexivity |].
           cbn [snd voice_queue is_speaking set_is_speaking set_trace].
           split; [exact Hqueue | reflexivity].
        -- exfalso. exact (Hno b eq_refl).
      * eexists. split; [reflexivity |].
        cbn [snd voice_queue is_speaking set_is_speaking set_trace
               set_voice_queue].
        split; reflexivity.
Qed.

(** X11. The queue drains.  When no pass meets an exit signal and the
    callbacks neither end in one nor queue anything, a worker started with
    [is_speaking] clear has not stopped and is idle after as many passes as
    there were requests, whatever else synthesis, playback and the callbacks
    did: [is_busy] is false. *)
Theorem quiet_worker_drains_the_queue :
  forall (os : list io) (env : Env) (s : FastTTSService Callable),
    tame call ->
    Forall quiet os ->
    is_speaking s = false ->
    (List.length (voice_queue s) <= List.length os)%nat ->
    fst (_tts_worker call os (env, s)) = Finished tt /\
    is_busy (snd (snd (_tts_worker call os (env, s)))) = false.
Proof.
  intros os env s Htame. revert env s.
  induction os as [| o os IH]; intros env s Hquiet Hclear Hlen.
  - cbn [List.length] in Hlen. destruct (voice_queue s) eqn:Hq; [| cbn in Hlen; lia].
    cbn. unfold is_busy. rewrite Hclear, Hq. split; reflexivity.
  - inversion Hquiet as [| ? ? Ho Hrest]; subst.
    destruct (quiet_pass o env s Htame Ho) as [[env' s'] [Hrun [Hq Hc]]].
    rewrite (exits_worker_step o os _ _ Hrun). cbn [snd] in *.
    apply IH; [exact Hrest | exact (Hc Hclear) |].
    rewrite Hq. cbn [List.length] in Hlen.
    destruct (voice_queue s); cbn [tl List.length] in *; lia.
Qed.

End ExitFacts.

Section ThreadExitFacts.

Import Exits MediaServicesExits.

(** X24. The speech thread on every exit.  The thread that
    [TTSService.speak] starts resets [tts_playing] however it ends: its
    [finally] block runs also when synthesis or the player let an exit
    signal through, in which case the thread ends with that signal, after
    the sleep; an exception of class [Exception] never leaves it. *)
Theorem speech_thread_resets_flag_on_every_exit :
  forall (o : attempt) (text voice : string) (s : MediaServices.TTSService),
    MediaServices.tts_playing (snd (_runner o text voice s)) = false /\
    fst (_runner o text voice s) = thread_end o (MediaServices.edge_tts s) /\
    exists lg,
      MediaServices.log (snd (_runner o text voice s))
      = lg ++ [MediaServices.EvSleep
                 (MediaServices._estimate_tts_duration text + (35 # 100))].
Proof.
  intros o text voice s.
  unfold _runner, _generate_tts, _play_file_default, handle_error, emit,
    thread_end, finally, except_Exception, next, update, read, fail, done,
    external, MediaServices.set_tts_playing.
  cbn [MediaServices.edge_tts MediaServices.tts_playing MediaServices.log].
  destruct (MediaServices.edge_tts s);
    [ destruct (saved o) as [[] | es | xs];
      [ destruct (launched o) as [[] | el | xl] | | ] | ];
    cbn [fst snd MediaServices.edge_tts MediaServices.tts_playing
           MediaServices.log];
    (split; [reflexivity |]); (split; [reflexivity |]);
    eexists; reflexivity.
Qed.

End ThreadExitFacts.

(** ** The two models of the worker *)

Section Agreement.

Import Exits FastTTSExits.

Variable Env : Type.

(** On outcomes of class [Exception] and callbacks that act on the process
    alone, a pass of the worker over every exit is the pass of the worker of
    [FastTTS]. *)
Lemma worker_pass_agrees :
  forall (o : FastTTS.io) (env : Env) (s : FastTTS.FastTTSService Env),
    worker_pass on_process (of_io o) (env, of_service s)
    = of_run (FastTTS.worker_pass o (env, s)).
Proof.
  intros o env [av q sp cv ra pi vo tr].
  destruct q as [| r rest].
  - reflexivity.
  - unfold worker_pass, queue_get, _process_tts_request, _generate_audio,
      _play_audio, call_callback, emit, self, within, except_Exception, next,
      update, read, fail, done, external, on_process, of_run, of_io, of_service.
    unfold FastTTS.worker_pass, FastTTS.queue_get, FastTTS._process_tts_request,
      FastTTS._generate_audio, FastTTS._play_audio, FastTTS.call_callback,
      FastTTS.emit, FastTTS.self, FastTTS.outside, zoom, try_except, bind,
      modify, gets, raise, ret, lift.
    cbn [fst snd map voice_queue FastTTS.voice_queue now FastTTS.now
           req_timestamp of_request FastTTS.req_timestamp generated
           pygame_played fallback_played req_callback].
    destruct (Qltb 5 (FastTTS.now o - FastTTS.req_timestamp r)); [reflexivity |].
    destruct (FastTTS.generated o) as [[| b bs] | eg];
      destruct (FastTTS.req_callback r) as [f |];
      try destruct (FastTTS.pygame_played o) as [[] | ep];
      try destruct ep;
      try destruct (FastTTS.fallback_played o) as [[] | ef];
      cbn [fst snd of_result FastTTS.has_audio];
      try (destruct (f env) as [[[] | ec] env']);
      reflexivity.
Qed.

Lemma worker_agrees :
  forall (os : list FastTTS.io) (env : Env) (s : FastTTS.FastTTSService Env),
    _tts_worker on_process (map of_io os) (env, of_service s)
    = of_run (FastTTS._tts_worker os (env, s)).
Proof.
  induction os as [| o os IH]; intros env s.
  - reflexivity.
  - cbn [map _tts_worker FastTTS._tts_worker]. unfold next, bind.
    rewrite worker_pass_agrees.
    destruct (FastTTS.worker_pass o (env, s)) as [[[] | e] [env' s']];
      unfold of_run at 1; cbn [fst snd of_result].
    + apply IH.
    + reflexivity.
Qed.

End Agreement.

(** ** What is printed and what is handled *)

Section Complements.

Import FastTTS MediaServices.

Variable Env : Type.

(** X25. Speaking without an engine, with a callback.  [speak] returns what
    the callback returns or raises and leaves the process as the callback
    left it; the service is unchanged but for its trace, which has the text
    printed first and the callback called next. *)
Theorem speak_without_engine_prints_then_calls_back :
  forall stamp text voice rate_arg pitch_arg volume_arg (f : Callback Env)
         (env : Env) (s : FastTTSService Env),
    FastTTS.is_available s = false ->
    FastTTS.speak stamp text voice rate_arg pitch_arg volume_arg (Some f) (env, s)
    = (fst (f env),
       (snd (f env),
        set_trace (trace s ++ [FastTTS.EvPrint ("[TTS] " ++ text)%string; EvCallback])
          s)).
Proof.
  intros stamp text voice rate_arg pitch_arg volume_arg f env s Ha.
  unfold FastTTS.speak, call_callback, FastTTS.emit, self, outside, zoom, bind,
    gets, modify, ret.
  cbn [fst snd]. rewrite Ha. cbn [fst snd].
  destruct (f env) as [r env']. cbn [fst snd trace set_trace].
  destruct r as [[] | e]; unfold set_trace; cbn [FastTTS.is_available voice_queue
    is_speaking current_voice rate pitch volume trace];
    rewrite <- app_assoc; reflexivity.
Qed.

(** X26. Errors of the volume commands.  [adjust_volume] hands an error to
    the error handler only when the one subprocess it started raised it, and
    then once, as "Volume control"; a call that starts no subprocess, or
    whose subprocess returns, hands over nothing. *)
Theorem volume_error_is_handled_once :
  forall (system : Platform) (ran : result unit) (command : string)
         (v : VolumeService),
    (spawned (snd (adjust_volume system ran command v)) = spawned v ->
     handled (snd (adjust_volume system ran command v)) = handled v) /\
    (ran = Returned tt ->
     handled (snd (adjust_volume system ran command v)) = handled v) /\
    (forall e,
        ran = Raised e ->
        spawned (snd (adjust_volume system ran command v)) <> spawned v ->
        handled (snd (adjust_volume system ran command v))
        = handled v ++ [(e, "Volume control")]).
Proof.
  intros system ran command v.
  assert (forall (l : list (list string)) a, l ++ [a] <> l) as Hgrow.
  { intros l a H. apply (f_equal (@List.length _)) in H.
    rewrite length_app in H. cbn in H. lia. }
  unfold adjust_volume, subprocess_run, try_except, bind, modify, lift, ret.
  destruct system;
    destruct (contains "up" command);
    try destruct (contains "down" command);
    try destruct (contains "mute" command);
    try destruct (contains "unmute" command);
    destruct ran as [[] | e]; cbn [fst snd spawned handled];
    (split; [intro H; first [reflexivity | exfalso; exact (Hgrow _ _ H)] |]);
    (split; [intro H; first [reflexivity | discriminate H] |]);
    intros e' He Hs; first [discriminate He | injection He as <-; reflexivity
                           | exfalso; apply Hs; reflexivity].
Qed.

End Complements.

(** * Concrete runs over every exit *)

Section ExitRuns.

Import Exits Scenario.

(** C5.  Release of the speaking gate.  The gate is to be released on
    every exit path of a speak operation, and the worker is to go on to the
    next request after a failed one.  The thread of [TTSService.speak] does
    so, its [finally] block resetting [tts_playing] even when the synthesis
    task is cancelled.  The worker of [FastTTSService] does so for
    exceptions of class [Exception], which its handlers catch, and not for
    an exit signal.  With "first", whose callback calls [sys.exit()], and
    "second" waiting, the first pass ends the loop with [SystemExit]:
    [is_speaking] stays set, "second" is never taken and [is_busy] stays
    true.  A cancelled synthesis task does the same. *)
Theorem exit_signal_leaves_the_gate_held :
  (fst (FastTTSExits._tts_worker example_call
          [synthesis_works 1; synthesis_works 2]
          (tt, waiting [utterance "first" (Some CallsSysExit) 0;
                        utterance "second" None 0]))
     = Exited SystemExit /\
   FastTTSExits.is_speaking
     (snd (snd (FastTTSExits._tts_worker example_call
                  [synthesis_works 1; synthesis_works 2]
                  (tt, waiting [utterance "first" (Some CallsSysExit) 0;
                                utterance "second" None 0]))))
     = true /\
   map FastTTSExits.req_text
     (FastTTSExits.voice_queue
        (snd (snd (FastTTSExits._tts_worker example_call
                     [synthesis_works 1; synthesis_works 2]
                     (tt, waiting [utterance "first" (Some CallsSysExit) 0;
                                   utterance "second" None 0])))))
     = ["second"] /\
   FastTTSExits.is_busy
     (snd (snd (FastTTSExits._tts_worker example_call
                  [synthesis_works 1; synthesis_works 2]
                  (tt, waiting [utterance "first" (Some CallsSysExit) 0;
                                utterance "second" None 0]))))
     = true) /\
  (fst (FastTTSExits._tts_worker example_call
          [synthesis_cancelled 1; synthesis_works 2]
          (tt, waiting [utterance "first" None 0; utterance "second" None 0]))
     = Exited CancelledError /\
   FastTTSExits.is_speaking
     (snd (snd (FastTTSExits._tts_worker example_call
                  [synthesis_cancelled 1; synthesis_works 2]
                  (tt, waiting [utterance "first" None 0;
                                utterance "second" None 0]))))
     = true /\
   map FastTTSExits.req_text
     (FastTTSExits.voice_queue
        (snd (snd (FastTTSExits._tts_worker example_call
                     [synthesis_cancelled 1; synthesis_works 2]
                     (tt, waiting [utterance "first" None 0;
                                   utterance "second" None 0])))))
     = ["second"]) /\
  (fst (FastTTSExits._tts_worker example_call
          [synthesis_errors 1; synthesis_works 2]
          (tt, waiting [utterance "first" (Some RaisesError) 0;
                        utterance "second" None 0]))
     = Finished tt /\
   FastTTSExits.is_busy
     (snd (snd (FastTTSExits._tts_worker example_call
                  [synthesis_errors 1; synthesis_works 2]
                  (tt, waiting [utterance "first" (Some RaisesError) 0;
                                utterance "second" None 0]))))
     = false) /\
  (fst (MediaServicesExits._runner saving_cancelled "Here is the setup guide"
          "en-US-JennyNeural" (MediaServices.__init__ true))
     = Exited CancelledError /\
   MediaServices.tts_playing
     (snd (MediaServicesExits._runner saving_cancelled "Here is the setup guide"
             "en-US-JennyNeural" (MediaServices.__init__ true)))
     = false).
Proof.
  repeat split; vm_compute; reflexivity.
Qed.

(** Two requests, synthesis failing for the first, whose callback fails
    too, and the player failing for the second: after two passes the worker
    is idle. *)
Lemma quiet_worker_drains_the_queue_run :
  fst (FastTTSExits._tts_worker polite_call
         [synthesis_errors 1; playback_errors 2]
         (tt, waiting [utterance "first" (Some false) 0;
                       utterance "second" (Some true) 0]))
    = Finished tt /\
  FastTTSExits.is_busy
    (snd (snd (FastTTSExits._tts_worker polite_call
                 [synthesis_errors 1; playback_errors 2]
                 (tt, waiting [utterance "first" (Some false) 0;
                               utterance "second" (Some true) 0]))))
    = false.
Proof.
  apply (quiet_worker_drains_the_queue unit bool polite_call).
  - intros c w. destruct c; cbn; (split; [intros b H; discriminate H | reflexivity]).
  - repeat (apply Forall_cons; [intros b H; vm_compute in H; discriminate H |]).
    apply Forall_nil.
  - reflexivity.
  - cbn. lia.
Defined.

(** "first" has a callback that calls [sys.exit()]: synthesis works, the
    callback is called, and the pass ends with [SystemExit], the gate set. *)
Lemma callback_runs_unless_exit_came_first_run :
  exists tr,
    filter FastTTS.is_callback tr = [] /\
    FastTTSExits.worker_pass example_call (synthesis_works 1)
      (tt, waiting [utterance "first" (Some CallsSysExit) 0])
    = (Exited SystemExit,
       (tt,
        FastTTSExits.set_trace (tr ++ [FastTTS.EvCallback])
          (FastTTSExits.set_is_speaking true (waiting [])))).
Proof.
  destruct (callback_runs_unless_exit_came_first unit example_callback
              example_call (synthesis_works 1) tt
              (waiting [utterance "first" (Some CallsSysExit) 0])
              (utterance "first" (Some CallsSysExit) 0) [] CallsSysExit)
    as [_ Hcalled].
  - reflexivity.
  - vm_compute. intro H. discriminate H.
  - reflexivity.
  - destruct Hcalled as [tr [Hnone Hrun]].
    + intros b H. vm_compute in H. discriminate H.
    + exists tr. split; [exact Hnone | exact Hrun].
Defined.

(** The synthesis task of "first" is cancelled while "second" waits. *)
Lemma exit_signal_ends_worker_with_gate_held_run :
  exists s',
    FastTTSExits._tts_worker example_call
      [synthesis_cancelled 1; synthesis_works 2]
      (tt, waiting [utterance "first" (Some Returns) 0; utterance "second" None 0])
    = (Exited CancelledError, (tt, s')) /\
    FastTTSExits.is_busy s' = true /\
    filter FastTTS.is_callback (FastTTSExits.trace s') = [].
Proof.
  destruct (exit_signal_ends_worker_with_gate_held unit example_callback
              example_call (synthesis_cancelled 1) [synthesis_works 2] tt
              (waiting [utterance "first" (Some Returns) 0;
                        utterance "second" None 0])
              (utterance "first" (Some Returns) 0) [utterance "second" None 0]
              CancelledError)
    as [s' [_ [Hrun [_ [_ [Hbusy Hcb]]]]]].
  - reflexivity.
  - vm_compute. intro H. discriminate H.
  - reflexivity.
  - exists s'. split; [exact Hrun |]. split; [exact Hbusy | exact Hcb].
Defined.

(** Without an engine "hello" is printed, then the callback is called and
    fails in the caller's hands. *)
Lemma speak_without_engine_prints_then_calls_back_run :
  FastTTS.speak 0 "hello" None None None None (Some counting_callback)
    (0%nat, FastTTS.__init__ nat false)
  = (Raised (Exception "callback failed"),
     (1%nat,
      FastTTS.set_trace
        (FastTTS.trace (FastTTS.__init__ nat false)
         ++ [FastTTS.EvPrint "[TTS] hello"; FastTTS.EvCallback])
        (FastTTS.__init__ nat false))).
Proof.
  apply (speak_without_engine_prints_then_calls_back nat 0 "hello" None None
           None None counting_callback 0%nat (FastTTS.__init__ nat false)).
  reflexivity.
Defined.

End ExitRuns.
